(** * pbs.Job: serialising and parsing PBS submit scripts

    A shallow embedding of [src/pbs/job.py] (Python 2): the [Job]
    constructor, [Job.qsub_string] and [Job.read], together with the
    part of Python's [re] module that [Job.read] relies on, and the
    properties of the script format that follow from the code. *)

From Stdlib Require Import String Ascii ZArith List Lia.
From Stdlib Require Import DecimalString DecimalZ DecimalPos.
From stdpp Require Import gmap strings list fin_maps.

Open Scope string_scope.

(** ** Python values and exceptions *)

(** The values an attribute of a [Job] can hold.  Floats and other
    objects are outside the model. *)
Inductive pyval : Type :=
| PNone
| PBool (b : bool)
| PInt (z : Z)
| PStr (s : string).

#[global] Instance pyval_eq_dec : EqDecision pyval.
Proof. solve_decision. Defined.

Inductive exn : Type :=
| NameError (name : string)
| ValueError (literal : string)
| TypeError
| AttributeError (attr : string)
| SystemExit.

(** A call either returns, or raises after having printed [stdout]
    (one entry per [print] statement). *)
Inductive outcome (A : Type) : Type :=
| Returned (a : A)
| Raised (e : exn) (stdout : list string).

Arguments Returned {A} a.
Arguments Raised {A} e stdout.

#[global] Instance outcome_bind : MBind outcome := fun A B f x =>
  match x with
  | Returned a => f a
  | Raised e out => Raised e out
  end.

(** ** Characters and strings *)

Definition nl_char : ascii := ascii_of_nat 10.
Definition nl : string := String nl_char "".

(** [isspace] in the C locale, which is also what [\s] matches on a
    byte string: space, \t, \n, \v, \f, \r. *)
Definition is_space (c : ascii) : bool :=
  let n := nat_of_ascii c in
  (n =? 32)%nat || ((9 <=? n)%nat && (n <=? 13)%nat).

Fixpoint string_forall (p : ascii -> bool) (s : string) : bool :=
  match s with
  | "" => true
  | String c s' => p c && string_forall p s'
  end.

Fixpoint string_mem (c : ascii) (s : string) : bool :=
  match s with
  | "" => false
  | String d s' => Ascii.eqb c d || string_mem c s'
  end.

Fixpoint lstrip (s : string) : string :=
  match s with
  | String c s' => if is_space c then lstrip s' else s
  | "" => ""
  end.

Fixpoint rstrip (s : string) : string :=
  match s with
  | "" => ""
  | String c s' =>
      match rstrip s' with
      | "" => if is_space c then "" else String c ""
      | r => String c r
      end
  end.

(** [strip_prefix p s] is the rest of [s] after its prefix [p]. *)
Fixpoint strip_prefix (p s : string) : option string :=
  match p with
  | "" => Some s
  | String a p' =>
      match s with
      | String b s' => if Ascii.eqb a b then strip_prefix p' s' else None
      | "" => None
      end
  end.

(** The first [n] characters of [s]. *)
Fixpoint take_str (n : nat) (s : string) : string :=
  match n, s with
  | S n', String c s' => String c (take_str n' s')
  | _, _ => ""
  end.

(** What a match that started at [s] and stopped at its suffix [s']
    has consumed. *)
Definition consumed (s s' : string) : string :=
  take_str (String.length s - String.length s') s.

(** ** [str.format] and [int] *)

Definition py_str_of_Z (z : Z) : string := NilZero.string_of_int (Z.to_int z).

(** ["{0}".format(v)]. *)
Definition py_format (v : pyval) : string :=
  match v with
  | PNone => "None"
  | PBool true => "True"
  | PBool false => "False"
  | PInt z => py_str_of_Z z
  | PStr s => s
  end.

(** [int(s)] on a string, base 10, as CPython 2 reads it: blanks, an
    optional sign, blanks, at least one digit, blanks. *)
Definition int_of_str (s : string) : option Z :=
  let s1 := lstrip s in
  let '(neg, s2) :=
    match s1 with
    | String c r =>
        if Ascii.eqb c "-" then (true, r)
        else if Ascii.eqb c "+" then (false, r)
        else (false, s1)
    | "" => (false, s1)
    end in
  match NilZero.uint_of_string (rstrip (lstrip s2)) with
  | Some u => Some (if neg then (- Z.of_uint u)%Z else Z.of_uint u)
  | None => None
  end.

(** [int(v)]. *)
Definition py_int (v : pyval) : outcome Z :=
  match v with
  | PNone => Raised TypeError []
  | PBool b => Returned (if b then 1%Z else 0%Z)
  | PInt z => Returned z
  | PStr s =>
      match int_of_str s with
      | Some z => Returned z
      | None => Raised (ValueError s) []
      end
  end.

(** [bool(v)]. *)
Definition py_bool (v : pyval) : bool :=
  match v with
  | PNone => false
  | PBool b => b
  | PInt z => negb (z =? 0)%Z
  | PStr s => negb (String.eqb s "")
  end.

(** [a == b] on the values of the model. *)
Definition py_eq (a b : pyval) : bool := bool_decide (a = b).

(** ** Regular expressions

    The fragment of [re] that [Job.read] uses, with the backtracking
    (leftmost, greedy-first) semantics of the [sre] engine. *)

Inductive cls : Type :=
| Dot                    (* .   : anything but a newline *)
| Space                  (* \s *)
| OneOf (s : string).    (* [...] *)

Definition cls_mem (C : cls) (c : ascii) : bool :=
  match C with
  | Dot => negb (Ascii.eqb c nl_char)
  | Space => is_space c
  | OneOf s => string_mem c s
  end.

Inductive regex : Type :=
| Lit (s : string)
| Chr (C : cls)
| Seq (r1 r2 : regex)
| Alt (r1 r2 : regex)
| Star (r : regex)
| Group (n : nat) (r : regex).

Definition Plus (r : regex) : regex := Seq r (Star r).

Declare Scope regex_scope.
Delimit Scope regex_scope with re.
Bind Scope regex_scope with regex.
Notation "r1 +++ r2" := (Seq r1 r2)
  (at level 60, right associativity) : regex_scope.

(** Captured groups, latest first. *)
Definition groups : Type := list (nat * string).

Fixpoint group_lookup (n : nat) (g : groups) : option string :=
  match g with
  | [] => None
  | (m, s) :: g' => if (n =? m)%nat then Some s else group_lookup n g'
  end.

(** [m.group(n)] for a group that took part in the match. *)
Definition group (n : nat) (g : groups) : string :=
  match group_lookup n g with Some s => s | None => "" end.

(** [rmatch r s g k]: match [r] at the start of [s] and hand what is
    left to [k]; the alternatives are tried in the engine's order and
    the first one for which [k] succeeds wins.  An iteration of a star
    that consumes nothing is cut off, as in the engine. *)
Fixpoint rmatch (r : regex) (s : string) (g : groups)
    (k : string -> groups -> option groups) {struct r} : option groups :=
  match r with
  | Lit p =>
      match strip_prefix p s with
      | Some s' => k s' g
      | None => None
      end
  | Chr C =>
      match s with
      | String c s' => if cls_mem C c then k s' g else None
      | "" => None
      end
  | Seq r1 r2 => rmatch r1 s g (fun s' g' => rmatch r2 s' g' k)
  | Alt r1 r2 =>
      match rmatch r1 s g k with
      | Some m => Some m
      | None => rmatch r2 s g k
      end
  | Star r1 =>
      (fix loop (n : nat) (s : string) (g : groups) {struct n} : option groups :=
         match n with
         | O => k s g
         | S n' =>
             match rmatch r1 s g (fun s' g' =>
                     if (String.length s' <? String.length s)%nat
                     then loop n' s' g' else None) with
             | Some m => Some m
             | None => k s g
             end
         end) (String.length s) s g
  | Group n r1 =>
      rmatch r1 s g (fun s' g' => k s' ((n, consumed s s') :: g'))
  end.

(** [re.match(r, s)]: a match at the start of [s]. *)
Definition re_match (r : regex) (s : string) : option groups :=
  rmatch r s [] (fun _ g => Some g).

(** [re.search(r, s)]: the leftmost position with a match. *)
Fixpoint re_search (r : regex) (s : string) : option groups :=
  match re_match r s with
  | Some m => Some m
  | None =>
      match s with
      | String _ s' => re_search r s'
      | "" => None
      end
  end.

(** The patterns of [Job.read], in the order of the source.  In the
    comments <...> stands for a parenthesised group. *)
Definition flag (f : string) : regex :=
  (Lit f +++ Plus (Chr Space) +++ Group 1 (Star (Chr Dot)) +++ Chr Space)%re.
Definition resource (f : string) : regex :=
  (Lit f +++ Group 1 (Star (Chr Dot)) +++ Chr Space)%re.

Definition re_PBS : regex := Lit "#PBS".
(* -N\s+<.*>\s *)
Definition re_N : regex := flag "-N".
(* -A\s+<.*>\s *)
Definition re_A : regex := flag "-A".
(* -a\s+<.*>\s *)
Definition re_a : regex := flag "-a".
(* \s-l\s *)
Definition re_l : regex := (Chr Space +++ Lit "-l" +++ Chr Space)%re.
(* walltime=<.*>\s *)
Definition re_walltime : regex := resource "walltime=".
(* nodes=<.*>:ppn=<.*>\s *)
Definition re_nodes : regex :=
  (Lit "nodes=" +++ Group 1 (Star (Chr Dot)) +++ Lit ":ppn=" +++
   Group 2 (Star (Chr Dot)) +++ Chr Space)%re.
(* pmem=<.*>\s *)
Definition re_pmem : regex := resource "pmem=".
(* -q\s+<.*>\s *)
Definition re_q : regex := flag "-q".
(* -M\s+<.*>\s *)
Definition re_M : regex := flag "-M".
(* -m\s+<.*>\s *)
Definition re_m : regex := flag "-m".
(* -p\s+<.*>\s *)
Definition re_p : regex := flag "-p".
(* auto=\s*<.*>\s *)
Definition re_auto : regex :=
  (Lit "auto=" +++ Star (Chr Space) +++ Group 1 (Star (Chr Dot)) +++ Chr Space)%re.
(* [fF]<alse>*|0 *)
Definition re_false : regex :=
  Alt (Chr (OneOf "fF") +++ Star (Group 1 (Lit "alse")))%re (Lit "0").
(* [tT]<rue>*|1 *)
Definition re_true : regex :=
  Alt (Chr (OneOf "tT") +++ Star (Group 1 (Lit "rue")))%re (Lit "1").
(* cd\s+\$PBS_O_WORKDIR\s+ *)
Definition re_cd : regex :=
  (Lit "cd" +++ Plus (Chr Space) +++ Lit "$PBS_O_WORKDIR" +++ Plus (Chr Space))%re.

(** ** The module and the [Job] object *)

(** The names bound by the two [import] statements of the module. *)
Definition module_imports : list string :=
  ["subprocess"; "re"; "os"; "StringIO"; "jobdb"; "misc"].

(** What evaluating [sys.exit()] raises inside the module: the lookup
    of the global [sys] comes first. *)
Definition sys_exit : exn :=
  if bool_decide ("sys" ∈ module_imports) then SystemExit else NameError "sys".

(** An instance is its attribute dictionary. *)
Abbreviation obj := (gmap string pyval).

Definition getattr (o : obj) (k : string) : outcome pyval :=
  match o !! k with
  | Some v => Returned v
  | None => Raised (AttributeError k) []
  end.

(** *** [Job.qsub_string] *)

Definition dquote : string := String (ascii_of_nat 34) "".

(** The line [echo "I ran on:"], without its newline. *)
Definition echo_line : string := "echo " ++ dquote ++ "I ran on:" ++ dquote.

Definition qsub_string (self : obj) : outcome string :=
  let s := "#!/bin/sh" ++ nl in
  let s := s ++ ("#PBS -S /bin/sh" ++ nl) in
  name ← getattr self "name";
  let s := s ++ ("#PBS -N " ++ py_format name ++ nl) in
  exetime ← getattr self "exetime";
  let s := if bool_decide (exetime ≠ PNone)
           then s ++ ("#PBS -a " ++ py_format exetime ++ nl) else s in
  account ← getattr self "account";
  let s := if bool_decide (account ≠ PNone)
           then s ++ ("#PBS -A " ++ py_format account ++ nl) else s in
  walltime ← getattr self "walltime";
  let s := s ++ ("#PBS -l walltime=" ++ py_format walltime ++ nl) in
  nodes ← getattr self "nodes";
  ppn ← getattr self "ppn";
  let s := s ++ ("#PBS -l nodes=" ++ py_format nodes ++ ":ppn=" ++ py_format ppn ++ nl) in
  pmem ← getattr self "pmem";
  let s := if bool_decide (pmem ≠ PNone)
           then s ++ ("#PBS -l pmem=" ++ py_format pmem ++ nl) else s in
  queue ← getattr self "queue";
  let s := s ++ ("#PBS -l qos=" ++ py_format queue ++ nl) in
  let s := s ++ ("#PBS -q " ++ py_format queue ++ nl) in
  email ← getattr self "email";
  s ← (if bool_decide (email ≠ PNone) then
         message ← getattr self "message";
         if bool_decide (message ≠ PNone) then
           let s := s ++ ("#PBS -M " ++ py_format email ++ nl) in
           Returned (s ++ ("#PBS -m " ++ py_format message ++ nl))
         else Returned s
       else Returned s);
  let s := s ++ ("#PBS -V" ++ nl) in
  priority ← getattr self "priority";
  let s := s ++ ("#PBS -p " ++ py_format priority ++ nl ++ nl) in
  auto ← getattr self "auto";
  let s := s ++ ("#auto=" ++ py_format auto ++ nl ++ nl) in
  let s := s ++ (echo_line ++ nl) in
  let s := s ++ ("cat $PBS_NODEFILE" ++ nl ++ nl) in
  let s := s ++ ("cd $PBS_O_WORKDIR" ++ nl) in
  command ← getattr self "command";
  let s := s ++ (py_format command ++ nl) in
  Returned s.

(** *** [Job.read] *)

(** [StringIO.readline] on the unread part of the buffer: the line
    with its newline, and what is left; at the end of the buffer the
    line is empty. *)
Fixpoint readline (s : string) : string * string :=
  match s with
  | "" => ("", "")
  | String c s' =>
      if Ascii.eqb c nl_char then (String c "", s')
      else let '(l, r) := readline s' in (String c l, r)
  end.

(** The object being filled and the two dictionaries of [Job.read]. *)
Record pstate : Type := PState {
  self : obj;
  optional : obj;
  required : obj
}.

Definition set_attr (k : string) (v : pyval) (st : pstate) : pstate :=
  PState (<[k := v]> (self st)) (optional st) (required st).
Definition set_optional (k : string) (v : pyval) (st : pstate) : pstate :=
  PState (self st) (<[k := v]> (optional st)) (required st).
Definition set_required (k : string) (v : pyval) (st : pstate) : pstate :=
  PState (self st) (optional st) (<[k := v]> (required st)).

(** A string attribute that is also recorded in [required]. *)
Definition found_required (k v : string) (st : pstate) : pstate :=
  set_required k (PStr v) (set_attr k (PStr v) st).
Definition found_optional (k v : string) (st : pstate) : pstate :=
  set_optional k (PStr v) (set_attr k (PStr v) st).

(** The [-l] block of the loop body. *)
Definition read_resources (line : string) (st : pstate) : outcome pstate :=
  let st := if re_search re_walltime line is Some m
            then found_required "walltime" (group 1 m) st else st in
  st ← (if re_search re_nodes line is Some m then
          n ← py_int (PStr (group 1 m));
          let st := set_attr "nodes" (PInt n) st in
          p ← py_int (PStr (group 2 m));
          let st := set_attr "ppn" (PInt p) st in
          Returned (set_required "ppn" (PInt p) (set_required "nodes" (PInt n) st))
        else Returned st);
  let st := if re_search re_pmem line is Some m
            then found_optional "pmem" (group 1 m) st else st in
  Returned st.

(** The body of [if re.search("#PBS", line)]. *)
Definition read_directives (line : string) (st : pstate) : outcome pstate :=
  if re_search re_PBS line is Some _ then
    let st := if re_search re_N line is Some m
              then found_required "name" (group 1 m) st else st in
    let st := if re_search re_A line is Some m
              then found_optional "account" (group 1 m) st else st in
    let st := if re_search re_a line is Some m
              then found_optional "exetime" (group 1 m) st else st in
    st ← (if re_search re_l line is Some _
          then read_resources line st else Returned st);
    let st := if re_search re_q line is Some m
              then found_required "queue" (group 1 m) st else st in
    let st := if re_match re_M line is Some m
              then found_optional "email" (group 1 m) st else st in
    let st := if re_match re_m line is Some m
              then found_optional "message" (group 1 m) st else st in
    let st := if re_match re_p line is Some m
              then found_optional "priority" (group 1 m) st else st in
    Returned st
  else Returned st.

Definition auto_error : string :=
  "Error in pbs.Job().read(). '#auto=' argument not understood:".

(** The [auto=] block of the loop body. *)
Definition read_auto (line : string) (st : pstate) : outcome pstate :=
  if re_search re_auto line is Some m then
    if re_match re_false (group 1 m) is Some _ then
      Returned (set_optional "auto" (PBool false)
                  (set_attr "auto" (PBool false) st))
    else if re_match re_true (group 1 m) is Some _ then
      Returned (set_optional "auto" (PBool true)
                  (set_attr "auto" (PBool true) st))
    else Raised sys_exit [auto_error ++ " " ++ line]
  else Returned st.

(** What the loop does with a line before it looks for the anchor. *)
Definition read_line (line : string) (st : pstate) : outcome pstate :=
  st ← read_directives line st; read_auto line st.

(** The anchor was found: [io] is what [s.read()] returns. *)
Definition read_command (io : string) (st : pstate) : pstate :=
  set_required "command" (PStr io)
    (set_attr "command" (PStr io)
       (set_required "cd $PBS_O_WORKDIR" (PStr "Found") st)).

(** The [while True] loop; [io] is the unread part of the buffer.
    [None] when [fuel] iterations were not enough to leave the loop. *)
Fixpoint read_loop (fuel : nat) (io : string) (st : pstate)
    : option (outcome pstate) :=
  match fuel with
  | O => None
  | S fuel' =>
      let '(line, io') := readline io in
      match read_line line st with
      | Raised e out => Some (Raised e out)
      | Returned st' =>
          if re_search re_cd line is Some _
          then Some (Returned (read_command io' st'))
          else read_loop fuel' io' st'
      end
  end.

Definition not_found : pyval := PStr "Not Found".

(** The dictionaries are printed in the order [map_to_list] lists them;
    the order of a Python 2 dictionary is not modelled. *)
Definition print_items (d : obj) : list string :=
  (λ kv, kv.1 ++ ": " ++ py_format kv.2) <$> map_to_list d.

Definition report (st : pstate) : list string :=
  ["Error in pbs.Job.read(). Not all required arguments were found." ++ nl;
   "Optional arguments:"] ++ print_items (optional st) ++
  [nl ++ "Required arguments:"] ++ print_items (required st).

(** The check after the loop. *)
Definition check_required (st : pstate) : outcome obj :=
  if existsb (λ kv, py_eq kv.2 not_found) (map_to_list (required st))
  then Raised sys_exit (report st)
  else Returned (self st).

Definition read_defaults (self : obj) : obj :=
  <["exetime" := PNone]> (<["account" := PNone]> (<["auto" := PBool false]>
  (<["priority" := PStr "0"]> (<["message" := PStr "a"]>
  (<["email" := PNone]> (<["pmem" := PNone]> self)))))).

Definition optional_init : obj :=
  <["exetime" := PStr "Default: None"]> (<["auto" := PStr "Default: False"]>
  (<["priority" := PStr "Default: 0"]> (<["message" := PStr "Default: a"]>
  (<["email" := PStr "Default: None"]> (<["pmem" := PStr "Default: None"]>
  (<["account" := PStr "Default: None"]> ∅)))))).

Definition required_init : obj :=
  <["command" := not_found]> (<["cd $PBS_O_WORKDIR" := not_found]>
  (<["queue" := not_found]> (<["ppn" := not_found]> (<["nodes" := not_found]>
  (<["walltime" := not_found]> (<["name" := not_found]> ∅)))))).

(** [self.read(qsubstr)]: the object after the call. *)
Definition read (fuel : nat) (self : obj) (qsubstr : string)
    : option (outcome obj) :=
  match read_loop fuel qsubstr
          (PState (read_defaults self) optional_init required_init) with
  | None => None
  | Some (Raised e out) => Some (Raised e out)
  | Some (Returned st) => Some (check_required st)
  end.

(** *** [Job.__init__] *)

Record init_args : Type := InitArgs {
  arg_name : pyval;
  arg_account : pyval;
  arg_nodes : pyval;
  arg_ppn : pyval;
  arg_walltime : pyval;
  arg_pmem : pyval;
  arg_queue : pyval;
  arg_exetime : pyval;
  arg_message : pyval;
  arg_email : pyval;
  arg_priority : pyval;
  arg_command : pyval;
  arg_auto : pyval;
  arg_qsubstr : pyval
}.

(** The defaults of the signature. *)
Definition default_args : init_args :=
  InitArgs (PStr "STDIN") PNone PNone PNone PNone PNone PNone PNone
           (PStr "a") PNone (PStr "0") PNone (PBool false) PNone.

(** [Job(...)]: the new object.  With [qsubstr] the buffer is
    [StringIO(qsubstr)], which holds [str(qsubstr)]. *)
Definition init (fuel : nat) (a : init_args) : option (outcome obj) :=
  if bool_decide (arg_qsubstr a ≠ PNone) then
    read fuel ∅ (py_format (arg_qsubstr a))
  else Some (
    let self : obj := <["name" := arg_name a]> ∅ in
    let self := <["account" := arg_account a]> self in
    nodes ← py_int (arg_nodes a);
    let self := <["nodes" := PInt nodes]> self in
    ppn ← py_int (arg_ppn a);
    let self := <["ppn" := PInt ppn]> self in
    let self := <["walltime" := arg_walltime a]> self in
    let self := <["pmem" := arg_pmem a]> self in
    let self := <["queue" := arg_queue a]> self in
    let self := <["exetime" := arg_exetime a]> self in
    let self := <["message" := arg_message a]> self in
    let self := <["email" := arg_email a]> self in
    let self := <["priority" := arg_priority a]> self in
    let self := <["command" := arg_command a]> self in
    let self := <["auto" := PBool (py_bool (arg_auto a))]> self in
    let self := <["jobID" := PNone]> self in
    Returned self).

(** ** The lines of a buffer *)

(** The lines [readline] returns one after the other, each with its
    newline (the last one may lack it). *)
Fixpoint split_lines (s : string) : list string :=
  match s with
  | "" => []
  | String c s' =>
      if Ascii.eqb c nl_char then String c "" :: split_lines s'
      else match split_lines s' with
           | [] => [String c ""]
           | l :: ls => String c l :: ls
           end
  end.

Fixpoint join (ls : list string) : string :=
  match ls with
  | [] => ""
  | l :: ls' => l ++ join ls'
  end.

(** How the loop of [Job.read] goes through the lines of a buffer. *)
Inductive scan_result : Type :=
| ScanRaised (e : exn) (stdout : list string)
| ScanAnchor (st : pstate) (rest : string)
| ScanEnd (st : pstate).

Fixpoint scan (ls : list string) (st : pstate) : scan_result :=
  match ls with
  | [] => ScanEnd st
  | l :: ls' =>
      match read_line l st with
      | Raised e out => ScanRaised e out
      | Returned st' =>
          if re_search re_cd l is Some _ then ScanAnchor st' (join ls')
          else scan ls' st'
      end
  end.

Definition is_anchor (line : string) : bool :=
  if re_search re_cd line is Some _ then true else false.

Definition has_anchor (text : string) : bool :=
  existsb is_anchor (split_lines text).

(** The loop reads [l], gets to [st'] and goes on to the next line. *)
Definition line_reads (l : string) (st st' : pstate) : Prop :=
  read_line l st = Returned st' /\ is_anchor l = false.

(** ** Well-formed field values *)

Definition not_nl (c : ascii) : bool := negb (Ascii.eqb c nl_char).
Definition not_space (c : ascii) : bool := negb (is_space c).
Definition not_eq_sign (c : ascii) : bool := negb (Ascii.eqb c "=").

(** A blank other than the newline. *)
Definition is_blank (c : ascii) : bool := is_space c && not_nl c.

Definition sign_or_digit (c : ascii) : bool := string_mem c "-0123456789".

(** A value without blanks and without [=]. *)
Definition token (s : string) : bool :=
  string_forall not_space s && string_forall not_eq_sign s.

Definition opt_token (o : option string) : bool :=
  match o with Some s => token s | None => true end.

(** The fields of a job, typed as the docstring of [Job] gives them. *)
Record jobspec : Type := JobSpec {
  j_name : string;
  j_account : option string;
  j_nodes : Z;
  j_ppn : Z;
  j_walltime : string;
  j_pmem : option string;
  j_queue : string;
  j_exetime : option string;
  j_message : string;
  j_email : option string;
  j_priority : string;
  j_command : string;
  j_auto : bool
}.

Definition opt_val (o : option string) : pyval :=
  match o with Some s => PStr s | None => PNone end.

(** The attributes of a job with these fields, [jobID] aside. *)
Definition to_obj (j : jobspec) : obj :=
  <["name" := PStr (j_name j)]> (<["account" := opt_val (j_account j)]>
  (<["nodes" := PInt (j_nodes j)]> (<["ppn" := PInt (j_ppn j)]>
  (<["walltime" := PStr (j_walltime j)]> (<["pmem" := opt_val (j_pmem j)]>
  (<["queue" := PStr (j_queue j)]> (<["exetime" := opt_val (j_exetime j)]>
  (<["message" := PStr (j_message j)]> (<["email" := opt_val (j_email j)]>
  (<["priority" := PStr (j_priority j)]> (<["command" := PStr (j_command j)]>
  (<["auto" := PBool (j_auto j)]> ∅)))))))))))).

(** The call [Job(name=..., ..., auto=...)] for these fields. *)
Definition to_args (j : jobspec) : init_args :=
  InitArgs (PStr (j_name j)) (opt_val (j_account j)) (PInt (j_nodes j))
    (PInt (j_ppn j)) (PStr (j_walltime j)) (opt_val (j_pmem j))
    (PStr (j_queue j)) (opt_val (j_exetime j)) (PStr (j_message j))
    (opt_val (j_email j)) (PStr (j_priority j)) (PStr (j_command j))
    (PBool (j_auto j)) PNone.

(** The call [Job(qsubstr=text)]. *)
Definition from_script (text : string) : init_args :=
  InitArgs (PStr "STDIN") PNone PNone PNone PNone PNone PNone PNone
           (PStr "a") PNone (PStr "0") PNone (PBool false) (PStr text).

Definition wf_job (j : jobspec) : bool :=
  token (j_name j) && opt_token (j_account j) && token (j_walltime j) &&
  opt_token (j_pmem j) && token (j_queue j) && opt_token (j_exetime j) &&
  token (j_message j) && opt_token (j_email j) && token (j_priority j).

(** What [Job.read] makes of the script of [j]: the command has
    gained the newline that [qsub_string] puts after it, and the
    [-M], [-m] and [-p] lines have not been read. *)
Definition reread (j : jobspec) : jobspec :=
  JobSpec (j_name j) (j_account j) (j_nodes j) (j_ppn j) (j_walltime j)
    (j_pmem j) (j_queue j) (j_exetime j) "a" None "0"
    (j_command j ++ nl) (j_auto j).

(** ** The script of a job *)

Definition opt_line (pre : string) (o : option string) : list string :=
  match o with Some s => [pre ++ s ++ nl] | None => [] end.

(** The lines that [qsub_string] writes in front of the anchor. *)
Definition header (j : jobspec) : list string :=
  ["#!/bin/sh" ++ nl; "#PBS -S /bin/sh" ++ nl; "#PBS -N " ++ j_name j ++ nl] ++
  opt_line "#PBS -a " (j_exetime j) ++
  opt_line "#PBS -A " (j_account j) ++
  ["#PBS -l walltime=" ++ j_walltime j ++ nl;
   "#PBS -l nodes=" ++ py_str_of_Z (j_nodes j) ++ ":ppn=" ++
     py_str_of_Z (j_ppn j) ++ nl] ++
  opt_line "#PBS -l pmem=" (j_pmem j) ++
  ["#PBS -l qos=" ++ j_queue j ++ nl; "#PBS -q " ++ j_queue j ++ nl] ++
  opt_line "#PBS -M " (j_email j) ++
  opt_line "#PBS -m " (if j_email j is Some _ then Some (j_message j) else None) ++
  ["#PBS -V" ++ nl; "#PBS -p " ++ j_priority j ++ nl; nl;
   "#auto=" ++ py_format (PBool (j_auto j)) ++ nl; nl;
   echo_line ++ nl; "cat $PBS_NODEFILE" ++ nl; nl].

Definition anchor_line : string := "cd $PBS_O_WORKDIR" ++ nl.

Definition script (j : jobspec) : string :=
  join (header j) ++ anchor_line ++ j_command j ++ nl.

(** The loop reads the lines [ls], each ended by its newline, from
    [st] to [st'], and finds no anchor among them. *)
Inductive lines_read : list string -> pstate -> pstate -> Prop :=
| lines_read_nil st : lines_read [] st st
| lines_read_cons v ls st st1 st2 :
    string_forall not_nl v = true ->
    line_reads (v ++ nl) st st1 ->
    lines_read ls st1 st2 ->
    lines_read ((v ++ nl) :: ls) st st2.

(** The state of the loop in front of the anchor of [script j]. *)
Definition header_state (j : jobspec) (st : pstate) : pstate :=
  let st := found_required "name" (j_name j) st in
  let st := if j_exetime j is Some s then found_optional "exetime" s st else st in
  let st := if j_account j is Some s then found_optional "account" s st else st in
  let st := found_required "walltime" (j_walltime j) st in
  let st := set_required "ppn" (PInt (j_ppn j))
              (set_required "nodes" (PInt (j_nodes j))
                 (set_attr "ppn" (PInt (j_ppn j))
                    (set_attr "nodes" (PInt (j_nodes j)) st))) in
  let st := if j_pmem j is Some s then found_optional "pmem" s st else st in
  let st := found_required "queue" (j_queue j) st in
  set_optional "auto" (PBool (j_auto j)) (set_attr "auto" (PBool (j_auto j)) st).

(** The optional fields are at the defaults of the constructor. *)
Definition required_only (j : jobspec) : bool :=
  bool_decide (j_account j = None) && bool_decide (j_pmem j = None) &&
  bool_decide (j_exetime j = None) && bool_decide (j_email j = None) &&
  bool_decide (j_message j = "a") && bool_decide (j_priority j = "0") &&
  bool_decide (j_auto j = false).

(** The notification and priority fields are at their defaults. *)
Definition quiet (j : jobspec) : bool :=
  bool_decide (j_email j = None) && bool_decide (j_message j = "a") &&
  bool_decide (j_priority j = "0").

(** The example job of the documentation. *)
Definition job1 : jobspec :=
  JobSpec "job1" None 2 16 "10:00:00" None "flux" None "a" None "0"
          "echo hi" false.


(** A job with every optional resource set, resubmitted automatically. *)
Definition job3 : jobspec :=
  JobSpec "job1" (Some "prismsproject_flux") 2 16 "10:00:00" (Some "3800mb")
          "flux" (Some "201612312359.59") "a" None "0" "echo hi" true.

(** A job that sends mail and has a priority of its own. *)
Definition job5 : jobspec :=
  JobSpec "job1" None 2 16 "10:00:00" None "flux" None "abe"
          (Some "jdoe@umich.edu") "-200" "echo hi" false.

(** A job that asks for no node and a negative number of processors. *)
Definition job6 : jobspec :=
  JobSpec "job1" None 0 (-3) "10:00:00" None "flux" None "a" None "0"
          "echo hi" false.

(** The call [Job(nodes=..., ppn=...)]. *)
Definition with_counts (nodes ppn : pyval) : init_args :=
  InitArgs (PStr "STDIN") PNone nodes ppn PNone PNone PNone PNone
           (PStr "a") PNone (PStr "0") PNone (PBool false) PNone.




(** The assignment of the [auto=] block. *)
Definition set_auto (b : bool) (st : pstate) : pstate :=
  set_optional "auto" (PBool b) (set_attr "auto" (PBool b) st).


(** The text is empty or ends with a newline. *)
Fixpoint ends_with_nl (s : string) : bool :=
  match s with
  | "" => true
  | String c s' =>
      match s' with
      | "" => Ascii.eqb c nl_char
      | _ => ends_with_nl s'
      end
  end.

(** The last of the lines is the first anchor line among them. *)
Fixpoint anchor_is_last (ls : list string) : bool :=
  match ls with
  | [] => false
  | l :: ls' =>
      match ls' with
      | [] => is_anchor l
      | _ => negb (is_anchor l) && anchor_is_last ls'
      end
  end.

(** The text stops right after its first anchor line. *)
Definition anchor_last (head : string) : bool :=
  ends_with_nl head && anchor_is_last (split_lines head).

(** The example job with a payload that looks like a directive. *)
Definition job4 : jobspec :=
  JobSpec "job1" None 2 16 "10:00:00" None "flux" None "a" None "0"
          ("#PBS -N other" ++ nl ++ "echo hi") false.

(** ** Directives *)

(** The directives that [Job.read] recognises in front of the anchor,
    with the value they carry. *)
Inductive directive : Type :=
| DName (v : string)
| DAccount (v : string)
| DExetime (v : string)
| DWalltime (v : string)
| DNodes (n p : Z)
| DPmem (v : string)
| DQueue (v : string).

(** The line of a directive, with blanks [w1] after [#PBS] and [w2]
    after the flag; [qsub_string] writes one space for each. *)
Definition directive_line (w1 w2 : string) (d : directive) : string :=
  match d with
  | DName v => "#PBS" ++ w1 ++ "-N" ++ w2 ++ v ++ nl
  | DAccount v => "#PBS" ++ w1 ++ "-A" ++ w2 ++ v ++ nl
  | DExetime v => "#PBS" ++ w1 ++ "-a" ++ w2 ++ v ++ nl
  | DWalltime v => "#PBS" ++ w1 ++ "-l" ++ w2 ++ "walltime=" ++ v ++ nl
  | DNodes n p =>
      "#PBS" ++ w1 ++ "-l" ++ w2 ++ "nodes=" ++ py_str_of_Z n ++ ":ppn=" ++
      py_str_of_Z p ++ nl
  | DPmem v => "#PBS" ++ w1 ++ "-l" ++ w2 ++ "pmem=" ++ v ++ nl
  | DQueue v => "#PBS" ++ w1 ++ "-q" ++ w2 ++ v ++ nl
  end.

(** What the loop body does on the line of a directive. *)
Definition directive_effect (d : directive) (st : pstate) : pstate :=
  match d with
  | DName v => found_required "name" v st
  | DAccount v => found_optional "account" v st
  | DExetime v => found_optional "exetime" v st
  | DWalltime v => found_required "walltime" v st
  | DNodes n p =>
      set_required "ppn" (PInt p) (set_required "nodes" (PInt n)
        (set_attr "ppn" (PInt p) (set_attr "nodes" (PInt n) st)))
  | DPmem v => found_optional "pmem" v st
  | DQueue v => found_required "queue" v st
  end.

(** The field a directive is about ([DNodes] also sets [ppn], which
    no other directive does). *)
Definition directive_field (d : directive) : string :=
  match d with
  | DName _ => "name"
  | DAccount _ => "account"
  | DExetime _ => "exetime"
  | DWalltime _ => "walltime"
  | DNodes _ _ => "nodes"
  | DPmem _ => "pmem"
  | DQueue _ => "queue"
  end.

Definition wf_directive (d : directive) : bool :=
  match d with
  | DName v | DAccount v | DExetime v | DWalltime v | DPmem v | DQueue v =>
      token v
  | DNodes _ _ => true
  end.

(** One blank at least, none of them a newline. *)
Definition blanks (w : string) : bool :=
  string_forall is_blank w && negb (String.eqb w "").

(** A directive with the blanks of its line. *)
Definition item : Type := string * string * directive.

Definition item_line (it : item) : string :=
  directive_line it.1.1 it.1.2 it.2.

Definition wf_item (it : item) : bool :=
  blanks it.1.1 && blanks it.1.2 && wf_directive it.2.

Definition item_field (it : item) : string := directive_field it.2.

(** The state after the directives [its], read in this order. *)
Definition items_effect (its : list item) (st : pstate) : pstate :=
  fold_left (fun st it => directive_effect it.2 st) its st.

(** ** The attributes of a parsed job *)

(** What an attribute holds once it is set by [Job.read]. *)
Inductive fclass : Type := CStr | COptStr | CInt | CBool.

Definition has_class (c : fclass) (o : option pyval) : Prop :=
  match c with
  | CStr => exists s, o = Some (PStr s)
  | COptStr => o = Some PNone \/ exists s, o = Some (PStr s)
  | CInt => exists z, o = Some (PInt z)
  | CBool => exists b, o = Some (PBool b)
  end.

(** The attributes [Job.read] is in charge of: their class, and
    whether the check after the loop requires them. *)
Definition field_classes : list (string * fclass * bool) :=
  [("name", CStr, true); ("walltime", CStr, true); ("nodes", CInt, true);
   ("ppn", CInt, true); ("queue", CStr, true); ("command", CStr, true);
   ("account", COptStr, false); ("pmem", COptStr, false);
   ("exetime", COptStr, false); ("email", COptStr, false);
   ("message", CStr, false); ("priority", CStr, false); ("auto", CBool, false)].

(** An optional attribute is set; a required one is set unless it is
    still marked as not found. *)
Definition field_ok (st : pstate) (f : string * fclass * bool) : Prop :=
  let '(k, c, req) := f in
  if req then required st !! k = Some not_found \/ has_class c (self st !! k)
  else has_class c (self st !! k).

Definition parse_inv (st : pstate) : Prop := Forall (field_ok st) field_classes.

(** ** The other methods of [Job] *)

(** *** [Job.script] *)

(** The files that [Job.script] can write, by name, with their
    content.  [open(filename, 'w')] is taken to succeed: it empties
    the file, or creates it. *)
Abbreviation files := (gmap string string).

(** [self.script(filename)]: what the call does to the files and how
    it ends.  The file is opened before [qsub_string] runs. *)
Definition script_file (self : obj) (filename : string) (fs : files)
    : outcome unit * files :=
  let fs := <[filename := ""]> fs in
  match qsub_string self with
  | Returned text => (Returned tt, <[filename := text]> fs)
  | Raised e out => (Raised e out, fs)
  end.

(** The default of [filename]. *)
Definition default_filename : string := "submit.sh".

(** *** [Job.submit] *)

(** The names bound at the top level of the module: the imports and
    the class. *)
Definition module_globals : list string := module_imports ++ ["Job"].

(** An exception that leaves [submit]: one that the code of this
    module raises, or one raised by the code it calls ([pbs.misc],
    [pbs.jobdb], [os]), of which only the class name is known here. *)
Inductive failure : Type :=
| Own (e : exn)
| Foreign (class : string).

(** A call that may change the world outside the object (the
    scheduler, the database): its result or the exception it raises,
    and the world after it. *)
Definition call (W A : Type) : Type := W -> (A + failure) * W.

#[global] Instance call_bind (W : Type) : MBind (call W) := fun A B f m w =>
  match m w with
  | (inl a, w') => f a w'
  | (inr e, w') => (inr e, w')
  end.

#[global] Instance call_ret (W : Type) : MRet (call W) := fun A a w => (inl a, w).

(** A computation of the module itself, which leaves the world as it
    is.  [submit] prints nothing. *)
Definition own {W A : Type} (x : outcome A) : call W A := fun w =>
  match x with
  | Returned a => (inl a, w)
  | Raised e _ => (inr (Own e), w)
  end.

(** The keyword arguments of [jobdb.job_status_dict]. *)
Record status_args : Type := StatusArgs {
  s_jobid : pyval;
  s_jobname : pyval;
  s_rundir : pyval;
  s_jobstatus : pyval;
  s_auto : pyval;
  s_qsubstr : pyval;
  s_walltime : pyval;
  s_nodes : pyval;
  s_procs : pyval
}.

(** The functions of [pbs.misc], [pbs.jobdb] and [os] that [submit]
    calls; their code is not part of this module.  [D] is a database
    handle and [S] a status dictionary. *)
Record externals (W D S : Type) : Type := Externals {
  misc_submit : string -> call W pyval;
  misc_seconds : pyval -> call W pyval;
  os_getcwd : call W pyval;
  jobdb_JobDB : pyval -> call W D;
  jobdb_job_status_dict : status_args -> call W S;
  db_add : D -> S -> call W unit;
  db_close : D -> call W unit
}.

Arguments misc_submit {W D S} _ _ _.
Arguments misc_seconds {W D S} _ _ _.
Arguments os_getcwd {W D S} _ _.
Arguments jobdb_JobDB {W D S} _ _ _.
Arguments jobdb_job_status_dict {W D S} _ _ _.
Arguments db_add {W D S} _ _ _ _.
Arguments db_close {W D S} _ _ _.

(** [s * n] on a string. *)
Fixpoint repeat_string (n : nat) (s : string) : string :=
  match n with
  | O => ""
  | S n' => s ++ repeat_string n' s
  end.

Definition int_of_bool (b : bool) : Z := if b then 1%Z else 0%Z.

(** [a * b] on the values of the model. *)
Definition py_mul (a b : pyval) : outcome pyval :=
  match a, b with
  | PInt x, PInt y => Returned (PInt (x * y))
  | PInt x, PBool y => Returned (PInt (x * int_of_bool y))
  | PBool x, PInt y => Returned (PInt (int_of_bool x * y))
  | PBool x, PBool y => Returned (PInt (int_of_bool x * int_of_bool y))
  | PStr s, PInt n | PInt n, PStr s => Returned (PStr (repeat_string (Z.to_nat n) s))
  | PStr s, PBool n | PBool n, PStr s =>
      Returned (PStr (repeat_string (Z.to_nat (int_of_bool n)) s))
  | _, _ => Raised TypeError []
  end.

(** What [except PBSError as e: raise e] makes of an exception raised
    in the [try] block: the clause looks the global [PBSError] up
    first, and the module binds no such name. *)
Definition except_PBSError (e : failure) : failure :=
  if bool_decide ("PBSError" ∈ module_globals) then e
  else Own (NameError "PBSError").

Definition try_except_PBSError {W A : Type} (body : call W A) : call W A := fun w =>
  match body w with
  | (inl a, w') => (inl a, w')
  | (inr e, w') => (inr (except_PBSError e), w')
  end.

(** The [if add:] block of [submit]; the arguments of
    [job_status_dict] are evaluated from left to right. *)
Definition add_status {W D S : Type} (ext : externals W D S) (dbpath : pyval)
    (self : obj) : call W unit :=
  db ← jobdb_JobDB ext dbpath;
  jobid ← own (getattr self "jobID");
  jobname ← own (getattr self "name");
  rundir ← os_getcwd ext;
  auto ← own (getattr self "auto");
  qsubstr ← own (qsub_string self);
  walltime ← own (getattr self "walltime");
  seconds ← misc_seconds ext walltime;
  nodes ← own (getattr self "nodes");
  nodes' ← own (getattr self "nodes");
  ppn ← own (getattr self "ppn");
  procs ← own (py_mul nodes' ppn);
  status ← jobdb_job_status_dict ext
    (StatusArgs jobid jobname rundir (PStr "?") auto (PStr qsubstr) seconds nodes procs);
  _ ← db_add ext db status;
  db_close ext db.

(** [self.submit(add, dbpath)]: how the call ends, the object and the
    world after it. *)
Definition submit {W D S : Type} (ext : externals W D S) (add : bool)
    (dbpath : pyval) (self : obj) (w : W) : (unit + failure) * obj * W :=
  match try_except_PBSError
          (text ← own (qsub_string self); misc_submit ext text) w with
  | (inr e, w) => (inr e, self, w)
  | (inl jobid, w) =>
      let self := <["jobID" := jobid]> self in
      if add then
        let '(r, w) := add_status ext dbpath self w in (r, self, w)
      else (inl tt, self, w)
  end.

(** A scheduler that refuses every job, with a database that is
    never reached: the world counts the calls made. *)
Definition refusing : externals nat unit unit :=
  Externals nat unit unit
    (fun _ w => (inr (Foreign "PBSError"), S w))
    (fun _ w => (inl (PInt 36000), S w))
    (fun w => (inl (PStr "/home/jdoe"), S w))
    (fun _ w => (inl tt, S w))
    (fun _ w => (inl tt, S w))
    (fun _ _ w => (inl tt, S w))
    (fun _ w => (inl tt, S w)).

(** A scheduler that gives every job the same identifier, with a
    database that keeps the arguments of the status records. *)
Definition accepting : externals (list status_args) unit status_args :=
  Externals (list status_args) unit status_args
    (fun _ w => (inl (PStr "123.host"), w))
    (fun _ w => (inl (PInt 36000), w))
    (fun w => (inl (PStr "/home/jdoe"), w))
    (fun _ w => (inl tt, w))
    (fun a w => (inl a, w))
    (fun _ s w => (inl tt, s :: w))
    (fun _ w => (inl tt, w)).

(** ** Lines, blanks and fields *)

(** The number of characters of [s] that [\s] matches. *)
Fixpoint count_spaces (s : string) : nat :=
  match s with
  | "" => 0
  | String c s' => if is_space c then S (count_spaces s') else count_spaces s'
  end.

(** A lower bound on the characters matched by [\s] in a text that
    [r] matches. *)
Fixpoint spaces_needed (r : regex) : nat :=
  match r with
  | Lit p => count_spaces p
  | Chr Space => 1
  | Chr _ => 0
  | Seq r1 r2 => spaces_needed r1 + spaces_needed r2
  | Alt r1 r2 => Nat.min (spaces_needed r1) (spaces_needed r2)
  | Star _ => 0
  | Group _ r1 => spaces_needed r1
  end.


(** The attributes that a directive sets, with their values. *)
Definition directive_values (d : directive) : list (string * pyval) :=
  match d with
  | DName v => [("name", PStr v)]
  | DAccount v => [("account", PStr v)]
  | DExetime v => [("exetime", PStr v)]
  | DWalltime v => [("walltime", PStr v)]
  | DNodes n p => [("nodes", PInt n); ("ppn", PInt p)]
  | DPmem v => [("pmem", PStr v)]
  | DQueue v => [("queue", PStr v)]
  end.

(** The job that [Job(nodes=n, ppn=p)] is written as: the word None
    stands where the constructor left [None]. *)
Definition job_unset (n p : Z) : jobspec :=
  JobSpec "STDIN" None n p "None" None "None" None "a" None "0" "None" false.

(** [p] occurs in [s]. *)
Fixpoint contains (p s : string) : bool :=
  match strip_prefix p s with
  | Some _ => true
  | None =>
      match s with
      | String _ s' => contains p s'
      | "" => false
      end
  end.

(** The state with [F] applied to the object being filled. *)
Definition lift (F : obj -> obj) (st : pstate) : pstate :=
  PState (F (self st)) (optional st) (required st).

Definition outcome_map {A B : Type} (f : A -> B) (x : outcome A) : outcome B :=
  match x with
  | Returned a => Returned (f a)
  | Raised e out => Raised e out
  end.

(** The line does not start with a dash. *)
Definition no_dash (l : string) : bool :=
  match l with
  | String c _ => negb (Ascii.eqb c "-")
  | "" => true
  end.

(** The attributes that the loop of [Job.read] may set on any line;
    [email], [message] and [priority] are set by lines that match
    at their start only. *)
Definition keys_main : list string :=
  ["name"; "account"; "exetime"; "walltime"; "nodes"; "ppn"; "pmem"; "queue";
   "auto"; "command"].

Definition mail_ok (K : string -> Prop) (l : string) : Prop :=
  (re_match re_M l <> None -> K "email") /\
  (re_match re_m l <> None -> K "message") /\
  (re_match re_p l <> None -> K "priority").

(** The three attributes at the defaults that [Job.read] starts from. *)
Definition mail_defaults (o : obj) : obj :=
  <["email" := PNone]> (<["message" := PStr "a"]> (<["priority" := PStr "0"]> o)).

Definition field_names : list string := (λ f, f.1.1) <$> field_classes.

(** ** Directives with more blanks, and texts with a payload *)

(** The line of the node and processor counts with blanks around the
    two numbers as well. *)
Definition counts_line (w1 w2 wa wb wc wd : string) (n p : Z) : string :=
  "#PBS" ++ w1 ++ "-l" ++ w2 ++ "nodes=" ++ wa ++ py_str_of_Z n ++ wb ++
  ":ppn=" ++ wc ++ py_str_of_Z p ++ wd ++ nl.

(** The loop reads the line [l] as the directive [d], whatever the
    state, and goes on. *)
Definition reads_as (l : string) (d : directive) : Prop :=
  forall st, line_reads l st (directive_effect d st).

(** The state after the directives [ds], in this order. *)
Definition directives_effect (ds : list directive) (st : pstate) : pstate :=
  fold_left (fun st d => directive_effect d st) ds st.

(** The lines up to the first anchor line, that line included. *)
Fixpoint upto_anchor (ls : list string) : list string :=
  match ls with
  | [] => []
  | l :: ls' => if is_anchor l then [l] else l :: upto_anchor ls'
  end.

(** The lines after the first anchor line. *)
Fixpoint after_anchor (ls : list string) : list string :=
  match ls with
  | [] => []
  | l :: ls' => if is_anchor l then ls' else after_anchor ls'
  end.

(** The text up to the first anchor line, as lines, and the text
    after that line. *)
Definition head_lines (text : string) : list string :=
  upto_anchor (split_lines text).

Definition payload_of (text : string) : string :=
  join (after_anchor (split_lines text)).

(** A head of four directives and the anchor line. *)
Definition head1 : string :=
  "#PBS -N job1" ++ nl ++ "#PBS -l walltime=10:00:00" ++ nl ++
  "#PBS -l nodes=2:ppn=16" ++ nl ++ "#PBS -q flux" ++ nl ++
  "cd $PBS_O_WORKDIR" ++ nl.

(** A text with an anchor line behind an [auto=] comment that is not
    understood. *)
Definition stopped_text : string :=
  "#auto=maybe" ++ nl ++ "cd $PBS_O_WORKDIR" ++ nl ++ "echo hi" ++ nl.

(** A script whose payload has a line that looks like a directive. *)
Definition masked_text : string :=
  head1 ++ "#PBS -N other" ++ nl ++ "echo hi" ++ nl.

(** * Properties *)

(** ** Strings *)

#[local] Arguments String.append !s1 s2 / : simpl nomatch.

Lemma append_assoc (a b c : string) : (a ++ b) ++ c = a ++ (b ++ c).
Proof. induction a as [|x a IH]; simpl; [done | by rewrite IH]. Qed.

Lemma length_append (a b : string) :
  String.length (a ++ b) = (String.length a + String.length b)%nat.
Proof. induction a as [|x a IH]; simpl; [done | by rewrite IH]. Qed.

Lemma string_forall_app p a b :
  string_forall p (a ++ b) = string_forall p a && string_forall p b.
Proof.
  induction a as [|x a IH]; simpl; [done |].
  by rewrite IH, andb_assoc.
Qed.

Lemma string_mem_app c a b :
  string_mem c (a ++ b) = string_mem c a || string_mem c b.
Proof.
  induction a as [|x a IH]; simpl; [done |].
  by rewrite IH, orb_assoc.
Qed.

Lemma string_forall_mem p c s :
  string_forall p s = true -> p c = false -> string_mem c s = false.
Proof.
  intros Hs Hc. induction s as [|x s IH]; simpl in *; [done |].
  apply andb_prop in Hs as [Hx Hs]. rewrite (IH Hs), orb_false_r.
  destruct (Ascii.eqb_spec c x) as [->|]; [congruence | done].
Qed.

Lemma take_str_app (a b : string) : take_str (String.length a) (a ++ b) = a.
Proof. induction a as [|x a IH]; simpl; [by destruct b | by rewrite IH]. Qed.

Lemma consumed_app (a b : string) : consumed (a ++ b) b = a.
Proof.
  unfold consumed. rewrite length_append.
  replace (String.length a + String.length b - String.length b)%nat
    with (String.length a) by lia.
  apply take_str_app.
Qed.

Lemma strip_prefix_app (p s : string) : strip_prefix p (p ++ s) = Some s.
Proof.
  induction p as [|x p IH]; simpl; [done |]. by rewrite Ascii.eqb_refl.
Qed.

Lemma strip_prefix_mem p s r c :
  strip_prefix p s = Some r -> string_mem c p = true -> string_mem c s = true.
Proof.
  revert s. induction p as [|x p IH]; intros s Hp Hc; simpl in *; [done |].
  destruct s as [|y s]; [done |].
  destruct (Ascii.eqb_spec x y) as [->|]; [| done]. simpl.
  apply orb_prop in Hc as [Hc|Hc]; [by rewrite Hc |].
  by rewrite (IH _ Hp Hc), orb_true_r.
Qed.

(** After a prefix of a line without blanks, what is left is again
    such a line, or nothing. *)
Lemma strip_prefix_line p v r :
  string_forall not_space v = true ->
  strip_prefix p (v ++ nl) = Some r ->
  r = "" \/ exists v', r = v' ++ nl /\ string_forall not_space v' = true.
Proof.
  revert v. induction p as [|x p IH]; intros v Hv Hp; simpl in *.
  - right. exists v. by inversion Hp.
  - destruct v as [|y v]; simpl in *.
    + destruct (Ascii.eqb x nl_char); [| done].
      destruct p; simpl in Hp; [left; by inversion Hp | done].
    + apply andb_prop in Hv as [_ Hv].
      destruct (Ascii.eqb x y); [by apply (IH v) | done].
Qed.

(** ** The matcher *)

Lemma rmatch_lit p s g k :
  rmatch (Lit p) s g k =
  match strip_prefix p s with Some s' => k s' g | None => None end.
Proof. reflexivity. Qed.

Lemma rmatch_chr C s g k :
  rmatch (Chr C) s g k =
  match s with
  | String c s' => if cls_mem C c then k s' g else None
  | "" => None
  end.
Proof. reflexivity. Qed.

Lemma rmatch_seq r1 r2 s g k :
  rmatch (r1 +++ r2) s g k = rmatch r1 s g (fun s' g' => rmatch r2 s' g' k).
Proof. reflexivity. Qed.

Lemma rmatch_group n r s g k :
  rmatch (Group n r) s g k =
  rmatch r s g (fun s' g' => k s' ((n, consumed s s') :: g')).
Proof. reflexivity. Qed.

Lemma rmatch_star_nil r g k : rmatch (Star r) "" g k = k "" g.
Proof. reflexivity. Qed.

Lemma rmatch_star_chr C c s g k :
  rmatch (Star (Chr C)) (String c s) g k =
  if cls_mem C c then
    match rmatch (Star (Chr C)) s g k with
    | Some m => Some m
    | None => k (String c s) g
    end
  else k (String c s) g.
Proof.
  simpl. destruct (cls_mem C c); [| done].
  by rewrite (proj2 (Nat.ltb_lt _ _)) by lia.
Qed.


#[local] Arguments rmatch : simpl never.

(** A star of a class stops at the first character outside it. *)
Lemma rmatch_star_stop C c s g k :
  cls_mem C c = false ->
  rmatch (Star (Chr C)) (String c s) g k = k (String c s) g.
Proof. intros H. by rewrite rmatch_star_chr, H. Qed.

(** The greedy star goes as far as it can when what follows accepts
    that. *)
Lemma rmatch_star_prefix C a b g k m :
  string_forall (cls_mem C) a = true ->
  rmatch (Star (Chr C)) b g k = Some m ->
  rmatch (Star (Chr C)) (a ++ b) g k = Some m.
Proof.
  intros Ha Hb. induction a as [|c a IH]; simpl in *; [done |].
  apply andb_prop in Ha as [Hc Ha].
  by rewrite rmatch_star_chr, Hc, (IH Ha).
Qed.

(** Where what follows needs a character that the text does not
    have, the star fails. *)
Lemma rmatch_star_none C x s g k :
  (forall s' g', string_mem x s' = false -> k s' g' = None) ->
  string_mem x s = false ->
  rmatch (Star (Chr C)) s g k = None.
Proof.
  intros Hk. induction s as [|c s IH]; intros Hs.
  - rewrite rmatch_star_nil. by apply Hk.
  - pose proof Hs as Hs'. simpl in Hs'. apply orb_false_elim in Hs' as [_ Hs'].
    rewrite rmatch_star_chr, (IH Hs'), (Hk _ _ Hs). by destruct (cls_mem C c).
Qed.

(** [.*] on a line: the rest of the line, when what follows accepts
    the newline. *)
Lemma rmatch_dots_line v g k m :
  string_forall not_nl v = true ->
  k nl g = Some m ->
  rmatch (Star (Chr Dot)) (v ++ nl) g k = Some m.
Proof.
  intros Hv Hk. apply rmatch_star_prefix; [done |].
  unfold nl. by rewrite rmatch_star_stop.
Qed.

(** [<.*>\s] at the end of a pattern, on a line. *)
Lemma rmatch_rest_of_line n v g :
  string_forall not_nl v = true ->
  rmatch (Group n (Star (Chr Dot)) +++ Chr Space) (v ++ nl) g
    (fun _ g' => Some g') = Some ((n, v) :: g).
Proof.
  intros Hv. rewrite rmatch_seq, rmatch_group.
  apply rmatch_dots_line; [done |].
  unfold nl at 1. rewrite rmatch_chr. simpl. by rewrite consumed_app.
Qed.

Lemma rmatch_rest_nil n g k :
  rmatch (Group n (Star (Chr Dot)) +++ Chr Space) "" g k = None.
Proof. reflexivity. Qed.

Lemma not_space_not_nl v :
  string_forall not_space v = true -> string_forall not_nl v = true.
Proof.
  induction v as [|c v IH]; simpl; [done |]. intros [Hc Hv]%andb_prop.
  rewrite (IH Hv), andb_true_r. unfold not_space, not_nl in *.
  destruct (Ascii.eqb_spec c nl_char) as [->|]; [done | done].
Qed.

(** [\s*] in front of a line without blanks takes nothing, unless the
    line is empty and what follows accepts the end of the text. *)
Lemma rmatch_spaces_line v g k :
  string_forall not_space v = true ->
  k "" g = None ->
  rmatch (Star (Chr Space)) (v ++ nl) g k = k (v ++ nl) g.
Proof.
  intros Hv Hk. destruct v as [|c v]; simpl in *.
  - unfold nl. rewrite rmatch_star_chr, rmatch_star_nil, Hk. done.
  - apply andb_prop in Hv as [Hc _]. apply rmatch_star_stop.
    simpl. unfold not_space in Hc. by destruct (is_space c).
Qed.

(** [\s*] takes all the blanks in front of such a line. *)
Lemma rmatch_spaces_blanks w v g k m :
  string_forall is_space w = true ->
  string_forall not_space v = true ->
  k "" g = None ->
  k (v ++ nl) g = Some m ->
  rmatch (Star (Chr Space)) (w ++ v ++ nl) g k = Some m.
Proof.
  intros Hw Hv Hk0 Hk. apply rmatch_star_prefix; [done |].
  by rewrite rmatch_spaces_line.
Qed.

(** ** [re.match] and [re.search] on a line *)

Lemma re_search_here r s m : re_match r s = Some m -> re_search r s = Some m.
Proof. intros H. destruct s; simpl; by rewrite H. Qed.

Lemma re_search_next r c s :
  re_match r (String c s) = None -> re_search r (String c s) = re_search r s.
Proof. intros H. simpl. by rewrite H. Qed.

Lemma re_search_nil r : re_search r "" = re_match r "".
Proof. simpl. by destruct (re_match r ""). Qed.

#[local] Arguments re_search : simpl never.
#[local] Arguments re_match : simpl never.

Lemma re_match_lit_none p r s :
  strip_prefix p s = None -> re_match (Lit p +++ r) s = None.
Proof. intros H. unfold re_match. by rewrite rmatch_seq, rmatch_lit, H. Qed.

(** A pattern that starts with a literal does not match a text that
    lacks one of the literal's characters. *)
Lemma re_search_absent c p r s :
  string_mem c p = true -> string_mem c s = false ->
  re_search (Lit p +++ r) s = None.
Proof.
  intros Hp. induction s as [|x s IH]; intros Hs.
  - rewrite re_search_nil, re_match_lit_none; [done |]. by destruct p.
  - rewrite re_search_next.
    + apply IH. simpl in Hs. by apply orb_false_elim in Hs as [_ ?].
    + apply re_match_lit_none.
      destruct (strip_prefix p (String x s)) eqn:E; [| done].
      by rewrite (strip_prefix_mem _ _ _ _ E Hp) in Hs.
Qed.

(** A literal followed by [\s+] and by something that needs more text
    does not match inside a line without blanks. *)
Lemma re_match_two_blanks p r v :
  (forall g k, rmatch r "" g k = None) ->
  string_forall not_space v = true ->
  re_match (Lit p +++ Plus (Chr Space) +++ r) (v ++ nl) = None.
Proof.
  intros Hr Hv. unfold re_match, Plus. rewrite rmatch_seq, rmatch_lit.
  destruct (strip_prefix p (v ++ nl)) as [s|] eqn:E; [| done].
  apply strip_prefix_line in E as [->|(v' & -> & Hv')]; [| | done].
  { by rewrite !rmatch_seq, rmatch_chr. }
  rewrite !rmatch_seq, rmatch_chr.
  destruct v' as [|c v']; simpl in *.
  - rewrite rmatch_star_nil. apply Hr.
  - apply andb_prop in Hv' as [Hc _]. unfold not_space in Hc.
    by destruct (is_space c).
Qed.

Lemma re_search_two_blanks p r v :
  p <> "" ->
  (forall g k, rmatch r "" g k = None) ->
  string_forall not_space v = true ->
  re_search (Lit p +++ Plus (Chr Space) +++ r) (v ++ nl) = None.
Proof.
  intros Hp Hr. induction v as [|c v IH]; intros Hv.
  - change ("" ++ nl) with (String nl_char "").
    rewrite re_search_next by apply (re_match_two_blanks p r "" Hr Hv).
    rewrite re_search_nil, re_match_lit_none; [done | by destruct p].
  - simpl. rewrite re_search_next by apply (re_match_two_blanks p r _ Hr Hv).
    apply IH. simpl in Hv. by apply andb_prop in Hv as [_ ?].
Qed.

(** The flag patterns on their own directive. *)
Lemma re_match_flag f w v :
  w <> "" ->
  string_forall is_space w = true ->
  string_forall not_space v = true ->
  re_match (flag f) (f ++ w ++ v ++ nl) = Some [(1, v)].
Proof.
  intros Hw Hws Hv. unfold re_match, flag, Plus.
  rewrite rmatch_seq, rmatch_lit, strip_prefix_app.
  destruct w as [|c w]; [done |]. simpl in Hws. apply andb_prop in Hws as [Hc Hws].
  rewrite !rmatch_seq, rmatch_chr. simpl. rewrite Hc.
  apply rmatch_spaces_blanks; [done | done | apply rmatch_rest_nil |].
  apply rmatch_rest_of_line. by apply not_space_not_nl.
Qed.

Lemma re_match_resource f v :
  string_forall not_nl v = true ->
  re_match (resource f) (f ++ v ++ nl) = Some [(1, v)].
Proof.
  intros Hv. unfold re_match, resource.
  rewrite rmatch_seq, rmatch_lit, strip_prefix_app.
  by apply rmatch_rest_of_line.
Qed.

(** ** Numerals *)

Lemma string_forall_impl (p q : ascii -> bool) s :
  (forall c, p c = true -> q c = true) ->
  string_forall p s = true -> string_forall q s = true.
Proof.
  intros Hpq. induction s as [|c s IH]; simpl; [done |].
  intros [Hc Hs]%andb_prop. by rewrite (Hpq _ Hc), (IH Hs).
Qed.

Lemma sign_or_digit_cases c :
  sign_or_digit c = true ->
  not_space c = true /\ not_eq_sign c = true /\ Ascii.eqb c ":" = false /\
  Ascii.eqb c "+" = false.
Proof.
  unfold sign_or_digit. simpl. intros H.
  repeat (apply orb_prop in H as [H|H];
          [apply Ascii.eqb_eq in H; subst c; done |]). done.
Qed.

Lemma lstrip_id s : string_forall not_space s = true -> lstrip s = s.
Proof.
  destruct s as [|c s]; simpl; [done |]. intros [Hc _]%andb_prop.
  unfold not_space in Hc. by destruct (is_space c).
Qed.

Lemma rstrip_id s : string_forall not_space s = true -> rstrip s = s.
Proof.
  induction s as [|c s IH]; simpl; [done |]. intros [Hc Hs]%andb_prop.
  rewrite (IH Hs). unfold not_space in Hc.
  destruct s; [by destruct (is_space c) | done].
Qed.

Lemma string_of_uint_digits u :
  string_forall sign_or_digit (NilEmpty.string_of_uint u) = true.
Proof. induction u; simpl; by rewrite ?IHu. Qed.

Lemma py_str_of_Z_chars z : string_forall sign_or_digit (py_str_of_Z z) = true.
Proof.
  unfold py_str_of_Z. destruct z as [|p|p]; simpl; [done | |].
  - destruct (Pos.to_uint p); try done; apply string_of_uint_digits.
  - destruct (Pos.to_uint p); try done; apply string_of_uint_digits.
Qed.

Lemma uint_of_string_pos p :
  NilZero.uint_of_string (NilZero.string_of_uint (Pos.to_uint p)) =
  Some (Pos.to_uint p).
Proof. apply NilZero.usu, Unsigned.to_uint_nonnil. Qed.

Lemma string_of_uint_not_space p :
  string_forall not_space (NilZero.string_of_uint (Pos.to_uint p)) = true.
Proof.
  apply (string_forall_impl sign_or_digit); [intros c; apply sign_or_digit_cases |].
  destruct (Pos.to_uint p); try done; apply string_of_uint_digits.
Qed.

(** [int] reads back what [format] writes for an integer. *)
Lemma int_of_str_of_Z z : int_of_str (py_str_of_Z z) = Some z.
Proof.
  pose proof (DecimalZ.of_to z) as Hz.
  unfold int_of_str, py_str_of_Z. destruct z as [|p|p]; [done | |].
  - simpl in *. pose proof (string_of_uint_not_space p) as Hs.
    rewrite (lstrip_id _ Hs).
    destruct (NilZero.string_of_uint (Pos.to_uint p)) as [|c s] eqn:E.
    { pose proof (uint_of_string_pos p) as H. by rewrite E in H. }
    assert (sign_or_digit c = true) as Hc.
    { pose proof (py_str_of_Z_chars (Z.pos p)) as H. unfold py_str_of_Z in H.
      simpl in H. rewrite E in H. simpl in H. by apply andb_prop in H as [? _]. }
    apply sign_or_digit_cases in Hc as (_ & _ & _ & Hplus).
    assert (Ascii.eqb c "-" = false) as ->.
    { destruct (Ascii.eqb_spec c "-") as [->|]; [| done].
      pose proof (uint_of_string_pos p) as H. rewrite E in H. simpl in H.
      by destruct (NilEmpty.uint_of_string s). }
    rewrite Hplus, (lstrip_id _ Hs), (rstrip_id _ Hs), <- E, uint_of_string_pos.
    by rewrite Hz.
  - simpl in *. pose proof (string_of_uint_not_space p) as Hs.
    rewrite (lstrip_id _ Hs), (rstrip_id _ Hs), uint_of_string_pos.
    by rewrite Hz.
Qed.

Lemma py_int_of_Z z : py_int (PStr (py_str_of_Z z)) = Returned z.
Proof. simpl. by rewrite int_of_str_of_Z. Qed.

(** [nodes=<.*>:ppn=<.*>\s] on its own directive: the first group
    stops at the last [:ppn=] of the line. *)
Lemma re_match_nodes a b :
  string_forall not_nl a = true ->
  string_forall not_nl b = true ->
  string_mem ":" b = false ->
  re_match re_nodes ("nodes=" ++ a ++ ":ppn=" ++ b ++ nl) = Some [(2, b); (1, a)].
Proof.
  intros Ha Hb Hc. unfold re_match, re_nodes.
  rewrite rmatch_seq, rmatch_lit, strip_prefix_app, rmatch_seq, rmatch_group.
  apply rmatch_star_prefix; [done |].
  change (":ppn=" ++ b ++ nl) with (String ":" ("ppn=" ++ b ++ nl)).
  rewrite rmatch_star_chr.
  change (cls_mem Dot ":") with true. cbv iota.
  rewrite (rmatch_star_none Dot ":").
  - rewrite rmatch_seq, rmatch_lit.
    change (String ":" ("ppn=" ++ b ++ nl)) with (":ppn=" ++ b ++ nl).
    rewrite strip_prefix_app, consumed_app.
    by apply rmatch_rest_of_line.
  - intros s' g' Hs'. rewrite rmatch_seq, rmatch_lit.
    destruct s' as [|c s']; [done |]. simpl in *.
    apply orb_false_elim in Hs' as [Hs' _]. by rewrite Hs'.
  - simpl. by rewrite !string_mem_app, Hc.
Qed.

(** ** Lines *)

Lemma join_split_lines s : join (split_lines s) = s.
Proof.
  induction s as [|c s IH]; [done |]. simpl.
  destruct (Ascii.eqb c nl_char); simpl; [by rewrite IH |].
  destruct (split_lines s) as [|l ls]; simpl in *; by rewrite <- IH.
Qed.

Lemma readline_split_lines s :
  readline s = (hd "" (split_lines s), join (tl (split_lines s))).
Proof.
  induction s as [|c s IH]; [done |]. simpl.
  destruct (Ascii.eqb c nl_char); simpl; [by rewrite join_split_lines |].
  rewrite IH. by destruct (split_lines s).
Qed.

Lemma split_lines_join_tl s :
  split_lines (join (tl (split_lines s))) = tl (split_lines s).
Proof.
  induction s as [|c s IH]; [done |]. simpl.
  destruct (Ascii.eqb c nl_char); simpl; [by rewrite join_split_lines |].
  destruct (split_lines s) as [|l ls]; simpl in *; [done | apply IH].
Qed.

(** A line that ends with its newline, in front of more text. *)
Lemma split_lines_line v rest :
  string_forall not_nl v = true ->
  split_lines (v ++ nl ++ rest) = (v ++ nl) :: split_lines rest.
Proof.
  intros Hv. induction v as [|c v IH]; simpl in *.
  - done.
  - apply andb_prop in Hv as [Hc Hv]. unfold not_nl in Hc.
    destruct (Ascii.eqb c nl_char); [done |]. by rewrite (IH Hv).
Qed.

(** ** The loop of [Job.read] *)

(** At the end of the buffer [readline] returns the empty line, on
    which the body of the loop does nothing: the loop never leaves. *)
Lemma read_line_nil st : read_line "" st = Returned st.
Proof. reflexivity. Qed.

Lemma read_loop_end fuel st : read_loop fuel "" st = None.
Proof. induction fuel as [|fuel IH]; [done |]. simpl. apply IH. Qed.

(** The loop follows [scan] over the lines of the buffer. *)
Lemma read_loop_scan fuel text st :
  (length (split_lines text) < fuel)%nat ->
  read_loop fuel text st =
  match scan (split_lines text) st with
  | ScanRaised e out => Some (Raised e out)
  | ScanAnchor st' rest => Some (Returned (read_command rest st'))
  | ScanEnd _ => None
  end.
Proof.
  remember (split_lines text) as ls eqn:E. revert text st fuel E.
  induction ls as [|l ls IH]; intros text st fuel E Hfuel.
  - destruct text as [|c text]; [apply read_loop_end |].
    simpl in E. destruct (Ascii.eqb c nl_char); [done |].
    by destruct (split_lines text).
  - destruct fuel as [|fuel]; [simpl in Hfuel; lia |].
    cbn [read_loop scan]. rewrite readline_split_lines, <- E. simpl hd. simpl tl.
    destruct (read_line l st) as [st'|e out]; [| done].
    destruct (re_search re_cd l); [done |].
    apply IH; [| simpl in Hfuel; lia].
    pose proof (split_lines_join_tl text) as H. by rewrite <- E in H.
Qed.

(** Without an anchor the loop does not return, whatever the fuel. *)
Lemma read_loop_no_anchor fuel text st :
  has_anchor text = false ->
  read_loop fuel text st = None \/
  exists e out, read_loop fuel text st = Some (Raised e out) /\
    scan (split_lines text) st = ScanRaised e out.
Proof.
  unfold has_anchor. remember (split_lines text) as ls eqn:E.
  revert text st fuel E.
  induction ls as [|l ls IH]; intros text st fuel E Ha.
  - left. destruct text as [|c text]; [apply read_loop_end |].
    simpl in E. destruct (Ascii.eqb c nl_char); [done |].
    by destruct (split_lines text).
  - destruct fuel as [|fuel]; [by left |].
    cbn [read_loop scan]. rewrite readline_split_lines, <- E. simpl hd. simpl tl.
    simpl in Ha. apply orb_false_elim in Ha as [Hl Ha]. unfold is_anchor in Hl.
    destruct (read_line l st) as [st'|e out]; [| right; by eauto].
    destruct (re_search re_cd l); [done |].
    apply IH; [| done].
    pose proof (split_lines_join_tl text) as H. by rewrite <- E in H.
Qed.

(** ** The lines of a script, one by one *)

Lemma token_not_space v : token v = true -> string_forall not_space v = true.
Proof. unfold token. by intros [? _]%andb_prop. Qed.

Lemma token_not_nl v : token v = true -> string_forall not_nl v = true.
Proof. intros H. by apply not_space_not_nl, token_not_space. Qed.

Lemma token_no_eq v : token v = true -> string_mem "=" (v ++ nl) = false.
Proof.
  unfold token. intros [_ H]%andb_prop. rewrite string_mem_app.
  by rewrite (string_forall_mem not_eq_sign "=" v H).
Qed.

Lemma rmatch_anchor_nil g k :
  rmatch (Lit "$PBS_O_WORKDIR" +++ Plus (Chr Space)) "" g k = None.
Proof. reflexivity. Qed.

Create HintDb line.
#[local] Hint Resolve token_not_space token_not_nl token_no_eq : line.
#[local] Hint Resolve rmatch_rest_nil rmatch_anchor_nil : line.

(** [re.search] on a line whose head is known: walk over the head,
    then conclude on the tail. *)
Ltac walk := simpl; repeat (rewrite re_search_next by reflexivity).

Ltac search_none :=
  walk;
  first
    [ reflexivity
    | apply re_search_two_blanks;
      [done | solve [auto with line] | solve [auto with line]]
    | apply (re_search_absent "="); [reflexivity | solve [auto with line]]
    | apply (re_search_absent "w"); [reflexivity | assumption]
    | apply (re_search_absent "m"); [reflexivity | assumption]
    | apply (re_search_absent "u"); [reflexivity | assumption] ].

Ltac search_some :=
  walk; apply re_search_here;
  unfold re_N, re_A, re_a, re_q, re_M, re_m, re_p, re_walltime, re_pmem;
  lazymatch goal with
  | |- re_match (flag ?f) _ = _ =>
      apply (re_match_flag f " "); [done | reflexivity | auto with line]
  | |- re_match (resource ?f) _ = _ =>
      apply (re_match_resource f); auto with line
  | |- _ => reflexivity
  end.

Ltac match_none := simpl; reflexivity.

Ltac settle_searches :=
  repeat match goal with
    | |- context [re_search ?r ?s] =>
        let H := fresh in
        first
          [ assert (re_search r s = None) as H by search_none
          | eassert (re_search r s = Some _) as H by search_some ];
        rewrite H; clear H
    | |- context [re_match ?r ?s] =>
        let H := fresh in
        assert (re_match r s = None) as H by match_none;
        rewrite H; clear H
    end.

Ltac line_tac :=
  split;
  unfold is_anchor, read_line, read_directives, read_auto, read_resources;
  settle_searches;
  repeat match goal with
    | |- context [re_search ?r ?s] => destruct (re_search r s)
    end;
  reflexivity.

Section Lines.
Variable st : pstate.

Lemma line_anchor :
  read_line ("cd $PBS_O_WORKDIR" ++ nl) st = Returned st /\
  is_anchor ("cd $PBS_O_WORKDIR" ++ nl) = true.
Proof. split; reflexivity. Qed.

Lemma line_auto b :
  line_reads ("#auto=" ++ py_format (PBool b) ++ nl) st
    (set_optional "auto" (PBool b) (set_attr "auto" (PBool b) st)).
Proof. destruct b; split; reflexivity. Qed.

Variable v : string.
Hypothesis Hv : token v = true.

Lemma line_N :
  line_reads ("#PBS -N " ++ v ++ nl) st (found_required "name" v st).
Proof. line_tac. Qed.

Lemma line_a :
  line_reads ("#PBS -a " ++ v ++ nl) st (found_optional "exetime" v st).
Proof. line_tac. Qed.

Lemma line_A :
  line_reads ("#PBS -A " ++ v ++ nl) st (found_optional "account" v st).
Proof. line_tac. Qed.

Lemma line_q :
  line_reads ("#PBS -q " ++ v ++ nl) st (found_required "queue" v st).
Proof. line_tac. Qed.

(** The [-M], [-m] and [-p] directives are looked for with
    [re.match], at the start of the line, where [#PBS] stands. *)
Lemma line_M : line_reads ("#PBS -M " ++ v ++ nl) st st.
Proof. line_tac. Qed.

Lemma line_m : line_reads ("#PBS -m " ++ v ++ nl) st st.
Proof. line_tac. Qed.

Lemma line_p : line_reads ("#PBS -p " ++ v ++ nl) st st.
Proof. line_tac. Qed.

Lemma line_walltime :
  line_reads ("#PBS -l walltime=" ++ v ++ nl) st
    (found_required "walltime" v st).
Proof. line_tac. Qed.

Lemma line_pmem :
  line_reads ("#PBS -l pmem=" ++ v ++ nl) st (found_optional "pmem" v st).
Proof. line_tac. Qed.

Lemma line_qos : line_reads ("#PBS -l qos=" ++ v ++ nl) st st.
Proof. line_tac. Qed.
End Lines.

Lemma numeral_chars s c :
  string_forall sign_or_digit s = true -> sign_or_digit c = false ->
  string_mem c s = false.
Proof. apply string_forall_mem. Qed.

Lemma line_nodes n p st :
  line_reads ("#PBS -l nodes=" ++ py_str_of_Z n ++ ":ppn=" ++ py_str_of_Z p ++ nl)
    st (set_required "ppn" (PInt p) (set_required "nodes" (PInt n)
          (set_attr "ppn" (PInt p) (set_attr "nodes" (PInt n) st)))).
Proof.
  pose proof (py_str_of_Z_chars n) as Ha. pose proof (py_str_of_Z_chars p) as Hb.
  pose proof (py_int_of_Z n) as Hn. pose proof (py_int_of_Z p) as Hp.
  set (a := py_str_of_Z n) in *. set (b := py_str_of_Z p) in *.
  assert (re_search re_nodes ("#PBS -l nodes=" ++ a ++ ":ppn=" ++ b ++ nl)
          = Some [(2, b); (1, a)]) as Hit.
  { walk. apply re_search_here, re_match_nodes.
    - apply not_space_not_nl, (string_forall_impl sign_or_digit); [| done].
      intros c. apply sign_or_digit_cases.
    - apply not_space_not_nl, (string_forall_impl sign_or_digit); [| done].
      intros c. apply sign_or_digit_cases.
    - by apply numeral_chars. }
  assert (forall c, sign_or_digit c = false -> string_mem c ":ppn=" = false ->
            Ascii.eqb c nl_char = false ->
            string_mem c ((a ++ ":ppn=" ++ b) ++ nl) = false) as Habs.
  { intros c Hc Hc' Hc''. rewrite !string_mem_app, Hc'.
    rewrite (numeral_chars a c Ha Hc), (numeral_chars b c Hb Hc). simpl.
    by rewrite Hc''. }
  assert (string_forall not_space (a ++ ":ppn=" ++ b) = true) as Hv.
  { rewrite !string_forall_app.
    rewrite (string_forall_impl sign_or_digit not_space a), 
      (string_forall_impl sign_or_digit not_space b); try done;
      intros c; apply sign_or_digit_cases. }
  pose proof (Habs "w"%char eq_refl eq_refl eq_refl) as Hw.
  pose proof (Habs "m"%char eq_refl eq_refl eq_refl) as Hm.
  pose proof (Habs "u"%char eq_refl eq_refl eq_refl) as Hu.
  clear Habs.
  split; unfold is_anchor, read_line, read_directives, read_auto, read_resources;
    rewrite ?Hit; clear Hit;
    replace (a ++ ":ppn=" ++ b ++ nl) with ((a ++ ":ppn=" ++ b) ++ nl)
      by (by rewrite !append_assoc);
    generalize dependent (a ++ ":ppn=" ++ b); intros v Hv Hw Hm Hu;
    settle_searches.
  - change (group 1 [(2, b); (1, a)]) with a.
    change (group 2 [(2, b); (1, a)]) with b. by rewrite Hn, Hp.
  - reflexivity.
Qed.

(** ** Reading a script back *)

Lemma readline_line v rest :
  string_forall not_nl v = true ->
  readline (v ++ nl ++ rest) = (v ++ nl, rest).
Proof.
  intros Hv. rewrite readline_split_lines, split_lines_line by done.
  simpl. by rewrite join_split_lines.
Qed.

Lemma read_loop_lines ls st st' fuel rest :
  lines_read ls st st' ->
  read_loop (length ls + fuel) (join ls ++ rest) st = read_loop fuel rest st'.
Proof.
  induction 1 as [|v ls st st1 st2 Hv [Hl Ha] _ IH]; [done |].
  cbn [length Nat.add join read_loop]. 
  rewrite !append_assoc, readline_line, Hl by done.
  unfold is_anchor in Ha. destruct (re_search re_cd (v ++ nl)); [done |].
  apply IH.
Qed.

Lemma lines_read_field pre v ls st st1 st2 :
  string_forall not_nl pre = true ->
  string_forall not_nl v = true ->
  line_reads (pre ++ v ++ nl) st st1 ->
  lines_read ls st1 st2 ->
  lines_read ((pre ++ v ++ nl) :: ls) st st2.
Proof.
  intros Hpre Hv Hl Hls. rewrite <- append_assoc. econstructor; [| | exact Hls].
  - by rewrite string_forall_app, Hpre.
  - by rewrite append_assoc.
Qed.

Lemma py_str_of_Z_not_nl z : string_forall not_nl (py_str_of_Z z) = true.
Proof.
  apply not_space_not_nl, (string_forall_impl sign_or_digit);
    [intros c; apply sign_or_digit_cases | apply py_str_of_Z_chars].
Qed.

Lemma lines_read_nodes n p ls st st2 :
  lines_read ls
    (set_required "ppn" (PInt p) (set_required "nodes" (PInt n)
       (set_attr "ppn" (PInt p) (set_attr "nodes" (PInt n) st)))) st2 ->
  lines_read (("#PBS -l nodes=" ++ py_str_of_Z n ++ ":ppn=" ++
               py_str_of_Z p ++ nl) :: ls) st st2.
Proof.
  intros Hls.
  replace ("#PBS -l nodes=" ++ py_str_of_Z n ++ ":ppn=" ++ py_str_of_Z p ++ nl)
    with (("#PBS -l nodes=" ++ py_str_of_Z n ++ ":ppn=" ++ py_str_of_Z p) ++ nl)
    by (by rewrite !append_assoc).
  econstructor; [| | exact Hls].
  - by rewrite !string_forall_app, !py_str_of_Z_not_nl.
  - rewrite !append_assoc. apply line_nodes.
Qed.

Lemma token_intro v :
  string_forall not_space v = true -> string_forall not_eq_sign v = true ->
  token v = true.
Proof. unfold token. by intros -> ->. Qed.

#[local] Hint Resolve token_intro : line.

Ltac field_line pre :=
  lazymatch pre with
  | "#PBS -N " => apply line_N
  | "#PBS -a " => apply line_a
  | "#PBS -A " => apply line_A
  | "#PBS -q " => apply line_q
  | "#PBS -M " => apply line_M
  | "#PBS -m " => apply line_m
  | "#PBS -p " => apply line_p
  | "#PBS -l walltime=" => apply line_walltime
  | "#PBS -l pmem=" => apply line_pmem
  | "#PBS -l qos=" => apply line_qos
  | "#auto=" => apply line_auto
  end.

Ltac read_lines :=
  repeat lazymatch goal with
    | |- lines_read [] _ _ => apply lines_read_nil
    | |- lines_read ((_ ++ _ ++ _ ++ _ ++ nl) :: _) _ _ => apply lines_read_nodes
    | |- lines_read (("#auto=" ++ py_format (PBool ?b) ++ nl) :: _) _ _ =>
        eapply (lines_read_field "#auto=" (py_format (PBool b)));
        [ reflexivity | by destruct b | apply line_auto | ]
    | |- lines_read ((?pre ++ ?v ++ nl) :: _) _ _ =>
        eapply (lines_read_field pre v);
        [ reflexivity
        | solve [auto with line]
        | field_line pre; auto with line
        | ]
    | |- lines_read ((?c ++ nl) :: _) ?st _ =>
        apply (lines_read_cons c _ st st); [ reflexivity | by split | ]
    | |- lines_read (nl :: _) ?st _ =>
        apply (lines_read_cons "" _ st st); [ reflexivity | by split | ]
    end.

Lemma lines_read_header j st :
  wf_job j = true -> lines_read (header j) st (header_state j st).
Proof.
  unfold wf_job. intros H.
  repeat (apply andb_prop in H as [H ?]).
  destruct j as [name account nodes ppn walltime pmem queue exetime
                 message email priority command auto].
  unfold header, header_state.
  destruct exetime, account, pmem, email;
    cbn [opt_line app opt_token j_name j_account j_nodes j_ppn j_walltime
         j_pmem j_queue j_exetime j_message j_email j_priority j_command
         j_auto] in *;
    read_lines.
Qed.

(** ** Writing a script *)

Lemma to_obj_lookup j (o : obj) k v :
  to_obj j ⊆ o -> to_obj j !! k = Some v -> o !! k = Some v.
Proof. intros H Hk. by eapply lookup_weaken. Qed.

Lemma opt_val_not_none o :
  bool_decide (opt_val o ≠ PNone) = if o is Some _ then true else false.
Proof. by destruct o. Qed.

Lemma str_not_none s : bool_decide (PStr s ≠ PNone) = true.
Proof. done. Qed.

Lemma qsub_string_script j (o : obj) :
  to_obj j ⊆ o -> qsub_string o = Returned (script j).
Proof.
  intros H. unfold qsub_string, getattr.
  rewrite (to_obj_lookup j o "name" _ H eq_refl).
  rewrite (to_obj_lookup j o "exetime" _ H eq_refl).
  rewrite (to_obj_lookup j o "account" _ H eq_refl).
  rewrite (to_obj_lookup j o "walltime" _ H eq_refl).
  rewrite (to_obj_lookup j o "nodes" _ H eq_refl).
  rewrite (to_obj_lookup j o "ppn" _ H eq_refl).
  rewrite (to_obj_lookup j o "pmem" _ H eq_refl).
  rewrite (to_obj_lookup j o "queue" _ H eq_refl).
  rewrite (to_obj_lookup j o "email" _ H eq_refl).
  rewrite (to_obj_lookup j o "message" _ H eq_refl).
  rewrite (to_obj_lookup j o "priority" _ H eq_refl).
  rewrite (to_obj_lookup j o "auto" _ H eq_refl).
  rewrite (to_obj_lookup j o "command" _ H eq_refl).
  clear H. unfold script, header, anchor_line.
  cbn [mbind outcome_bind]. rewrite !opt_val_not_none, str_not_none.
  destruct j as [name account nodes ppn walltime pmem queue exetime
                 message email priority command auto].
  cbn [j_name j_account j_nodes j_ppn j_walltime
         j_pmem j_queue j_exetime j_message j_email j_priority j_command
         j_auto].
  destruct exetime, account, pmem, email;
    cbn [mbind outcome_bind opt_val opt_line app join py_format];
    f_equal; rewrite !append_assoc; reflexivity.
Qed.

(** Two maps built from insertions with known keys agree at [k]:
    decide [k] against each key in turn. *)
Ltac split_keys k :=
  repeat match goal with
    | |- context [<[?key := _]> _ !! k] =>
        lazymatch goal with
        | H : key ≠ k |- _ => rewrite !(lookup_insert_ne _ key k) by done
        | _ => destruct (decide (key = k)) as [<-|?]; [vm_compute; reflexivity |]
        end
    end.

(** ** The check after the loop *)

Lemma check_required_ok st :
  (forall k v, required st !! k = Some v -> v <> not_found) ->
  check_required st = Returned (self st).
Proof.
  intros H. unfold check_required.
  destruct (existsb _ _) eqn:E; [| done].
  apply existsb_exists in E as ([k v] & Hin & Heq).
  apply list_elem_of_In, elem_of_map_to_list in Hin.
  unfold py_eq in Heq. apply bool_decide_eq_true in Heq. simpl in Heq.
  by destruct (H k v Hin).
Qed.

Lemma check_required_missing st k :
  required st !! k = Some not_found ->
  check_required st = Raised sys_exit (report st).
Proof.
  intros H. unfold check_required.
  destruct (existsb _ _) eqn:E; [done |].
  assert (existsb (λ kv : string * pyval, py_eq kv.2 not_found)
            (map_to_list (required st)) = true) as E'; [| congruence].
  apply existsb_exists. exists (k, not_found). split.
  - by apply list_elem_of_In, elem_of_map_to_list.
  - unfold py_eq. by apply bool_decide_eq_true.
Qed.

Lemma token_not_found v : token v = true -> PStr v <> not_found.
Proof. intros H [= ->]. done. Qed.

Lemma line_not_found c : PStr (c ++ nl) <> not_found.
Proof.
  intros [= H]. assert (string_mem nl_char (c ++ nl) = true) as Hm.
  { rewrite string_mem_app. simpl. by rewrite orb_true_r. }
  by rewrite H in Hm.
Qed.

(** ** The round trip *)

(** The script of a well-formed job is read back as [reread j]. *)
Lemma read_script j fuel :
  wf_job j = true -> (22 <= fuel)%nat ->
  read fuel ∅ (script j) = Some (Returned (to_obj (reread j))).
Proof.
  intros Hwf Hfuel. unfold read, script.
  pose proof (lines_read_header j
    (PState (read_defaults ∅) optional_init required_init) Hwf) as Hh.
  assert (length (header j) <= 20)%nat as Hlen.
  { unfold header. rewrite !length_app.
    destruct (j_exetime j), (j_account j), (j_pmem j), (j_email j); simpl; lia. }
  replace fuel with (length (header j) + S (fuel - S (length (header j))))%nat
    by lia.
  rewrite (read_loop_lines _ _ _ _ _ Hh).
  cbn [read_loop]. unfold anchor_line.
  rewrite append_assoc, (readline_line "cd $PBS_O_WORKDIR") by done.
  destruct (line_anchor (header_state j
    (PState (read_defaults ∅) optional_init required_init))) as [-> Ha].
  unfold is_anchor in Ha.
  destruct (re_search re_cd ("cd $PBS_O_WORKDIR" ++ nl)); [clear Ha | done].
  f_equal.
  unfold wf_job in Hwf. repeat (apply andb_prop in Hwf as [Hwf ?]).
  clear Hh Hlen Hfuel fuel.
  destruct j as [name account nodes ppn walltime pmem queue exetime
                 message email priority command auto].
  cbn [j_name j_account j_nodes j_ppn j_walltime j_pmem j_queue j_exetime
       j_message j_email j_priority j_command j_auto] in *.
  rewrite check_required_ok.
  - f_equal. apply map_eq. intros k.
    unfold to_obj, reread, read_defaults, header_state, read_command,
      found_required, found_optional.
    destruct exetime, account, pmem;
      cbn [self set_required set_attr set_optional opt_val
           j_name j_account j_nodes j_ppn j_walltime j_pmem j_queue j_exetime
           j_message j_email j_priority j_command j_auto];
      split_keys k; done.
  - intros k v.
    unfold header_state, read_command, found_required, found_optional,
      required_init.
    destruct exetime, account, pmem;
      cbn [required set_required set_attr set_optional
           j_name j_account j_nodes j_ppn j_walltime j_pmem j_queue j_exetime
           j_message j_email j_priority j_command j_auto];
      rewrite !lookup_insert;
      repeat (case_decide; simplify_eq; try done);
      intros [= <-]; auto using line_not_found, token_not_found with line.
Qed.

(** ** The constructor *)

Lemma init_from_script fuel text :
  init fuel (from_script text) = read fuel ∅ text.
Proof. reflexivity. Qed.

Lemma init_to_args fuel j :
  init fuel (to_args j) = Some (Returned (<["jobID" := PNone]> (to_obj j))).
Proof.
  unfold init, to_args.
  cbn [arg_qsubstr arg_name arg_account arg_nodes arg_ppn arg_walltime
       arg_pmem arg_queue arg_exetime arg_message arg_email arg_priority
       arg_command arg_auto bool_decide decide_rel decide not_dec
       pyval_eq_dec py_int py_bool mbind outcome_bind].
  reflexivity.
Qed.

Lemma to_obj_subseteq j : to_obj j ⊆ <["jobID" := PNone]> (to_obj j).
Proof. by apply insert_subseteq. Qed.

(** A job, its script and the job read back from the script. *)
Lemma roundtrip j fuel :
  wf_job j = true -> (22 <= fuel)%nat ->
  init fuel (to_args j) = Some (Returned (<["jobID" := PNone]> (to_obj j))) /\
  qsub_string (<["jobID" := PNone]> (to_obj j)) = Returned (script j) /\
  init fuel (from_script (script j)) = Some (Returned (to_obj (reread j))).
Proof.
  intros Hwf Hfuel. split; [apply init_to_args |].
  split; [apply qsub_string_script, to_obj_subseteq |].
  rewrite init_from_script. by apply read_script.
Qed.

(** What the two objects of a round trip have in common. *)
Lemma reread_lookup j k :
  quiet j = true -> k <> "command" ->
  to_obj (reread j) !! k = to_obj j !! k.
Proof.
  unfold quiet. intros H Hcmd.
  repeat (apply andb_prop in H as [H ?]).
  repeat match goal with
    | H : bool_decide _ = true |- _ => apply bool_decide_eq_true in H
    end.
  destruct j as [name account nodes ppn walltime pmem queue exetime
                 message email priority command auto].
  cbn [j_email j_message j_priority] in *. subst.
  assert ("command" ≠ k) by done.
  unfold to_obj, reread.
  cbn [j_name j_account j_nodes j_ppn j_walltime j_pmem j_queue j_exetime
       j_message j_email j_priority j_command j_auto opt_val].
  split_keys k. done.
Qed.

Lemma reread_command j :
  to_obj (reread j) !! "command" = Some (PStr (j_command j ++ nl)).
Proof. reflexivity. Qed.

Lemma required_only_quiet j : required_only j = true -> quiet j = true.
Proof.
  unfold required_only, quiet. intros H.
  repeat (apply andb_prop in H as [H ?]).
  repeat (apply andb_true_intro; split); done.
Qed.

(** C1 (as amended).  A job whose required fields are set to values
    without blanks and [=], with every optional field at its default,
    is written by [qsub_string] to a script that [Job(qsubstr=...)]
    reads back to an object with the same value in every field except
    [jobID] and [command]; the command read back is the command of
    the job followed by a newline. *)
Theorem roundtrip_required j fuel :
  wf_job j = true -> required_only j = true -> (22 <= fuel)%nat ->
  exists spec text parsed,
    init fuel (to_args j) = Some (Returned spec) /\
    qsub_string spec = Returned text /\
    init fuel (from_script text) = Some (Returned parsed) /\
    (forall k, k <> "jobID" -> k <> "command" -> parsed !! k = spec !! k) /\
    spec !! "command" = Some (PStr (j_command j)) /\
    parsed !! "command" = Some (PStr (j_command j ++ nl)).
Proof.
  intros Hwf Hreq Hfuel.
  destruct (roundtrip j fuel Hwf Hfuel) as (Hi & Hq & Hr).
  exists (<["jobID" := PNone]> (to_obj j)), (script j), (to_obj (reread j)).
  split; [exact Hi |]. split; [exact Hq |]. split; [exact Hr |].
  split; [| split; [reflexivity | apply reread_command]].
  intros k ??. rewrite lookup_insert_ne by done.
  by apply reread_lookup; [apply required_only_quiet |].
Qed.

Lemma roundtrip_required_witness :
  exists spec text parsed,
    init 22 (to_args job1) = Some (Returned spec) /\
    qsub_string spec = Returned text /\
    init 22 (from_script text) = Some (Returned parsed) /\
    (forall k, k <> "jobID" -> k <> "command" -> parsed !! k = spec !! k) /\
    spec !! "command" = Some (PStr (j_command job1)) /\
    parsed !! "command" = Some (PStr (j_command job1 ++ nl)).
Proof. apply (roundtrip_required job1 22); [reflexivity | reflexivity | lia]. Defined.

(** C1 as stated fails on the example job: the command read back
    from its script is not the command of the job. *)
Lemma roundtrip_required_counterexample :
  ~ (forall spec text parsed,
       init 22 (to_args job1) = Some (Returned spec) ->
       qsub_string spec = Returned text ->
       init 22 (from_script text) = Some (Returned parsed) ->
       forall k, k <> "jobID" -> parsed !! k = spec !! k).
Proof.
  intros H.
  destruct (roundtrip job1 22 eq_refl ltac:(lia)) as (Hi & Hq & Hr).
  specialize (H _ _ _ Hi Hq Hr "command" ltac:(discriminate)).
  clear Hi Hq Hr. rewrite reread_command in H. vm_compute in H.
  discriminate H.
Qed.




(** The [-M], [-m] and [-p] lines of a script are not read back:
    whatever the job says, the object read from its script has no
    [email], and the default [message] and [priority]. *)
Lemma notification_not_read j fuel :
  wf_job j = true -> (22 <= fuel)%nat ->
  exists parsed,
    init fuel (from_script (script j)) = Some (Returned parsed) /\
    parsed !! "email" = Some PNone /\
    parsed !! "message" = Some (PStr "a") /\
    parsed !! "priority" = Some (PStr "0").
Proof.
  intros Hwf Hfuel. exists (to_obj (reread j)).
  split; [rewrite init_from_script; by apply read_script |].
  split; [reflexivity |]. split; reflexivity.
Qed.

Example notification_example :
  init 22 (from_script (script job5)) = Some (Returned (to_obj (reread job5))) /\
  to_obj job5 !! "email" = Some (PStr "jdoe@umich.edu") /\
  to_obj (reread job5) !! "email" = Some PNone /\
  to_obj job5 !! "message" = Some (PStr "abe") /\
  to_obj (reread job5) !! "message" = Some (PStr "a") /\
  to_obj job5 !! "priority" = Some (PStr "-200") /\
  to_obj (reread job5) !! "priority" = Some (PStr "0").
Proof.
  split; [rewrite init_from_script; apply read_script; [reflexivity | lia] |].
  repeat (split; [reflexivity |]). reflexivity.
Qed.

(** C4 (as amended).  When a script is read to a job whose values
    have no blanks and no [=] and whose notification and priority
    fields are at their defaults, the script written for that job is
    read back to the same value in every field except [command]; the
    command has gained a newline. *)
Theorem reparse_script text fuel j :
  init fuel (from_script text) = Some (Returned (to_obj j)) ->
  wf_job j = true -> quiet j = true ->
  exists text',
    qsub_string (to_obj j) = Returned text' /\
    forall fuel', (22 <= fuel')%nat ->
      exists parsed',
        init fuel' (from_script text') = Some (Returned parsed') /\
        (forall k, k <> "command" -> parsed' !! k = to_obj j !! k) /\
        parsed' !! "command" = Some (PStr (j_command j ++ nl)).
Proof.
  intros _ Hwf Hq. exists (script j).
  split; [by apply qsub_string_script |].
  intros fuel' Hfuel. exists (to_obj (reread j)).
  split; [rewrite init_from_script; by apply read_script |].
  split; [| apply reread_command].
  intros k Hk. by apply reread_lookup.
Qed.

Lemma reparse_script_witness :
  exists text',
    qsub_string (to_obj (reread job1)) = Returned text' /\
    forall fuel', (22 <= fuel')%nat ->
      exists parsed',
        init fuel' (from_script text') = Some (Returned parsed') /\
        (forall k, k <> "command" -> parsed' !! k = to_obj (reread job1) !! k) /\
        parsed' !! "command" = Some (PStr (j_command (reread job1) ++ nl)).
Proof.
  apply (reparse_script (script job1) 22 (reread job1));
    [| reflexivity | reflexivity].
  rewrite init_from_script. apply read_script; [reflexivity | lia].
Defined.

(** C4 as stated fails on the script of the example job: the script
    written for what was read is read to another command. *)
Lemma reparse_script_counterexample :
  ~ (forall o text' o',
       init 22 (from_script (script job1)) = Some (Returned o) ->
       qsub_string o = Returned text' ->
       init 22 (from_script text') = Some (Returned o') ->
       o' = o).
Proof.
  intros H.
  assert (init 22 (from_script (script job1)) =
          Some (Returned (to_obj (reread job1)))) as H1.
  { rewrite init_from_script. apply read_script; [reflexivity | lia]. }
  assert (init 22 (from_script (script (reread job1))) =
          Some (Returned (to_obj (reread (reread job1))))) as H2.
  { rewrite init_from_script. apply read_script; [reflexivity | lia]. }
  specialize (H _ _ _ H1 (qsub_string_script _ _ (reflexivity _)) H2).
  clear H1 H2.
  assert (to_obj (reread (reread job1)) !! "command" =
          to_obj (reread job1) !! "command") as Hc by (by rewrite H).
  clear H. vm_compute in Hc. discriminate Hc.
Qed.

(** ** The constructor without [qsubstr] *)

(** C10.  Without [qsubstr] the constructor passes [nodes] and [ppn]
    through [int]: it returns an object exactly when both
    conversions succeed, and then the two attributes hold the
    integers; it raises, and returns no object, when either argument
    is [None] (a [TypeError]) or a string that is not a numeral (a
    [ValueError]); and with two integers it succeeds on the defaults
    of every other argument. *)
Theorem init_coerces_counts fuel a :
  arg_qsubstr a = PNone ->
  ((exists o, init fuel a = Some (Returned o)) <->
   (exists n p, py_int (arg_nodes a) = Returned n /\
                py_int (arg_ppn a) = Returned p)) /\
  (forall o, init fuel a = Some (Returned o) ->
     exists n p, py_int (arg_nodes a) = Returned n /\
                 py_int (arg_ppn a) = Returned p /\
                 o !! "nodes" = Some (PInt n) /\ o !! "ppn" = Some (PInt p)) /\
  (arg_nodes a = PNone \/ (exists n, py_int (arg_nodes a) = Returned n) /\
                          arg_ppn a = PNone ->
   init fuel a = Some (Raised TypeError [])) /\
  (forall s, arg_nodes a = PStr s -> int_of_str s = None ->
     init fuel a = Some (Raised (ValueError s) [])) /\
  (forall n s, py_int (arg_nodes a) = Returned n -> arg_ppn a = PStr s ->
     int_of_str s = None -> init fuel a = Some (Raised (ValueError s) [])) /\
  (forall n p, exists o, init fuel (with_counts (PInt n) (PInt p)) = Some (Returned o)).
Proof.
  intros Hq. unfold init. rewrite Hq.
  change (bool_decide (PNone ≠ PNone)) with false. cbv iota.
  repeat split.
  - intros [o Ho]. destruct (py_int (arg_nodes a)) as [n|]; [| done].
    destruct (py_int (arg_ppn a)) as [p|]; [| done]. by exists n, p.
  - intros (n & p & -> & ->). eexists. reflexivity.
  - intros o Ho. destruct (py_int (arg_nodes a)) as [n|]; [| done].
    destruct (py_int (arg_ppn a)) as [p|]; [| done]. exists n, p.
    cbn [mbind outcome_bind] in Ho. injection Ho as <-.
    split; [done |]. split; [done |]. split; reflexivity.
  - intros [->|[[n ->] ->]]; reflexivity.
  - intros s -> Hs. cbn [py_int]. by rewrite Hs.
  - intros n s -> -> Hs. cbn [py_int mbind outcome_bind]. by rewrite Hs.
  - intros n p. eexists. reflexivity.
Qed.

Lemma init_coerces_counts_witness :
  ((exists o, init 0 (to_args job1) = Some (Returned o)) <->
   (exists n p, py_int (arg_nodes (to_args job1)) = Returned n /\
                py_int (arg_ppn (to_args job1)) = Returned p)) /\
  (forall o, init 0 (to_args job1) = Some (Returned o) ->
     exists n p, py_int (arg_nodes (to_args job1)) = Returned n /\
                 py_int (arg_ppn (to_args job1)) = Returned p /\
                 o !! "nodes" = Some (PInt n) /\ o !! "ppn" = Some (PInt p)) /\
  (arg_nodes (to_args job1) = PNone \/
   (exists n, py_int (arg_nodes (to_args job1)) = Returned n) /\
   arg_ppn (to_args job1) = PNone ->
   init 0 (to_args job1) = Some (Raised TypeError [])) /\
  (forall s, arg_nodes (to_args job1) = PStr s -> int_of_str s = None ->
     init 0 (to_args job1) = Some (Raised (ValueError s) [])) /\
  (forall n s, py_int (arg_nodes (to_args job1)) = Returned n ->
     arg_ppn (to_args job1) = PStr s ->
     int_of_str s = None -> init 0 (to_args job1) = Some (Raised (ValueError s) [])) /\
  (forall n p, exists o, init 0 (with_counts (PInt n) (PInt p)) = Some (Returned o)).
Proof. apply (init_coerces_counts 0 (to_args job1)). reflexivity. Defined.

(** The defaults alone, and a count that is not a numeral. *)
Example init_defaults_raise fuel :
  init fuel default_args = Some (Raised TypeError []).
Proof. reflexivity. Qed.

Example init_nodes_only_raise fuel :
  init fuel (with_counts (PInt 2) PNone) = Some (Raised TypeError []).
Proof. reflexivity. Qed.

Example init_word_raises fuel :
  init fuel (with_counts (PStr "two") (PInt 16)) =
  Some (Raised (ValueError "two") []).
Proof. reflexivity. Qed.

Example init_numeral_string fuel :
  exists o, init fuel (with_counts (PStr " 2 ") (PStr "16")) = Some (Returned o) /\
            o !! "nodes" = Some (PInt 2) /\ o !! "ppn" = Some (PInt 16).
Proof. eexists. split; [reflexivity |]. split; reflexivity. Qed.

(** ** The [auto=] comment *)






(** ** How a parse fails *)

Lemma py_int_str_raised s e out :
  py_int (PStr s) = Raised e out -> e = ValueError s /\ out = [].
Proof. simpl. destruct (int_of_str s); [done |]. by intros [= <- <-]. Qed.

Lemma read_resources_raised l st e out :
  read_resources l st = Raised e out -> exists s, e = ValueError s /\ out = [].
Proof.
  unfold read_resources.
  destruct (re_search re_nodes l) as [m|]; [| done].
  destruct (py_int (PStr (group 1 m))) as [n|e1 out1] eqn:E1.
  - destruct (py_int (PStr (group 2 m))) as [p|e2 out2] eqn:E2; [done |].
    intros [= <- <-]. apply py_int_str_raised in E2 as [-> ->]. eauto.
  - intros [= <- <-]. apply py_int_str_raised in E1 as [-> ->]. eauto.
Qed.

Lemma read_directives_raised l st e out :
  read_directives l st = Raised e out -> exists s, e = ValueError s /\ out = [].
Proof.
  unfold read_directives.
  destruct (re_search re_PBS l); [| done].
  destruct (re_search re_l l); [| done].
  match goal with |- context [read_resources l ?x] => generalize x end.
  intros st0. destruct (read_resources l st0) as [st1|e1 out1] eqn:E; [done |].
  intros [= <- <-]. by eapply read_resources_raised.
Qed.

Lemma read_auto_raised l st e out :
  read_auto l st = Raised e out ->
  e = NameError "sys" /\ out = [auto_error ++ " " ++ l].
Proof.
  unfold read_auto. destruct (re_search re_auto l) as [m|]; [| done].
  destruct (re_match re_false (group 1 m)); [done |].
  destruct (re_match re_true (group 1 m)); [done |].
  by intros [= <- <-].
Qed.

(** A line stops the parse either on its [auto=] comment or on a
    count that [int] rejects. *)
Lemma read_line_raised l st e out :
  read_line l st = Raised e out ->
  (e = NameError "sys" /\ out = [auto_error ++ " " ++ l]) \/
  (exists s, e = ValueError s /\ out = []).
Proof.
  unfold read_line.
  destruct (read_directives l st) as [st1|e1 out1] eqn:E.
  - intros H. left. by eapply read_auto_raised.
  - intros [= <- <-]. right. by eapply read_directives_raised.
Qed.

Lemma read_loop_raised fuel io st e out :
  read_loop fuel io st = Some (Raised e out) ->
  exists l st', read_line l st' = Raised e out.
Proof.
  revert io st. induction fuel as [|fuel IH]; intros io st; [done |].
  cbn [read_loop]. destruct (readline io) as [l io'].
  destruct (read_line l st) as [st1|e1 out1] eqn:E.
  - destruct (re_search re_cd l); [done | apply IH].
  - intros [= <- <-]. eauto.
Qed.

Lemma report_not_nil st : report st <> [].
Proof. done. Qed.

Lemma check_required_raised st e out :
  check_required st = Raised e out -> e = NameError "sys" /\ out = report st.
Proof.
  unfold check_required. destruct (existsb _ _); [| done]. by intros [= <- <-].
Qed.

(** C9.  The module does not import [sys], so [sys.exit()] raises a
    [NameError]: this is what the parse does, after printing its
    message, on an [auto=] value it does not understand and on a
    required field that is still missing after the loop.  The only
    other way for [Job.read] to fail is the [ValueError] of [int] on
    a node or processor count. *)
Theorem parse_failures_raise_name_error :
  ("sys" ∉ module_imports) /\
  (forall line st m,
     re_search re_auto line = Some m ->
     re_match re_false (group 1 m) = None ->
     re_match re_true (group 1 m) = None ->
     read_auto line st = Raised (NameError "sys") [auto_error ++ " " ++ line]) /\
  (forall st k,
     required st !! k = Some not_found ->
     check_required st = Raised (NameError "sys") (report st)) /\
  (forall fuel self0 text e out,
     read fuel self0 text = Some (Raised e out) ->
     (e = NameError "sys" /\ out <> []) \/ (exists s, e = ValueError s /\ out = [])).
Proof.
  split; [apply (bool_decide_unpack _); vm_compute; exact I |].
  split; [| split].
  - intros line st m Hm Hf Ht. unfold read_auto. by rewrite Hm, Hf, Ht.
  - intros st k Hk. by eapply check_required_missing.
  - intros fuel self0 text e out. unfold read.
    destruct (read_loop _ _ _) as [[st|e1 out1]|] eqn:E; [| | done].
    + intros [= H]. apply check_required_raised in H as [-> ->].
      left. split; [done | apply report_not_nil].
    + intros [= <- <-]. apply read_loop_raised in E as (l & st' & H).
      apply read_line_raised in H as [[-> ->]|H]; [left | by right].
      split; [done | discriminate].
Qed.

Lemma parse_failures_raise_name_error_witness :
  read 5 ∅ ("#PBS -N job1" ++ nl ++ "cd $PBS_O_WORKDIR" ++ nl ++ "echo hi") =
    Some (Raised (NameError "sys")
            (report (read_command "echo hi"
               (found_required "name" "job1"
                  (PState (read_defaults ∅) optional_init required_init))))) /\
  ((NameError "sys" = NameError "sys" /\
    report (read_command "echo hi"
               (found_required "name" "job1"
                  (PState (read_defaults ∅) optional_init required_init))) <> []) \/
   (exists s, NameError "sys" = ValueError s /\
    report (read_command "echo hi"
               (found_required "name" "job1"
                  (PState (read_defaults ∅) optional_init required_init))) = [])).
Proof.
  assert (read 5 ∅ ("#PBS -N job1" ++ nl ++ "cd $PBS_O_WORKDIR" ++ nl ++ "echo hi") =
    Some (Raised (NameError "sys")
            (report (read_command "echo hi"
               (found_required "name" "job1"
                  (PState (read_defaults ∅) optional_init required_init)))))) as H
    by (vm_compute; reflexivity).
  split; [exact H |].
  exact (proj2 (proj2 (proj2 parse_failures_raise_name_error)) _ _ _ _ _ H).
Defined.

(** ** A script without an anchor *)

Lemma scan_raised ls st e out :
  scan ls st = ScanRaised e out ->
  exists l st', In l ls /\ read_line l st' = Raised e out.
Proof.
  revert st. induction ls as [|l ls IH]; intros st; [done |]. simpl.
  destruct (read_line l st) as [st1|e1 out1] eqn:E.
  - destruct (re_search re_cd l); [done |].
    intros H. apply IH in H as (l' & st' & Hin & H). eauto.
  - intros [= <- <-]. eauto.
Qed.

Lemma report_length st : (3 <= length (report st))%nat.
Proof. unfold report. rewrite !length_app. simpl. lia. Qed.

(** Without an anchor, and with no line that raises, the loop does
    not end. *)
Lemma read_clean_diverges text fuel self0 :
  has_anchor text = false ->
  (forall l st e out, In l (split_lines text) -> read_line l st <> Raised e out) ->
  read fuel self0 text = None.
Proof.
  intros Ha H. unfold read.
  destruct (read_loop_no_anchor fuel text
              (PState (read_defaults self0) optional_init required_init) Ha)
    as [-> | (e & out & -> & Hs)]; [done |].
  apply scan_raised in Hs as (l & st' & Hin & Hl). by destruct (H l st' e out Hin).
Qed.

(** C2.  On a text without an anchor line [Job.read] neither returns
    nor prints the report on the required fields, whatever the number
    of iterations it is given: a line may stop it (an [auto=] value,
    a count), and otherwise the loop goes on for ever on the empty
    lines of the end of the buffer. *)
Theorem read_without_anchor text :
  has_anchor text = false ->
  forall fuel self0,
    (forall o, read fuel self0 text <> Some (Returned o)) /\
    (forall e st, read fuel self0 text <> Some (Raised e (report st))) /\
    ((forall l st e out, In l (split_lines text) -> read_line l st <> Raised e out) ->
     read fuel self0 text = None).
Proof.
  intros Ha fuel self0. unfold read.
  destruct (read_loop_no_anchor fuel text
              (PState (read_defaults self0) optional_init required_init) Ha)
    as [-> | (e & out & -> & Hs)]; [done |].
  apply scan_raised in Hs as (l & st' & Hin & Hl).
  split; [done |]. split.
  - intros e' st [= <- Hout].
    pose proof (report_length st) as Hlen. rewrite <- Hout in Hlen.
    apply read_line_raised in Hl as [[_ ->]|(s & _ & ->)]; simpl in Hlen; lia.
  - intros H. by destruct (H l st' e out Hin).
Qed.

Lemma read_without_anchor_witness :
  has_anchor ("#PBS -N job1" ++ nl) = false /\
  (forall o, read 1000 ∅ ("#PBS -N job1" ++ nl) <> Some (Returned o)) /\
  (forall e st, read 1000 ∅ ("#PBS -N job1" ++ nl) <> Some (Raised e (report st))) /\
  read 1000 ∅ ("#PBS -N job1" ++ nl) = None.
Proof.
  split; [reflexivity |].
  destruct (read_without_anchor ("#PBS -N job1" ++ nl) eq_refl 1000 ∅)
    as (H1 & H2 & H3).
  split; [exact H1 |]. split; [exact H2 |].
  apply H3. intros l st e out Hin. vm_compute in Hin.
  destruct Hin as [<-|[]]. intros H.
  assert (read_line ("#PBS -N " ++ "job1" ++ nl) st = Raised e out) as H'
    by exact H.
  rewrite (proj1 (line_N st "job1" eq_refl)) in H'. discriminate H'.
Defined.

(** The empty script, and a script that stops after its directives:
    no number of iterations is enough. *)
Lemma read_empty_diverges fuel self0 : read fuel self0 "" = None.
Proof. unfold read. by rewrite read_loop_end. Qed.

Lemma read_directives_only_diverges fuel self0 :
  read fuel self0 ("#PBS -N job1" ++ nl ++ "#PBS -q flux" ++ nl) = None.
Proof.
  apply read_clean_diverges; [reflexivity |].
  intros l st e out Hin. vm_compute in Hin.
  destruct Hin as [<-|[<-|[]]]; intros H.
  - assert (read_line ("#PBS -N " ++ "job1" ++ nl) st = Raised e out) as H'
      by exact H.
    by rewrite (proj1 (line_N st "job1" eq_refl)) in H'.
  - assert (read_line ("#PBS -q " ++ "flux" ++ nl) st = Raised e out) as H'
      by exact H.
    by rewrite (proj1 (line_q st "flux" eq_refl)) in H'.
Qed.

(** ** What follows the anchor *)

Lemma join_app (ls1 ls2 : list string) :
  join (ls1 ++ ls2)%list = join ls1 ++ join ls2.
Proof.
  induction ls1 as [|l ls1 IH]; simpl; [done |]. by rewrite IH, append_assoc.
Qed.

Lemma split_lines_nonnil c s : split_lines (String c s) <> [].
Proof.
  simpl. destruct (Ascii.eqb c nl_char); [done |]. by destruct (split_lines s).
Qed.

Lemma split_lines_app a b :
  ends_with_nl a = true ->
  split_lines (a ++ b) = (split_lines a ++ split_lines b)%list.
Proof.
  induction a as [|c a IH]; [done |]. intros Ha. simpl in *.
  destruct a as [|c' a].
  - by rewrite Ha.
  - rewrite (IH Ha). destruct (Ascii.eqb c nl_char); [done |].
    pose proof (split_lines_nonnil c' a).
    by destruct (split_lines (String c' a)).
Qed.

Lemma ends_with_nl_tl s :
  ends_with_nl s = true -> ends_with_nl (join (tl (split_lines s))) = true.
Proof.
  induction s as [|c s IH]; [done |]. intros Hs. simpl in *.
  destruct (Ascii.eqb c nl_char) eqn:E.
  - simpl. rewrite join_split_lines. by destruct s.
  - destruct s as [|c' s]; [congruence |]. specialize (IH Hs).
    pose proof (split_lines_nonnil c' s).
    by destruct (split_lines (String c' s)).
Qed.

Lemma readline_app head payload :
  ends_with_nl head = true -> head <> "" ->
  readline (head ++ payload) =
  (hd "" (split_lines head), join (tl (split_lines head)) ++ payload).
Proof.
  intros Hh Hne. rewrite readline_split_lines, split_lines_app by done.
  destruct head as [|c head]; [done |].
  pose proof (split_lines_nonnil c head).
  destruct (split_lines (String c head)); [done |]. simpl.
  by rewrite join_app, join_split_lines.
Qed.

(** The loop on a text that starts with complete lines: it scans
    them, and what follows them is not looked at before they are
    done. *)
Lemma read_loop_head fuel head payload st :
  ends_with_nl head = true ->
  (length (split_lines head) < fuel)%nat ->
  read_loop fuel (head ++ payload) st =
  match scan (split_lines head) st with
  | ScanRaised e out => Some (Raised e out)
  | ScanAnchor st' rest => Some (Returned (read_command (rest ++ payload) st'))
  | ScanEnd st' => read_loop (fuel - length (split_lines head)) payload st'
  end.
Proof.
  remember (split_lines head) as ls eqn:E. revert head st fuel E.
  induction ls as [|l ls IH]; intros head st fuel E Hh Hfuel.
  - destruct head as [|c head]; [simpl; by rewrite Nat.sub_0_r |].
    by destruct (split_lines_nonnil c head).
  - destruct fuel as [|fuel]; [simpl in Hfuel; lia |].
    assert (head <> "") as Hne by (by intros ->).
    cbn [read_loop scan]. rewrite readline_app, <- E by done. simpl hd. simpl tl.
    destruct (read_line l st) as [st'|e out]; [| done].
    destruct (re_search re_cd l); [done |].
    simpl length. rewrite Nat.sub_succ. apply IH; [| | simpl in Hfuel; lia].
    + pose proof (split_lines_join_tl head) as H. by rewrite <- E in H.
    + pose proof (ends_with_nl_tl head Hh) as H. by rewrite <- E in H.
Qed.

Lemma scan_anchor_is_last ls st :
  anchor_is_last ls = true ->
  match scan ls st with
  | ScanRaised _ _ => True
  | ScanAnchor _ rest => rest = ""
  | ScanEnd _ => False
  end.
Proof.
  revert st. induction ls as [|l ls IH]; intros st; [done |].
  cbn [anchor_is_last scan]. unfold is_anchor.
  destruct (read_line l st) as [st'|e out]; [| by destruct ls].
  destruct ls as [|l' ls].
  - by destruct (re_search re_cd l).
  - destruct (re_search re_cd l); [done |]. simpl negb. rewrite andb_true_l.
    apply IH.
Qed.

Lemma check_required_returned st o :
  check_required st = Returned o ->
  o = self st /\ forall k v, required st !! k = Some v -> v <> not_found.
Proof.
  unfold check_required. destruct (existsb _ _) eqn:E; [done |].
  intros [= <-]. split; [done |]. intros k v Hk ->.
  assert (existsb (λ kv : string * pyval, py_eq kv.2 not_found)
            (map_to_list (required st)) = true) as E'; [| congruence].
  apply existsb_exists. exists (k, not_found). split.
  - by apply list_elem_of_In, elem_of_map_to_list.
  - unfold py_eq. by apply bool_decide_eq_true.
Qed.

(** What [Job.read] does on a text made of a head that stops right
    after its first anchor line, followed by a payload. *)
Lemma read_head_payload head fuel self0 :
  anchor_last head = true ->
  (length (split_lines head) < fuel)%nat ->
  (exists e out, forall p, read fuel self0 (head ++ p) = Some (Raised e out)) \/
  (exists st, forall p,
     read fuel self0 (head ++ p) = Some (check_required (read_command p st))).
Proof.
  unfold anchor_last. intros [Hh Ha]%andb_prop Hfuel. unfold read.
  pose proof (scan_anchor_is_last _
    (PState (read_defaults self0) optional_init required_init) Ha) as Hs.
  destruct (scan (split_lines head) _) as [e out|st rest|st] eqn:E; [| | done].
  - left. exists e, out. intros p. by rewrite read_loop_head, E.
  - right. exists st. intros p. rewrite read_loop_head, E by done. by subst.
Qed.

(** A text is its lines up to the first anchor line followed by the
    lines after it. *)
Lemma upto_after_anchor ls :
  ls = (upto_anchor ls ++ (if existsb is_anchor ls then after_anchor ls else []))%list.
Proof.
  induction ls as [|l ls IH]; [done |]. cbn [upto_anchor after_anchor existsb].
  destruct (is_anchor l); [done |]. cbn [orb app]. by rewrite <- IH.
Qed.

Lemma text_upto_after text :
  has_anchor text = true ->
  text = join (upto_anchor (split_lines text)) ++
         join (after_anchor (split_lines text)).
Proof.
  unfold has_anchor. intros H.
  rewrite <- join_app. rewrite <- (join_split_lines text) at 1.
  f_equal. rewrite (upto_after_anchor (split_lines text)) at 1. by rewrite H.
Qed.

Lemma anchor_is_last_upto ls :
  existsb is_anchor ls = true -> anchor_is_last (upto_anchor ls) = true.
Proof.
  induction ls as [|l ls IH]; [done |]. cbn [existsb upto_anchor].
  destruct (is_anchor l) eqn:E; [by simpl |]. cbn [orb]. intros H.
  cbn [anchor_is_last]. rewrite E, (IH H).
  destruct ls as [|l' ls]; [done |]. cbn [upto_anchor].
  by destruct (is_anchor l').
Qed.

(** The loop leaves at the first anchor line, after one iteration for
    each line up to it, with the rest of the buffer. *)
Lemma read_loop_upto fuel text st :
  has_anchor text = true ->
  (length (upto_anchor (split_lines text)) <= fuel)%nat ->
  read_loop fuel text st =
  match scan (upto_anchor (split_lines text)) st with
  | ScanRaised e out => Some (Raised e out)
  | ScanAnchor st' _ =>
      Some (Returned (read_command (join (after_anchor (split_lines text))) st'))
  | ScanEnd _ => None
  end.
Proof.
  unfold has_anchor. revert text st.
  induction fuel as [|fuel IH]; intros text st Ha Hfuel.
  - destruct (split_lines text) as [|l ls]; [done |].
    cbn [upto_anchor] in Hfuel. destruct (is_anchor l); simpl in Hfuel; lia.
  - cbn [read_loop]. rewrite readline_split_lines.
    pose proof (split_lines_join_tl text) as Htl.
    destruct (split_lines text) as [|l ls]; [done |].
    cbn [hd tl] in *. cbn [upto_anchor after_anchor existsb] in *.
    unfold is_anchor in *.
    destruct (re_search re_cd l) eqn:E.
    + cbn [scan]. rewrite E. by destruct (read_line l st).
    + cbn [scan]. rewrite E. destruct (read_line l st) as [st'|e out]; [| done].
      cbn [orb] in Ha. cbn [length] in Hfuel.
      rewrite (IH (join ls) st'); rewrite Htl; [done | done | lia].
Qed.

Lemma scan_to_anchor ls st :
  anchor_is_last ls = true ->
  (forall l st' e out, In l ls -> read_line l st' <> Raised e out) ->
  exists st1, scan ls st = ScanAnchor st1 "".
Proof.
  intros Ha Hclean. pose proof (scan_anchor_is_last ls st Ha) as Hs.
  destruct (scan ls st) as [e out|st1 rest|st1] eqn:E; [| | done].
  - apply scan_raised in E as (l & st' & Hin & Hl). by destruct (Hclean l st' e out Hin).
  - subst. by exists st1.
Qed.

(** C7 (as amended).  For every text with an anchor line in which no
    line up to the first anchor line stops the parse: the text is
    the lines up to that line followed by the payload; the loop of
    [Job.read] leaves at that line, after one iteration for each line
    up to it, with the payload, character for character, as the
    command, every other attribute being what the lines up to the
    anchor alone give.  [Job.read] then ends with the check on that
    state: when it returns, the object is the one of the head with
    the payload as command, and it does return when the head has set
    the required fields and the payload is not the words Not Found.
    Any other text with the same lines up to its first anchor line
    leaves the loop in the same state but for its own payload as the
    command: no line of a payload is read as a directive. *)
Theorem payload_verbatim text self0 :
  has_anchor text = true ->
  (forall l st e out, In l (head_lines text) -> read_line l st <> Raised e out) ->
  text = join (head_lines text) ++ payload_of text /\
  exists st,
    scan (head_lines text)
      (PState (read_defaults self0) optional_init required_init) = ScanAnchor st "" /\
    (forall fuel,
      (length (head_lines text) <= fuel)%nat ->
      read_loop fuel text
        (PState (read_defaults self0) optional_init required_init) =
        Some (Returned (read_command (payload_of text) st)) /\
      self (read_command (payload_of text) st) !! "command" =
        Some (PStr (payload_of text)) /\
      (forall k, k <> "command" ->
         self (read_command (payload_of text) st) !! k = self st !! k) /\
      read fuel self0 text =
        Some (check_required (read_command (payload_of text) st)) /\
      (forall o, read fuel self0 text = Some (Returned o) ->
         o = <["command" := PStr (payload_of text)]> (self st)) /\
      ((forall k v, required st !! k = Some v -> k <> "command" ->
          k <> "cd $PBS_O_WORKDIR" -> v <> not_found) ->
       payload_of text <> "Not Found" ->
       read fuel self0 text =
         Some (Returned (<["command" := PStr (payload_of text)]> (self st))))) /\
    (forall text' fuel,
       has_anchor text' = true -> head_lines text' = head_lines text ->
       (length (head_lines text) <= fuel)%nat ->
       read_loop fuel text'
         (PState (read_defaults self0) optional_init required_init) =
         Some (Returned (read_command (payload_of text') st))).
Proof.
  unfold head_lines, payload_of.
  intros Ha Hclean. split; [by apply text_upto_after |].
  destruct (scan_to_anchor _ (PState (read_defaults self0) optional_init required_init)
              (anchor_is_last_upto _ Ha) Hclean) as [st Hs].
  exists st. split; [exact Hs |]. split; [intros fuel Hfuel | ].
  2: { intros text' fuel Ha' Hh Hfuel.
       rewrite read_loop_upto; [by rewrite Hh, Hs | done | by rewrite Hh]. }
  set (payload := join (after_anchor (split_lines text))).
  assert (read_loop fuel text
            (PState (read_defaults self0) optional_init required_init) =
          Some (Returned (read_command payload st))) as Hloop
    by (by rewrite read_loop_upto, Hs).
  assert (read fuel self0 text =
          Some (check_required (read_command payload st))) as Hread.
  { unfold read. by rewrite Hloop. }
  split; [exact Hloop |].
  split; [unfold read_command; simpl; by rewrite lookup_insert_eq |].
  split; [intros k Hk; unfold read_command; simpl; by rewrite lookup_insert_ne |].
  split; [exact Hread |]. split.
  - intros o. rewrite Hread. intros [= Hc].
    by apply check_required_returned in Hc as [-> _].
  - intros Hreq Hp. rewrite Hread. f_equal. rewrite check_required_ok; [done |].
    intros k v. unfold read_command, set_required, set_attr. cbn [required].
    rewrite !lookup_insert. repeat case_decide; subst.
    + intros [= <-] [= ->]. done.
    + intros [= <-]. done.
    + intros Hv. by apply (Hreq k).
Qed.

Lemma masked_text_clean l st e out :
  In l (head_lines masked_text) -> read_line l st <> Raised e out.
Proof.
  intros Hin. vm_compute in Hin.
  destruct Hin as [<-|[<-|[<-|[<-|[<-|[]]]]]]; intros H.
  - assert (read_line ("#PBS -N " ++ "job1" ++ nl) st = Raised e out) as H'
      by exact H.
    by rewrite (proj1 (line_N st "job1" eq_refl)) in H'.
  - assert (read_line ("#PBS -l walltime=" ++ "10:00:00" ++ nl) st = Raised e out)
      as H' by exact H.
    by rewrite (proj1 (line_walltime st "10:00:00" eq_refl)) in H'.
  - assert (read_line ("#PBS -l nodes=" ++ py_str_of_Z 2 ++ ":ppn=" ++
                       py_str_of_Z 16 ++ nl) st = Raised e out) as H' by exact H.
    by rewrite (proj1 (line_nodes 2 16 st)) in H'.
  - assert (read_line ("#PBS -q " ++ "flux" ++ nl) st = Raised e out) as H'
      by exact H.
    by rewrite (proj1 (line_q st "flux" eq_refl)) in H'.
  - assert (read_line ("cd $PBS_O_WORKDIR" ++ nl) st = Raised e out) as H'
      by exact H.
    by rewrite (proj1 (line_anchor st)) in H'.
Qed.

Lemma payload_verbatim_witness :
  masked_text = join (head_lines masked_text) ++ payload_of masked_text /\
  exists st,
    scan (head_lines masked_text)
      (PState (read_defaults ∅) optional_init required_init) = ScanAnchor st "" /\
    (forall fuel,
      (length (head_lines masked_text) <= fuel)%nat ->
      read_loop fuel masked_text
        (PState (read_defaults ∅) optional_init required_init) =
        Some (Returned (read_command (payload_of masked_text) st)) /\
      self (read_command (payload_of masked_text) st) !! "command" =
        Some (PStr (payload_of masked_text)) /\
      (forall k, k <> "command" ->
         self (read_command (payload_of masked_text) st) !! k = self st !! k) /\
      read fuel ∅ masked_text =
        Some (check_required (read_command (payload_of masked_text) st)) /\
      (forall o, read fuel ∅ masked_text = Some (Returned o) ->
         o = <["command" := PStr (payload_of masked_text)]> (self st)) /\
      ((forall k v, required st !! k = Some v -> k <> "command" ->
          k <> "cd $PBS_O_WORKDIR" -> v <> not_found) ->
       payload_of masked_text <> "Not Found" ->
       read fuel ∅ masked_text =
         Some (Returned (<["command" := PStr (payload_of masked_text)]> (self st))))) /\
    (forall text' fuel,
       has_anchor text' = true -> head_lines text' = head_lines masked_text ->
       (length (head_lines masked_text) <= fuel)%nat ->
       read_loop fuel text'
         (PState (read_defaults ∅) optional_init required_init) =
         Some (Returned (read_command (payload_of text') st))).
Proof.
  apply (payload_verbatim masked_text ∅); [reflexivity | apply masked_text_clean].
Defined.

(** The payload of the example is its last two lines, the directive
    look-alike included. *)
Example masked_text_payload :
  payload_of masked_text = "#PBS -N other" ++ nl ++ "echo hi" ++ nl.
Proof. reflexivity. Qed.

(** C7 as stated fails on a text whose first line stops the parse:
    the text has an anchor line, and [Job.read] raises before it gets
    there, for any number of iterations, so that what follows the
    anchor is never made the command. *)
Lemma payload_verbatim_counterexample :
  has_anchor stopped_text = true /\
  payload_of stopped_text = "echo hi" ++ nl /\
  (forall self0,
     scan (split_lines stopped_text)
       (PState (read_defaults self0) optional_init required_init) =
     ScanRaised (NameError "sys") [auto_error ++ " #auto=maybe" ++ nl]) /\
  (forall fuel self0,
     read (S fuel) self0 stopped_text =
     Some (Raised (NameError "sys") [auto_error ++ " #auto=maybe" ++ nl])) /\
  (forall fuel self0 o, read fuel self0 stopped_text <> Some (Returned o)).
Proof.
  assert (forall fuel self0,
     read (S fuel) self0 stopped_text =
     Some (Raised (NameError "sys") [auto_error ++ " #auto=maybe" ++ nl])) as H
    by (intros; reflexivity).
  split; [reflexivity |]. split; [reflexivity |]. split; [intros; reflexivity |].
  split; [exact H |].
  intros [|fuel] self0 o; [done |]. by rewrite H.
Qed.

(** A payload whose first line looks like a name directive: the name
    read is the name of the head, and the line is part of the
    command. *)
Example payload_directive_not_read :
  init 22 (from_script (script job4)) = Some (Returned (to_obj (reread job4))) /\
  to_obj (reread job4) !! "name" = Some (PStr "job1") /\
  to_obj (reread job4) !! "command" =
    Some (PStr ("#PBS -N other" ++ nl ++ "echo hi" ++ nl)).
Proof.
  split; [rewrite init_from_script; apply read_script; [reflexivity | lia] |].
  split; reflexivity.
Qed.

(** ** Blanks in a directive line *)

Lemma re_search_skip_spaces x p r w s :
  string_forall is_space w = true -> is_space x = false ->
  re_search (Lit (String x p) +++ r) (w ++ s) =
  re_search (Lit (String x p) +++ r) s.
Proof.
  intros Hw Hx. induction w as [|c w IH]; [done |]. simpl in *.
  apply andb_prop in Hw as [Hc Hw]. rewrite re_search_next; [by apply IH |].
  apply re_match_lit_none. simpl.
  destruct (Ascii.eqb_spec x c) as [->|]; [congruence | done].
Qed.

Lemma blanks_spaces w :
  blanks w = true -> string_forall is_space w = true /\ w <> "".
Proof.
  unfold blanks. intros [Hw Hne]%andb_prop. split.
  - apply (string_forall_impl is_blank); [| done].
    unfold is_blank. by intros c [? _]%andb_prop.
  - intros ->. done.
Qed.

(** [\s-l\s] is found where blanks surround the flag. *)
Lemma re_search_l_blanks w1 w2 rest :
  string_forall is_space w1 = true -> w1 <> "" ->
  string_forall is_space w2 = true -> w2 <> "" ->
  re_search re_l (w1 ++ "-l" ++ w2 ++ rest) = Some [].
Proof.
  intros H1 Hne1 H2 Hne2. destruct w2 as [|c2 w2]; [done |].
  simpl in H2. apply andb_prop in H2 as [Hc2 _].
  induction w1 as [|c w1 IH]; [done |]. simpl in H1.
  apply andb_prop in H1 as [Hc H1]. destruct w1 as [|c' w1].
  - apply re_search_here. unfold re_match, re_l.
    simpl. rewrite !rmatch_seq, rmatch_chr. cbn [cls_mem]. rewrite Hc.
    rewrite rmatch_seq, rmatch_lit. simpl. rewrite rmatch_chr. cbn [cls_mem].
    by rewrite Hc2.
  - simpl. rewrite re_search_next; [by apply IH |].
    unfold re_match, re_l. rewrite !rmatch_seq, rmatch_chr. cbn [cls_mem].
    rewrite Hc, rmatch_seq, rmatch_lit. simpl in H1.
    apply andb_prop in H1 as [Hc' _]. cbn [strip_prefix String.append].
    destruct (Ascii.eqb_spec "-" c') as [<-|]; [done | done].
Qed.

Lemma strip_prefix_space x q w s :
  w <> "" -> string_forall is_space w = true -> is_space x = false ->
  strip_prefix (String x q) (w ++ s) = None.
Proof.
  intros Hne Hw Hx. destruct w as [|c w]; [done |]. simpl in *.
  apply andb_prop in Hw as [Hc _].
  destruct (Ascii.eqb_spec x c) as [->|]; [congruence | done].
Qed.

Lemma re_match_lit_then_spaces a x q r w s :
  w <> "" -> string_forall is_space w = true -> is_space x = false ->
  re_match (Lit (String a (String x q)) +++ r) (String a (w ++ s)) = None.
Proof.
  intros Hne Hw Hx. apply re_match_lit_none. cbn [strip_prefix].
  rewrite Ascii.eqb_refl. by apply strip_prefix_space.
Qed.

Ltac unfold_patterns :=
  unfold re_N, re_A, re_a, re_q, re_M, re_m, re_p, re_walltime, re_pmem,
    re_nodes, re_auto, re_cd, re_PBS, flag, resource.

Ltac walk_blanks :=
  simpl;
  repeat first
    [ rewrite re_search_next by reflexivity
    | rewrite re_search_next
        by (apply re_match_lit_then_spaces;
            [assumption | assumption | reflexivity])
    | rewrite re_search_skip_spaces by (first [assumption | reflexivity]) ].

Ltac search_none_blanks :=
  unfold_patterns; walk_blanks;
  first
    [ reflexivity
    | apply re_search_two_blanks;
      [done | solve [auto with line] | solve [auto with line]]
    | apply (re_search_absent "="); [reflexivity | solve [auto with line]]
    | apply (re_search_absent "w"); [reflexivity | assumption]
    | apply (re_search_absent "m"); [reflexivity | assumption]
    | apply (re_search_absent "u"); [reflexivity | assumption] ].

Ltac search_some_blanks :=
  unfold_patterns; walk_blanks; apply re_search_here;
  lazymatch goal with
  | |- re_match (Lit ?f +++ Plus (Chr Space) +++ _) ?s = _ =>
      lazymatch s with
      | context [?w ++ ?v ++ nl] =>
          apply (re_match_flag f w v); [assumption | assumption | auto with line]
      end
  | |- re_match (Lit ?f +++ Group 1 _ +++ Chr Space) ?s = _ =>
      lazymatch s with
      | context [?v ++ nl] => apply (re_match_resource f v); auto with line
      end
  | |- _ => reflexivity
  end.

Ltac settle_searches_blanks :=
  repeat match goal with
    | |- context [re_search ?r ?s] =>
        let H := fresh in
        first
          [ assert (re_search r s = None) as H by search_none_blanks
          | eassert (re_search r s = Some _) as H by search_some_blanks
          | assert (re_search r s = Some []) as H
              by (walk_blanks; apply re_search_l_blanks; assumption) ];
        rewrite H; clear H
    | |- context [re_match ?r ?s] =>
        let H := fresh in
        assert (re_match r s = None) as H by match_none;
        rewrite H; clear H
    end.

Ltac spaced_line_tac :=
  split;
  unfold is_anchor, read_line, read_directives, read_auto, read_resources;
  settle_searches_blanks;
  repeat match goal with
    | |- context [re_search ?r ?s] => destruct (re_search r s)
    end;
  reflexivity.

Section SpacedLines.
Variables (w1 w2 : string) (st : pstate).
Hypothesis Hw1 : string_forall is_space w1 = true.
Hypothesis Hne1 : w1 <> "".
Hypothesis Hw2 : string_forall is_space w2 = true.
Hypothesis Hne2 : w2 <> "".
Variable v : string.
Hypothesis Hv : token v = true.

Lemma spaced_N :
  line_reads ("#PBS" ++ w1 ++ "-N" ++ w2 ++ v ++ nl) st
    (found_required "name" v st).
Proof. spaced_line_tac. Qed.

Lemma spaced_A :
  line_reads ("#PBS" ++ w1 ++ "-A" ++ w2 ++ v ++ nl) st
    (found_optional "account" v st).
Proof. spaced_line_tac. Qed.

Lemma spaced_a :
  line_reads ("#PBS" ++ w1 ++ "-a" ++ w2 ++ v ++ nl) st
    (found_optional "exetime" v st).
Proof. spaced_line_tac. Qed.

Lemma spaced_q :
  line_reads ("#PBS" ++ w1 ++ "-q" ++ w2 ++ v ++ nl) st
    (found_required "queue" v st).
Proof. spaced_line_tac. Qed.

Lemma spaced_walltime :
  line_reads ("#PBS" ++ w1 ++ "-l" ++ w2 ++ "walltime=" ++ v ++ nl) st
    (found_required "walltime" v st).
Proof. spaced_line_tac. Qed.

Lemma spaced_pmem :
  line_reads ("#PBS" ++ w1 ++ "-l" ++ w2 ++ "pmem=" ++ v ++ nl) st
    (found_optional "pmem" v st).
Proof. spaced_line_tac. Qed.
End SpacedLines.

Lemma spaced_nodes w1 w2 n p st :
  string_forall is_space w1 = true -> w1 <> "" ->
  string_forall is_space w2 = true -> w2 <> "" ->
  line_reads ("#PBS" ++ w1 ++ "-l" ++ w2 ++ "nodes=" ++ py_str_of_Z n ++
              ":ppn=" ++ py_str_of_Z p ++ nl)
    st (set_required "ppn" (PInt p) (set_required "nodes" (PInt n)
          (set_attr "ppn" (PInt p) (set_attr "nodes" (PInt n) st)))).
Proof.
  intros Hw1 Hne1 Hw2 Hne2.
  pose proof (py_str_of_Z_chars n) as Ha. pose proof (py_str_of_Z_chars p) as Hb.
  pose proof (py_int_of_Z n) as Hn. pose proof (py_int_of_Z p) as Hp.
  set (a := py_str_of_Z n) in *. set (b := py_str_of_Z p) in *.
  assert (re_search re_nodes
            ("#PBS" ++ w1 ++ "-l" ++ w2 ++ "nodes=" ++ a ++ ":ppn=" ++ b ++ nl)
          = Some [(2, b); (1, a)]) as Hit.
  { unfold re_nodes. walk_blanks. apply re_search_here.
    apply (re_match_nodes a b).
    - apply not_space_not_nl, (string_forall_impl sign_or_digit); [| done].
      intros c. apply sign_or_digit_cases.
    - apply not_space_not_nl, (string_forall_impl sign_or_digit); [| done].
      intros c. apply sign_or_digit_cases.
    - by apply numeral_chars. }
  assert (forall c, sign_or_digit c = false -> string_mem c ":ppn=" = false ->
            Ascii.eqb c nl_char = false ->
            string_mem c ((a ++ ":ppn=" ++ b) ++ nl) = false) as Habs.
  { intros c Hc Hc' Hc''. rewrite !string_mem_app, Hc'.
    rewrite (numeral_chars a c Ha Hc), (numeral_chars b c Hb Hc). simpl.
    by rewrite Hc''. }
  assert (string_forall not_space (a ++ ":ppn=" ++ b) = true) as Hv.
  { rewrite !string_forall_app.
    rewrite (string_forall_impl sign_or_digit not_space a),
      (string_forall_impl sign_or_digit not_space b); try done;
      intros c; apply sign_or_digit_cases. }
  pose proof (Habs "w"%char eq_refl eq_refl eq_refl) as Hw.
  pose proof (Habs "m"%char eq_refl eq_refl eq_refl) as Hm.
  pose proof (Habs "u"%char eq_refl eq_refl eq_refl) as Hu.
  clear Habs.
  split; unfold is_anchor, read_line, read_directives, read_auto, read_resources;
    rewrite ?Hit; clear Hit;
    replace (a ++ ":ppn=" ++ b ++ nl) with ((a ++ ":ppn=" ++ b) ++ nl)
      by (by rewrite !append_assoc);
    generalize dependent (a ++ ":ppn=" ++ b); intros v Hv Hw Hm Hu;
    settle_searches_blanks.
  - change (group 1 [(2, b); (1, a)]) with a.
    change (group 2 [(2, b); (1, a)]) with b. by rewrite Hn, Hp.
  - reflexivity.
Qed.

(** The line of a directive, with any blanks, is read as the
    directive. *)
Lemma directive_line_reads w1 w2 d st :
  blanks w1 = true -> blanks w2 = true -> wf_directive d = true ->
  line_reads (directive_line w1 w2 d) st (directive_effect d st).
Proof.
  intros [H1 Hne1]%blanks_spaces [H2 Hne2]%blanks_spaces Hd.
  destruct d; simpl in Hd; cbn [directive_line directive_effect];
    eauto using spaced_N, spaced_A, spaced_a, spaced_q, spaced_walltime,
      spaced_pmem, spaced_nodes.
Qed.

(** ** The order of the directives *)

Lemma scan_items its st :
  forallb wf_item its = true ->
  scan (map item_line its) st = ScanEnd (items_effect its st).
Proof.
  revert st. induction its as [|[[w1 w2] d] its IH]; intros st; [done |].
  cbn [forallb map scan items_effect fold_left].
  intros [Hit Hits]%andb_prop. unfold wf_item in Hit. simpl in Hit.
  apply andb_prop in Hit as [[H1 H2]%andb_prop Hd].
  destruct (directive_line_reads w1 w2 d st H1 H2 Hd) as [Hl Ha].
  unfold item_line at 1 2. cbn [fst snd]. rewrite Hl. unfold is_anchor in Ha.
  destruct (re_search re_cd (directive_line w1 w2 d)); [done |].
  by apply IH.
Qed.

Lemma directive_effect_comm d1 d2 st :
  directive_field d1 <> directive_field d2 ->
  directive_effect d1 (directive_effect d2 st) =
  directive_effect d2 (directive_effect d1 st).
Proof.
  intros Hne.
  destruct d1, d2; try done; clear Hne;
    unfold directive_effect, found_required, found_optional, set_required,
      set_optional, set_attr; cbn [self optional required];
    f_equal; apply map_eq; intros k; rewrite !lookup_insert;
    repeat (case_decide; simplify_eq; try done).
Qed.

Lemma items_effect_perm its its' st :
  Permutation its its' -> NoDup (item_field <$> its) ->
  items_effect its st = items_effect its' st.
Proof.
  intros Hp. revert st.
  induction Hp as [|x l l' Hp IH|x y l|l l' l'' Hp1 IH1 Hp2 IH2]; intros st Hnd.
  - done.
  - cbn [items_effect fold_left]. apply IH.
    rewrite fmap_cons in Hnd. by apply NoDup_cons in Hnd as [_ ?].
  - cbn [items_effect fold_left]. f_equal. apply directive_effect_comm.
    rewrite !fmap_cons in Hnd. apply NoDup_cons in Hnd as [Hin _].
    intros Heq. apply Hin. rewrite elem_of_cons. left. by symmetry.
  - rewrite IH1 by done. apply IH2. by rewrite <- Hp1.
Qed.

Lemma wf_items_perm its its' :
  Permutation its its' -> forallb wf_item its = true ->
  forallb wf_item its' = true.
Proof.
  intros Hp H. apply forallb_forall. intros x Hx.
  apply (proj1 (forallb_forall _ _) H). by apply (Permutation_in _ (Permutation_sym Hp)).
Qed.


Lemma lstrip_spaces w s : string_forall is_space w = true -> lstrip (w ++ s) = lstrip s.
Proof.
  induction w as [|c w IH]; [done |]. simpl. intros [Hc Hw]%andb_prop.
  rewrite Hc. by apply IH.
Qed.

Lemma lstrip_all_spaces w : string_forall is_space w = true -> lstrip w = "".
Proof.
  induction w as [|c w IH]; [done |]. simpl. intros [Hc Hw]%andb_prop.
  rewrite Hc. by apply IH.
Qed.

Lemma rstrip_spaces w : string_forall is_space w = true -> rstrip w = "".
Proof.
  induction w as [|c w IH]; [done |]. simpl. intros [Hc Hw]%andb_prop.
  by rewrite (IH Hw), Hc.
Qed.

Lemma rstrip_app_spaces s w :
  string_forall is_space w = true -> rstrip (s ++ w) = rstrip s.
Proof.
  intros Hw. induction s as [|c s IH]; simpl; [by apply rstrip_spaces |].
  by rewrite IH.
Qed.

Lemma strip_app_spaces s w :
  string_forall is_space w = true ->
  rstrip (lstrip (s ++ w)) = rstrip (lstrip s).
Proof.
  intros Hw. induction s as [|c s IH]; simpl.
  - by rewrite (lstrip_all_spaces w Hw).
  - destruct (is_space c); [done |].
    change (String c (s ++ w)) with (String c s ++ w). by apply rstrip_app_spaces.
Qed.

Lemma lstrip_app_spaces s w :
  string_forall is_space w = true ->
  lstrip (s ++ w) = match lstrip s with "" => "" | t => t ++ w end.
Proof.
  intros Hw. induction s as [|c s IH]; simpl.
  - by rewrite (lstrip_all_spaces w Hw).
  - by destruct (is_space c).
Qed.

(** [int] drops the blanks around a numeral. *)
Lemma int_of_str_pad wa s wb :
  string_forall is_space wa = true -> string_forall is_space wb = true ->
  int_of_str (wa ++ s ++ wb) = int_of_str s.
Proof.
  intros Ha Hb. unfold int_of_str.
  rewrite (lstrip_spaces wa _ Ha), (lstrip_app_spaces s wb Hb).
  destruct (lstrip s) as [|c r]; [done |].
  cbn [String.append].
  destruct (Ascii.eqb c "-"); [by rewrite (strip_app_spaces r wb Hb) |].
  destruct (Ascii.eqb c "+"); [by rewrite (strip_app_spaces r wb Hb) |].
  change (String c (r ++ wb)) with (String c r ++ wb).
  by rewrite (strip_app_spaces _ wb Hb).
Qed.

Lemma is_blank_space w :
  string_forall is_blank w = true ->
  string_forall is_space w = true /\ string_forall not_nl w = true.
Proof.
  induction w as [|c w IH]; [done |]. simpl. intros [Hc Hw]%andb_prop.
  destruct (IH Hw) as [-> ->]. unfold is_blank in Hc.
  apply andb_prop in Hc as [-> ->]. by split.
Qed.

Lemma spaces_mem c w :
  string_forall is_space w = true -> is_space c = false -> string_mem c w = false.
Proof. apply string_forall_mem. Qed.

Lemma numeral_mem c z : sign_or_digit c = false -> string_mem c (py_str_of_Z z) = false.
Proof. apply numeral_chars, py_str_of_Z_chars. Qed.

Lemma counts_line_reads w1 w2 wa wb wc wd n p st :
  blanks w1 = true -> blanks w2 = true ->
  string_forall is_blank wa = true -> string_forall is_blank wb = true ->
  string_forall is_blank wc = true -> string_forall is_blank wd = true ->
  line_reads (counts_line w1 w2 wa wb wc wd n p) st
    (directive_effect (DNodes n p) st).
Proof.
  intros [H1 Hne1]%blanks_spaces [H2 Hne2]%blanks_spaces
    [Ha Ha']%is_blank_space [Hb Hb']%is_blank_space
    [Hc Hc']%is_blank_space [Hd Hd']%is_blank_space.
  unfold counts_line. cbn [directive_effect].
  assert (forall c, is_space c = false -> sign_or_digit c = false ->
            string_mem c "#PBS-lnodes=:ppn=" = false ->
            Ascii.eqb c nl_char = false ->
            string_mem c ("#PBS" ++ w1 ++ "-l" ++ w2 ++ "nodes=" ++ wa ++
              py_str_of_Z n ++ wb ++ ":ppn=" ++ wc ++ py_str_of_Z p ++ wd ++ nl)
            = false) as Habs.
  { intros c Hs Hn Hl Hnl. rewrite !string_mem_app.
    rewrite (spaces_mem c w1), (spaces_mem c w2), (spaces_mem c wa),
      (spaces_mem c wb), (spaces_mem c wc), (spaces_mem c wd), !numeral_mem by done.
    unfold nl. cbn [string_mem] in *. rewrite Hnl.
    repeat (apply orb_false_elim in Hl as [-> Hl]). done. }
  set (a := wa ++ py_str_of_Z n ++ wb) in *.
  set (b := wc ++ py_str_of_Z p ++ wd) in *.
  assert (py_int (PStr a) = Returned n) as Hn.
  { unfold a. cbn [py_int]. by rewrite int_of_str_pad, int_of_str_of_Z. }
  assert (py_int (PStr b) = Returned p) as Hp.
  { unfold b. cbn [py_int]. by rewrite int_of_str_pad, int_of_str_of_Z. }
  assert (re_search re_nodes
            ("#PBS" ++ w1 ++ "-l" ++ w2 ++ "nodes=" ++ a ++ ":ppn=" ++ b ++ nl)
          = Some [(2, b); (1, a)]) as Hit.
  { unfold re_nodes. walk_blanks. apply re_search_here.
    apply (re_match_nodes a b).
    - unfold a. rewrite !string_forall_app, Ha', Hb'.
      by rewrite (py_str_of_Z_not_nl n).
    - unfold b. rewrite !string_forall_app, Hc', Hd'.
      by rewrite (py_str_of_Z_not_nl p).
    - unfold b. rewrite !string_mem_app.
      by rewrite (spaces_mem _ wc), (spaces_mem _ wd), numeral_mem. }
  replace ("#PBS" ++ w1 ++ "-l" ++ w2 ++ "nodes=" ++ wa ++ py_str_of_Z n ++ wb ++
           ":ppn=" ++ wc ++ py_str_of_Z p ++ wd ++ nl)
    with ("#PBS" ++ w1 ++ "-l" ++ w2 ++ "nodes=" ++ a ++ ":ppn=" ++ b ++ nl) in *
    by (unfold a, b; by rewrite !append_assoc).
  clearbody a b.
  split; unfold is_anchor, read_line, read_directives, read_auto, read_resources;
    rewrite ?Hit; clear Hit;
    unfold re_N, re_A, re_a, re_q, re_walltime, re_pmem, re_auto, re_cd, flag, resource;
    rewrite
      ?(re_search_absent "N" "-N" _ _ eq_refl (Habs "N"%char eq_refl eq_refl eq_refl eq_refl)),
      ?(re_search_absent "A" "-A" _ _ eq_refl (Habs "A"%char eq_refl eq_refl eq_refl eq_refl)),
      ?(re_search_absent "a" "-a" _ _ eq_refl (Habs "a"%char eq_refl eq_refl eq_refl eq_refl)),
      ?(re_search_absent "q" "-q" _ _ eq_refl (Habs "q"%char eq_refl eq_refl eq_refl eq_refl)),
      ?(re_search_absent "w" "walltime=" _ _ eq_refl
          (Habs "w"%char eq_refl eq_refl eq_refl eq_refl)),
      ?(re_search_absent "m" "pmem=" _ _ eq_refl
          (Habs "m"%char eq_refl eq_refl eq_refl eq_refl)),
      ?(re_search_absent "u" "auto=" _ _ eq_refl
          (Habs "u"%char eq_refl eq_refl eq_refl eq_refl)),
      ?(re_search_absent "c" "cd" _ _ eq_refl
          (Habs "c"%char eq_refl eq_refl eq_refl eq_refl));
    settle_searches_blanks.
  - change (group 1 [(2, b); (1, a)]) with a.
    change (group 2 [(2, b); (1, a)]) with b. by rewrite Hn, Hp.
  - reflexivity.
Qed.

Lemma re_search_lit_skip_spaces x p w s :
  string_forall is_space w = true -> is_space x = false ->
  re_search (Lit (String x p)) (w ++ s) = re_search (Lit (String x p)) s.
Proof.
  intros Hw Hx. induction w as [|c w IH]; [done |]. simpl in *.
  apply andb_prop in Hw as [Hc Hw]. rewrite re_search_next; [by apply IH |].
  unfold re_match. rewrite rmatch_lit. cbn [strip_prefix].
  destruct (Ascii.eqb_spec x c) as [->|]; [congruence | done].
Qed.

Lemma re_search_l_skip_spaces w s :
  string_forall is_space w = true ->
  re_search re_l (w ++ String "#" s) = re_search re_l (String "#" s).
Proof.
  intros Hw. induction w as [|c w IH]; [done |]. simpl in *.
  apply andb_prop in Hw as [Hc Hw]. rewrite re_search_next; [by apply IH |].
  unfold re_match, re_l. rewrite rmatch_seq, rmatch_chr. cbn [cls_mem]. rewrite Hc.
  rewrite rmatch_seq, rmatch_lit. destruct w as [|c' w]; cbn [String.append strip_prefix].
  - done.
  - simpl in Hw. apply andb_prop in Hw as [Hc' _].
    destruct (Ascii.eqb_spec "-" c') as [<-|]; [done | done].
Qed.

(** A line that reads as a directive holds no [auto=] comment. *)
Lemma reads_as_no_auto l d : reads_as l d -> re_search re_auto l = None.
Proof.
  intros H. destruct (H (PState ∅ ∅ ∅)) as [Hl _].
  destruct (re_search re_auto l) as [m|] eqn:E; [exfalso | done].
  unfold read_line in Hl.
  destruct (read_directives l (PState ∅ ∅ ∅)) as [st1|] eqn:E1; [| done].
  cbn [mbind outcome_bind] in Hl. unfold read_auto in Hl. rewrite E in Hl.
  assert (forall b, optional (set_auto b st1) !! "auto" = Some (PBool b)) as Hb.
  { intros b. unfold set_auto, set_optional. cbn [optional]. by rewrite lookup_insert_eq. }
  assert (optional (directive_effect d (PState ∅ ∅ ∅)) !! "auto" = None) as Hd.
  { by destruct d. }
  destruct (re_match re_false (group 1 m)).
  { injection Hl as Hl. specialize (Hb false). unfold set_auto in Hb.
    rewrite Hl, Hd in Hb. done. }
  destruct (re_match re_true (group 1 m)); [| done].
  injection Hl as Hl. specialize (Hb true). unfold set_auto in Hb.
  rewrite Hl, Hd in Hb. done.
Qed.

Lemma leading_blanks_line w s st :
  string_forall is_space w = true ->
  re_search re_auto (String "#" s) = None ->
  read_line (w ++ String "#" s) st = read_line (String "#" s) st /\
  is_anchor (w ++ String "#" s) = is_anchor (String "#" s).
Proof.
  intros Hw Ha.
  assert (forall f r, f <> "" -> is_space (match f with String x _ => x | "" => " "%char end) = false ->
            re_search (Lit f +++ r) (w ++ String "#" s) =
            re_search (Lit f +++ r) (String "#" s)) as Hs.
  { intros [|x f] r Hne Hx; [done |]. by apply re_search_skip_spaces. }
  assert (forall f, re_match (flag (String "-" f)) (w ++ String "#" s) = None) as Hm.
  { intros f. unfold flag. apply re_match_lit_none.
    destruct w as [|c w]; [done |]. cbn [String.append strip_prefix string_forall] in *.
    apply andb_prop in Hw as [Hc _].
    destruct (Ascii.eqb_spec "-" c) as [<-|]; [done | done]. }
  assert (forall f, re_match (flag (String "-" f)) (String "#" s) = None) as Hm'.
  { intros f. unfold flag. by apply re_match_lit_none. }
  split.
  - unfold read_line, read_directives, read_resources, read_auto.
    unfold re_PBS, re_N, re_A, re_a, re_q, re_M, re_m, re_p, re_walltime, re_pmem,
      re_nodes, re_auto in *.
    rewrite !Hm, !Hm', (re_search_lit_skip_spaces "#" "PBS" w _ Hw eq_refl),
      (re_search_l_skip_spaces w s Hw).
    unfold flag, resource. rewrite !Hs by done. by rewrite Ha.
  - unfold is_anchor, re_cd. by rewrite Hs.
Qed.

Lemma reads_as_leading w s d :
  string_forall is_space w = true ->
  reads_as (String "#" s) d -> reads_as (w ++ String "#" s) d.
Proof.
  intros Hw H st.
  destruct (leading_blanks_line w s st Hw (reads_as_no_auto _ _ H)) as [Hl Ha].
  destruct (H st) as [Hl' Ha']. split; [by rewrite Hl | by rewrite Ha].
Qed.


Lemma scan_reads (lds : list (string * directive)) st :
  Forall (fun ld => reads_as ld.1 ld.2) lds ->
  scan (lds.*1) st = ScanEnd (directives_effect (lds.*2) st).
Proof.
  intros H. revert st. induction H as [|[l d] lds Hl _ IH]; intros st; [done |].
  cbn [fmap list_fmap fst snd scan directives_effect fold_left] in *.
  destruct (Hl st) as [-> Ha]. unfold is_anchor in Ha.
  destruct (re_search re_cd l); [done |]. apply IH.
Qed.

Lemma directives_effect_perm ds ds' st :
  Permutation ds ds' -> NoDup (directive_field <$> ds) ->
  directives_effect ds st = directives_effect ds' st.
Proof.
  intros Hp. revert st.
  induction Hp as [|x l l' Hp IH|x y l|l l' l'' Hp1 IH1 Hp2 IH2]; intros st Hnd.
  - done.
  - cbn [directives_effect fold_left]. apply IH.
    rewrite fmap_cons in Hnd. by apply NoDup_cons in Hnd as [_ ?].
  - cbn [directives_effect fold_left]. f_equal. apply directive_effect_comm.
    rewrite !fmap_cons in Hnd. apply NoDup_cons in Hnd as [Hin _].
    intros Heq. apply Hin. rewrite elem_of_cons. left. by symmetry.
  - rewrite IH1 by done. apply IH2. by rewrite <- Hp1.
Qed.

(** C6 (as amended).  Blanks that do not change what a directive line
    gives: any blanks in front of [#PBS], between [#PBS] and the
    flag, between the flag and what follows and, for
    [nodes=..:ppn=..], around the two numbers, which [int] strips.
    For [-N], [-A], [-a], [-q] and the [-l] resources [walltime=],
    [nodes=..:ppn=..] and [pmem=], with a value without blanks and
    [=], such a line is read like the line with one space in each
    place and sets the field to the value.  Lines that are read as
    directives about different fields give the same state in whatever
    order they come. *)
Theorem directives_blanks_and_order :
  (forall w1 w2 d st,
     blanks w1 = true -> blanks w2 = true -> wf_directive d = true ->
     read_line (directive_line w1 w2 d) st = Returned (directive_effect d st) /\
     read_line (directive_line w1 w2 d) st =
       read_line (directive_line " " " " d) st) /\
  (forall w1 w2 wa wb wc wd n p st,
     blanks w1 = true -> blanks w2 = true ->
     string_forall is_blank wa = true -> string_forall is_blank wb = true ->
     string_forall is_blank wc = true -> string_forall is_blank wd = true ->
     read_line (counts_line w1 w2 wa wb wc wd n p) st =
       Returned (directive_effect (DNodes n p) st) /\
     read_line (counts_line w1 w2 wa wb wc wd n p) st =
       read_line (directive_line " " " " (DNodes n p)) st) /\
  (forall its its' st,
     Permutation its its' -> NoDup (item_field <$> its) ->
     forallb wf_item its = true ->
     scan (map item_line its) st = ScanEnd (items_effect its st) /\
     scan (map item_line its') st = ScanEnd (items_effect its st)) /\
  (forall (lds lds' : list (string * directive)) st,
     Permutation lds lds' -> NoDup (directive_field <$> lds.*2) ->
     Forall (fun ld => reads_as ld.1 ld.2) lds ->
     scan (lds.*1) st = ScanEnd (directives_effect (lds.*2) st) /\
     scan (lds'.*1) st = ScanEnd (directives_effect (lds.*2) st)) /\
  (forall w0 w1 w2 d,
     string_forall is_space w0 = true ->
     blanks w1 = true -> blanks w2 = true -> wf_directive d = true ->
     reads_as (w0 ++ directive_line w1 w2 d) d) /\
  (forall w0 w1 w2 wa wb wc wd n p,
     string_forall is_space w0 = true ->
     blanks w1 = true -> blanks w2 = true ->
     string_forall is_blank wa = true -> string_forall is_blank wb = true ->
     string_forall is_blank wc = true -> string_forall is_blank wd = true ->
     reads_as (w0 ++ counts_line w1 w2 wa wb wc wd n p) (DNodes n p)).
Proof.
  split; [| split; [| split; [| split; [| split]]]].
  - intros w1 w2 d st H1 H2 Hd.
    destruct (directive_line_reads w1 w2 d st H1 H2 Hd) as [Hl _].
    destruct (directive_line_reads " " " " d st eq_refl eq_refl Hd) as [Hl' _].
    split; [exact Hl | by rewrite Hl, Hl'].
  - intros w1 w2 wa wb wc wd n p st H1 H2 Ha Hb Hc Hd.
    destruct (counts_line_reads w1 w2 wa wb wc wd n p st H1 H2 Ha Hb Hc Hd) as [Hl _].
    destruct (directive_line_reads " " " " (DNodes n p) st eq_refl eq_refl eq_refl)
      as [Hl' _].
    split; [exact Hl | by rewrite Hl, Hl'].
  - intros its its' st Hp Hnd Hwf. split; [by apply scan_items |].
    rewrite (items_effect_perm its its' st Hp Hnd).
    apply scan_items. by eapply wf_items_perm.
  - intros lds lds' st Hp Hnd Hr. split; [by apply scan_reads |].
    rewrite (directives_effect_perm (lds.*2) (lds'.*2) st); [| by apply fmap_Permutation | done].
    apply scan_reads. apply Forall_forall. intros ld Hin.
    rewrite Forall_forall in Hr. apply Hr. by rewrite Hp.
  - intros w0 w1 w2 d H0 H1 H2 Hd.
    assert (reads_as (directive_line w1 w2 d) d) as H
      by (intros st; by apply directive_line_reads).
    destruct d; by apply (reads_as_leading w0).
  - intros w0 w1 w2 wa wb wc wd n p H0 H1 H2 Ha Hb Hc Hd.
    apply (reads_as_leading w0); [done |].
    intros st. by apply counts_line_reads.
Qed.

Lemma directives_blanks_and_order_witness :
  (read_line (directive_line "  " (String (ascii_of_nat 9) " ") (DName "job1"))
     (PState ∅ ∅ ∅) =
   Returned (directive_effect (DName "job1") (PState ∅ ∅ ∅)) /\
   read_line (directive_line "  " (String (ascii_of_nat 9) " ") (DName "job1"))
     (PState ∅ ∅ ∅) =
   read_line (directive_line " " " " (DName "job1")) (PState ∅ ∅ ∅)) /\
  (read_line (counts_line " " " " " " " " " " " " 2 16) (PState ∅ ∅ ∅) =
   Returned (directive_effect (DNodes 2 16) (PState ∅ ∅ ∅)) /\
   read_line (counts_line " " " " " " " " " " " " 2 16) (PState ∅ ∅ ∅) =
   read_line (directive_line " " " " (DNodes 2 16)) (PState ∅ ∅ ∅)) /\
  (scan (map item_line [(" ", " ", DQueue "flux"); ("  ", " ", DName "job1")])
     (PState ∅ ∅ ∅) =
   ScanEnd (items_effect [(" ", " ", DQueue "flux"); ("  ", " ", DName "job1")]
              (PState ∅ ∅ ∅)) /\
   scan (map item_line [("  ", " ", DName "job1"); (" ", " ", DQueue "flux")])
     (PState ∅ ∅ ∅) =
   ScanEnd (items_effect [(" ", " ", DQueue "flux"); ("  ", " ", DName "job1")]
              (PState ∅ ∅ ∅))) /\
  reads_as ("  " ++ directive_line " " " " (DName "job1")) (DName "job1").
Proof.
  split; [| split; [| split]].
  - apply (proj1 directives_blanks_and_order); reflexivity.
  - apply (proj1 (proj2 directives_blanks_and_order)); reflexivity.
  - apply (proj1 (proj2 (proj2 directives_blanks_and_order))).
    + apply perm_swap.
    + apply (bool_decide_unpack _). vm_compute. exact I.
    + reflexivity.
  - apply (proj1 (proj2 (proj2 (proj2 (proj2 directives_blanks_and_order))))
             "  " " " " " (DName "job1")); reflexivity.
Defined.

(** C6 as stated fails for a blank after the value: the name read
    from [#PBS -N job1 ] ends with the blank. *)
Lemma directives_blanks_counterexample :
  read_line ("#PBS -N job1" ++ nl) (PState ∅ ∅ ∅) =
    Returned (found_required "name" "job1" (PState ∅ ∅ ∅)) /\
  read_line ("#PBS -N job1 " ++ nl) (PState ∅ ∅ ∅) =
    Returned (found_required "name" "job1 " (PState ∅ ∅ ∅)) /\
  self (found_required "name" "job1 " (PState ∅ ∅ ∅)) !! "name" <>
  self (found_required "name" "job1" (PState ∅ ∅ ∅)) !! "name".
Proof.
  split; [reflexivity |]. split; [reflexivity |].
  vm_compute. discriminate.
Qed.

(** ** What a parse that returns has set *)

Lemma parse_inv_set_attr k v st :
  (forall c req, (k, c, req) ∈ field_classes -> has_class c (Some v)) ->
  parse_inv st -> parse_inv (set_attr k v st).
Proof.
  unfold parse_inv. intros Hk H. rewrite Forall_forall in *.
  intros [[k' c] req] Hin. specialize (H _ Hin).
  unfold field_ok, set_attr in *. cbn [self required] in *.
  destruct (decide (k = k')) as [<-|Hne].
  - rewrite lookup_insert_eq. specialize (Hk _ _ Hin).
    destruct req; [by right | done].
  - by rewrite lookup_insert_ne.
Qed.

Lemma parse_inv_set_optional k v st :
  parse_inv st -> parse_inv (set_optional k v st).
Proof.
  unfold parse_inv. intros H. eapply Forall_impl; [exact H |].
  by intros [[k' c] req].
Qed.

Lemma parse_inv_set_required k v st :
  (forall c, (k, c, true) ∈ field_classes -> has_class c (self st !! k)) ->
  parse_inv st -> parse_inv (set_required k v st).
Proof.
  unfold parse_inv. intros Hk H. rewrite Forall_forall in *.
  intros [[k' c] req] Hin. specialize (H _ Hin).
  unfold field_ok, set_required in *. cbn [self required] in *.
  destruct req; [| done].
  destruct (decide (k = k')) as [<-|Hne].
  - right. by apply Hk.
  - by rewrite lookup_insert_ne.
Qed.

(** The entries of [field_classes] for a key. *)
Ltac field_cases H :=
  unfold field_classes in H;
  repeat (apply elem_of_cons in H as [H|H]; [simplify_eq |]);
  [.. | by apply elem_of_nil in H].

Lemma parse_inv_found_required k v st :
  k ∈ ["name"; "walltime"; "queue"; "command"] ->
  parse_inv st -> parse_inv (found_required k v st).
Proof.
  intros Hk H. unfold found_required.
  apply parse_inv_set_required.
  - intros c Hin. unfold set_attr. cbn [self]. rewrite lookup_insert_eq.
    field_cases Hin; simpl; try by eauto.
    all: repeat (apply elem_of_cons in Hk as [Hk|Hk]; [done |]);
      by apply elem_of_nil in Hk.
  - apply parse_inv_set_attr; [| done].
    intros c req Hin. field_cases Hin; simpl; try by eauto.
    all: repeat (apply elem_of_cons in Hk as [Hk|Hk]; [done |]);
      by apply elem_of_nil in Hk.
Qed.

Lemma parse_inv_found_optional k v st :
  k ∈ ["account"; "pmem"; "exetime"; "email"; "message"; "priority"] ->
  parse_inv st -> parse_inv (found_optional k v st).
Proof.
  intros Hk H. unfold found_optional.
  apply parse_inv_set_optional, parse_inv_set_attr; [| done].
  intros c req Hin. field_cases Hin; simpl; try by eauto.
  all: repeat (apply elem_of_cons in Hk as [Hk|Hk]; [done |]);
    by apply elem_of_nil in Hk.
Qed.

Lemma parse_inv_counts n p st :
  parse_inv st ->
  parse_inv (set_required "ppn" (PInt p) (set_required "nodes" (PInt n)
               (set_attr "ppn" (PInt p) (set_attr "nodes" (PInt n) st)))).
Proof.
  intros H.
  apply parse_inv_set_required.
  { intros c Hin. field_cases Hin. unfold set_required, set_attr. cbn [self].
    rewrite lookup_insert_eq. simpl. eauto. }
  apply parse_inv_set_required.
  { intros c Hin. field_cases Hin. unfold set_required, set_attr. cbn [self].
    rewrite lookup_insert_ne, lookup_insert_eq by done. simpl. eauto. }
  apply parse_inv_set_attr.
  { intros c req Hin. field_cases Hin. simpl. eauto. }
  apply parse_inv_set_attr; [| done].
  intros c req Hin. field_cases Hin. simpl. eauto.
Qed.

Lemma parse_inv_auto b st :
  parse_inv st ->
  parse_inv (set_optional "auto" (PBool b) (set_attr "auto" (PBool b) st)).
Proof.
  intros H. apply parse_inv_set_optional, parse_inv_set_attr; [| done].
  intros c req Hin. field_cases Hin. simpl. eauto.
Qed.

Ltac inv_step :=
  repeat first
    [ assumption
    | apply parse_inv_found_required; [set_solver |]
    | apply parse_inv_found_optional; [set_solver |]
    | apply parse_inv_counts
    | apply parse_inv_auto
    | match goal with
      | |- parse_inv (match ?c with Some _ => _ | None => _ end) => destruct c
      end ].

Lemma parse_inv_resources l st st' :
  parse_inv st -> read_resources l st = Returned st' -> parse_inv st'.
Proof.
  intros H. unfold read_resources.
  assert (parse_inv (if re_search re_walltime l is Some m
                     then found_required "walltime" (group 1 m) st else st))
    as H1 by inv_step.
  revert H1. generalize (if re_search re_walltime l is Some m
                     then found_required "walltime" (group 1 m) st else st).
  clear H. intros st1 H1.
  destruct (re_search re_nodes l) as [m|].
  - destruct (py_int (PStr (group 1 m))) as [n|]; [| done].
    destruct (py_int (PStr (group 2 m))) as [p|]; [| done].
    cbn [mbind outcome_bind]. intros [= <-]. inv_step.
  - cbn [mbind outcome_bind]. intros [= <-]. inv_step.
Qed.

Lemma parse_inv_directives l st st' :
  parse_inv st -> read_directives l st = Returned st' -> parse_inv st'.
Proof.
  intros H. unfold read_directives.
  destruct (re_search re_PBS l); [| by intros [= <-]].
  match goal with
  | |- context [if re_search re_l l is Some _ then read_resources l ?x else _] =>
      assert (parse_inv x) as H1 by inv_step; revert H1; generalize x
  end.
  clear H. intros st1 H1.
  assert ((exists st2, parse_inv st2 /\
            (if re_search re_l l is Some _ then read_resources l st1
             else Returned st1) = Returned st2) \/
          (exists e out, (if re_search re_l l is Some _ then read_resources l st1
             else Returned st1) = Raised e out)) as [(st2 & H2 & ->)|(e & out & ->)].
  { destruct (re_search re_l l).
    - destruct (read_resources l st1) as [st2|e out] eqn:E; [| by eauto].
      left. exists st2. split; [by eapply parse_inv_resources | done].
    - left. by exists st1. }
  - cbn [mbind outcome_bind]. intros [= <-]. inv_step.
  - done.
Qed.

Lemma parse_inv_read_auto l st st' :
  parse_inv st -> read_auto l st = Returned st' -> parse_inv st'.
Proof.
  intros H. unfold read_auto. destruct (re_search re_auto l) as [m|].
  - destruct (re_match re_false (group 1 m)); [intros [= <-]; inv_step |].
    destruct (re_match re_true (group 1 m)); [intros [= <-]; inv_step | done].
  - by intros [= <-].
Qed.

Lemma parse_inv_line l st st' :
  parse_inv st -> read_line l st = Returned st' -> parse_inv st'.
Proof.
  intros H. unfold read_line.
  destruct (read_directives l st) as [st1|] eqn:E; [| done].
  cbn [mbind outcome_bind]. apply parse_inv_read_auto.
  by eapply parse_inv_directives.
Qed.

Lemma parse_inv_command io st :
  parse_inv st -> parse_inv (read_command io st).
Proof.
  intros H. unfold read_command.
  change (parse_inv (found_required "command" io
            (set_required "cd $PBS_O_WORKDIR" (PStr "Found") st))).
  apply parse_inv_found_required; [set_solver |].
  apply parse_inv_set_required; [| done].
  intros c Hin. field_cases Hin.
Qed.

Lemma parse_inv_loop fuel io st st' :
  parse_inv st -> read_loop fuel io st = Some (Returned st') -> parse_inv st'.
Proof.
  revert io st. induction fuel as [|fuel IH]; intros io st H; [done |].
  cbn [read_loop]. destruct (readline io) as [l io'].
  destruct (read_line l st) as [st1|] eqn:E; [| done].
  pose proof (parse_inv_line _ _ _ H E) as H1.
  destruct (re_search re_cd l).
  - intros [= <-]. by apply parse_inv_command.
  - by apply IH.
Qed.

Lemma parse_inv_init self0 :
  parse_inv (PState (read_defaults self0) optional_init required_init).
Proof.
  unfold parse_inv, field_classes.
  repeat (apply Forall_cons; split; [| ]); try apply Forall_nil;
    unfold field_ok; cbn [self required];
    try (left; reflexivity);
    unfold read_defaults; simplify_map_eq; simpl; eauto.
Qed.

Lemma has_class_opt o :
  has_class COptStr o -> exists x : option string, o = Some (opt_val x).
Proof. intros [->|[s ->]]; [by exists None | by exists (Some s)]. Qed.

(** A parse that returns has set every attribute of a job. *)
Lemma read_complete fuel self0 text o :
  read fuel self0 text = Some (Returned o) -> exists j, to_obj j ⊆ o.
Proof.
  unfold read.
  destruct (read_loop _ _ _) as [[st|]|] eqn:E; [| done | done].
  intros [= Hc]. apply check_required_returned in Hc as [-> Hreq].
  apply parse_inv_loop in E; [| apply parse_inv_init].
  unfold parse_inv, field_classes in E.
  repeat (apply Forall_cons in E as [? E]). clear E.
  unfold field_ok in *.
  repeat match goal with
    | H : _ \/ has_class _ _ |- _ =>
        destruct H as [H|H]; [by destruct (Hreq _ _ H) |]
    end.
  repeat match goal with
    | H : has_class COptStr _ |- _ => apply has_class_opt in H as [? H]
    | H : has_class _ _ |- _ => destruct H as [? H]
    end.
  match goal with
  | H1 : _ !! "name" = Some (PStr ?name), H2 : _ !! "walltime" = Some (PStr ?wt),
    H3 : _ !! "nodes" = Some (PInt ?n), H4 : _ !! "ppn" = Some (PInt ?p),
    H5 : _ !! "queue" = Some (PStr ?q), H6 : _ !! "command" = Some (PStr ?cmd),
    H7 : _ !! "account" = Some (opt_val ?acc), H8 : _ !! "pmem" = Some (opt_val ?pm),
    H9 : _ !! "exetime" = Some (opt_val ?ex), H10 : _ !! "email" = Some (opt_val ?em),
    H11 : _ !! "message" = Some (PStr ?msg), H12 : _ !! "priority" = Some (PStr ?pr),
    H13 : _ !! "auto" = Some (PBool ?au) |- _ =>
      exists (JobSpec name acc n p wt pm q ex msg em pr cmd au)
  end.
  apply map_subseteq_spec. intros k v. unfold to_obj.
  cbn [j_name j_account j_nodes j_ppn j_walltime j_pmem j_queue j_exetime
       j_message j_email j_priority j_command j_auto].
  repeat (rewrite lookup_insert; case_decide; [intros [= <-]; by subst |]).
  by rewrite lookup_empty.
Qed.

Lemma scan_has_anchor ls st :
  existsb is_anchor ls = true ->
  match scan ls st with ScanEnd _ => False | _ => True end.
Proof.
  revert st. induction ls as [|l ls IH]; intros st; [done |].
  cbn [existsb scan]. unfold is_anchor at 1.
  destruct (read_line l st) as [st'|]; [| done].
  destruct (re_search re_cd l); [done |]. simpl. apply IH.
Qed.

(** C8.  Whenever [Job.read] returns, every attribute of the job is
    set: the required ones ([name], [walltime], [nodes], [ppn],
    [queue], [command]) were found in the text and the optional ones
    hold what was found or their default.  On a text with an anchor
    line it does come to an end, within one iteration per line:
    it returns such a job, or it raises and returns nothing. *)
Theorem read_returns_complete text self0 :
  (forall fuel o,
     read fuel self0 text = Some (Returned o) -> exists j, to_obj j ⊆ o) /\
  (has_anchor text = true ->
   forall fuel, (length (split_lines text) < fuel)%nat ->
     (exists o j, read fuel self0 text = Some (Returned o) /\ to_obj j ⊆ o) \/
     (exists e out, read fuel self0 text = Some (Raised e out))).
Proof.
  split; [intros fuel o; apply read_complete |].
  intros Ha fuel Hfuel.
  destruct (read fuel self0 text) as [[o|e out]|] eqn:E.
  - left. destruct (read_complete _ _ _ _ E) as [j Hj]. by exists o, j.
  - right. by exists e, out.
  - exfalso. unfold read in E. rewrite read_loop_scan in E by done.
    pose proof (scan_has_anchor (split_lines text)
      (PState (read_defaults self0) optional_init required_init) Ha) as Hs.
    by destruct (scan _ _).
Qed.

Lemma read_returns_complete_witness :
  has_anchor (script job1) = true /\
  ((exists o j, read 22 ∅ (script job1) = Some (Returned o) /\ to_obj j ⊆ o) \/
   (exists e out, read 22 ∅ (script job1) = Some (Raised e out))).
Proof.
  split; [vm_compute; reflexivity |].
  apply (proj2 (read_returns_complete (script job1) ∅));
    [vm_compute; reflexivity | vm_compute; lia].
Defined.

(** The counts are read as integers and not checked any further: a
    script that asks for no node is read to a job with no node. *)
Example read_any_counts :
  init 22 (from_script (script job6)) = Some (Returned (to_obj (reread job6))) /\
  to_obj (reread job6) !! "nodes" = Some (PInt 0) /\
  to_obj (reread job6) !! "ppn" = Some (PInt (-3)).
Proof.
  split; [rewrite init_from_script; apply read_script; [reflexivity | lia] |].
  split; reflexivity.
Qed.

(** ** What [Job.read] writes, and what it leaves *)

Section Lift.
Variables (F : obj -> obj) (K : string -> Prop).
Hypothesis HF : forall k v m, K k -> F (<[k := v]> m) = <[k := v]> (F m).

Lemma lift_set_attr k v st : K k -> set_attr k v (lift F st) = lift F (set_attr k v st).
Proof. intros Hk. unfold set_attr, lift. cbn [self optional required]. by rewrite HF. Qed.

Lemma lift_set_optional k v st : set_optional k v (lift F st) = lift F (set_optional k v st).
Proof. reflexivity. Qed.

Lemma lift_set_required k v st : set_required k v (lift F st) = lift F (set_required k v st).
Proof. reflexivity. Qed.

Lemma lift_found_required k v st :
  K k -> found_required k v (lift F st) = lift F (found_required k v st).
Proof. intros Hk. unfold found_required. by rewrite lift_set_attr. Qed.

Lemma lift_found_optional k v st :
  K k -> found_optional k v (lift F st) = lift F (found_optional k v st).
Proof. intros Hk. unfold found_optional. by rewrite lift_set_attr. Qed.

Lemma lift_if_required (c : option groups) k (g : groups -> string) Y1 Y2 :
  (c <> None -> K k) -> Y1 = lift F Y2 ->
  (if c is Some m then found_required k (g m) Y1 else Y1) =
  lift F (if c is Some m then found_required k (g m) Y2 else Y2).
Proof. intros Hk ->. destruct c; [| done]. by rewrite lift_found_required; [| apply Hk]. Qed.

Lemma lift_if_optional (c : option groups) k (g : groups -> string) Y1 Y2 :
  (c <> None -> K k) -> Y1 = lift F Y2 ->
  (if c is Some m then found_optional k (g m) Y1 else Y1) =
  lift F (if c is Some m then found_optional k (g m) Y2 else Y2).
Proof. intros Hk ->. destruct c; [| done]. by rewrite lift_found_optional; [| apply Hk]. Qed.

Lemma lift_bind (x1 x2 : outcome pstate) (k1 k2 : pstate -> outcome pstate) :
  x1 = outcome_map (lift F) x2 ->
  (forall a, k1 (lift F a) = outcome_map (lift F) (k2 a)) ->
  (x1 ≫= k1) = outcome_map (lift F) (x2 ≫= k2).
Proof. intros -> Hk. destruct x2; simpl; [apply Hk | done]. Qed.

Hypothesis Hmain : Forall K keys_main.

Ltac main_key := 
  try intros _; let H := fresh in
  pose proof Hmain as H; unfold keys_main in H;
  repeat (apply Forall_cons in H as [? H]); assumption.

Lemma lift_read_resources l st :
  read_resources l (lift F st) = outcome_map (lift F) (read_resources l st).
Proof.
  unfold read_resources. cbv zeta. apply lift_bind.
  - destruct (re_search re_nodes l) as [m|].
    + destruct (py_int (PStr (group 1 m))) as [n|]; [| done].
      destruct (py_int (PStr (group 2 m))) as [p|]; [| done].
      cbn [mbind outcome_bind outcome_map]. f_equal.
      rewrite <- !lift_set_required. do 2 f_equal.
      rewrite <- !lift_set_attr by (by main_key). do 2 f_equal.
      by apply lift_if_required; [main_key |].
    + cbn [outcome_map]. f_equal. by apply lift_if_required; [main_key |].
  - intros a. cbn [outcome_map]. f_equal. by apply lift_if_optional; [main_key |].
Qed.

Lemma lift_read_auto l st :
  read_auto l (lift F st) = outcome_map (lift F) (read_auto l st).
Proof.
  unfold read_auto. destruct (re_search re_auto l) as [m|]; [| done].
  destruct (re_match re_false (group 1 m)).
  { cbn [outcome_map]. f_equal. rewrite lift_set_attr by (by main_key). done. }
  destruct (re_match re_true (group 1 m)); [| done].
  cbn [outcome_map]. f_equal. rewrite lift_set_attr by (by main_key). done.
Qed.

Lemma lift_read_directives l st :
  mail_ok K l ->
  read_directives l (lift F st) = outcome_map (lift F) (read_directives l st).
Proof.
  intros (HM & Hm & Hp). unfold read_directives.
  destruct (re_search re_PBS l); [| done]. cbv zeta. apply lift_bind.
  - destruct (re_search re_l l).
    + rewrite <- lift_read_resources. f_equal.
      apply lift_if_optional; [main_key |].
      apply lift_if_optional; [main_key |].
      by apply lift_if_required; [main_key |].
    + cbn [outcome_map]. f_equal.
      apply lift_if_optional; [main_key |].
      apply lift_if_optional; [main_key |].
      by apply lift_if_required; [main_key |].
  - intros a. cbn [outcome_map]. f_equal.
    apply lift_if_optional; [done |].
    apply lift_if_optional; [done |].
    apply lift_if_optional; [done |].
    by apply lift_if_required; [main_key |].
Qed.

Lemma lift_read_line l st :
  mail_ok K l ->
  read_line l (lift F st) = outcome_map (lift F) (read_line l st).
Proof.
  intros Hl. unfold read_line. apply lift_bind; [by apply lift_read_directives |].
  intros a. apply lift_read_auto.
Qed.

Lemma lift_read_command io st :
  read_command io (lift F st) = lift F (read_command io st).
Proof.
  unfold read_command. rewrite <- lift_set_required. f_equal.
  rewrite <- lift_set_attr by (by main_key). done.
Qed.

Lemma mail_ok_nil : mail_ok K "".
Proof. by repeat split. Qed.

Lemma lift_read_loop fuel io st :
  Forall (mail_ok K) (split_lines io) ->
  read_loop fuel io (lift F st) =
  match read_loop fuel io st with
  | Some x => Some (outcome_map (lift F) x)
  | None => None
  end.
Proof.
  revert io st. induction fuel as [|fuel IH]; intros io st Hio; [done |].
  cbn [read_loop]. rewrite readline_split_lines.
  assert (mail_ok K (hd "" (split_lines io))) as Hl.
  { destruct (split_lines io); [apply mail_ok_nil | by apply Forall_cons in Hio as [? _]]. }
  rewrite lift_read_line by done.
  destruct (read_line _ st) as [st'|e out]; [| done]. cbn [outcome_map].
  destruct (re_search re_cd _).
  - by rewrite lift_read_command.
  - apply IH. rewrite split_lines_join_tl.
    destruct (split_lines io); [done | by apply Forall_cons in Hio as [_ ?]].
Qed.

End Lift.

Lemma lift_check_required F st :
  check_required (lift F st) = outcome_map F (check_required st).
Proof. unfold check_required, lift. cbn [self required]. by destruct (existsb _ _). Qed.

Lemma read_defaults_union self0 : read_defaults self0 = read_defaults ∅ ∪ self0.
Proof.
  unfold read_defaults. rewrite <- !insert_union_l. by rewrite (left_id ∅ (∪)).
Qed.

(** X1.  [Job.read] on an object that already has attributes gives
    what it gives on a fresh object, with the attributes it does not
    set (such as [jobID]) kept from the old object: no field of the
    old object shows through, and a parse that raises or does not end
    does so whatever the object held. *)
Theorem read_overwrites_fields fuel self0 text :
  read fuel self0 text =
  match read fuel ∅ text with
  | Some (Returned o) => Some (Returned (o ∪ self0))
  | r => r
  end.
Proof.
  unfold read. rewrite read_defaults_union.
  change (PState (read_defaults ∅ ∪ self0) optional_init required_init)
    with (lift (.∪ self0) (PState (read_defaults ∅) optional_init required_init)).
  rewrite (lift_read_loop (.∪ self0) (λ _, True)).
  - destruct (read_loop _ _ _) as [[st|e out]|]; [| done | done].
    cbn [outcome_map]. rewrite lift_check_required.
    by destruct (check_required st).
  - intros k v m _. by rewrite insert_union_l.
  - by apply Forall_forall.
  - apply Forall_forall. intros l _. by repeat split.
Qed.

Lemma reset_insert (ov : option pyval) k k' v (m : obj) :
  k' ≠ k ->
  partial_alter (λ _, ov) k (<[k' := v]> m) = <[k' := v]> (partial_alter (λ _, ov) k m).
Proof.
  intros Hne. apply map_eq. intros j.
  rewrite lookup_partial_alter, !lookup_insert, lookup_partial_alter.
  repeat case_decide; congruence.
Qed.

(** An attribute that no line of the buffer sets is left as it was. *)
Lemma read_loop_keeps fuel io st st' k :
  k ∉ keys_main ->
  Forall (mail_ok (λ k', k' ≠ k)) (split_lines io) ->
  read_loop fuel io st = Some (Returned st') ->
  self st' !! k = self st !! k.
Proof.
  intros Hk Hio E.
  pose proof (lift_read_loop (partial_alter (λ _, self st !! k) k) (λ k', k' ≠ k)) as HL.
  specialize (HL ltac:(intros k' v m Hne; by apply reset_insert)).
  assert (Forall (λ k', k' ≠ k) keys_main) as Hm.
  { apply Forall_forall. by intros k' Hin ->. }
  specialize (HL Hm fuel io st Hio). rewrite E in HL. cbn [outcome_map] in HL.
  assert (lift (partial_alter (λ _, self st !! k) k) st = st) as Hst.
  { destruct st as [s o r]. unfold lift. cbn [self optional required].
    by rewrite partial_alter_self. }
  rewrite Hst, E in HL. injection HL as HL.
  rewrite HL at 1. unfold lift. cbn [self]. by rewrite lookup_partial_alter_eq.
Qed.

Lemma read_keeps fuel self0 text o k :
  k ∉ keys_main ->
  Forall (mail_ok (λ k', k' ≠ k)) (split_lines text) ->
  read fuel self0 text = Some (Returned o) ->
  o !! k = read_defaults self0 !! k.
Proof.
  intros Hk Hio. unfold read.
  destruct (read_loop _ _ _) as [[st|e out]|] eqn:E; [| done | done].
  intros [= Hc]. apply check_required_returned in Hc as [-> _].
  by rewrite (read_loop_keeps _ _ _ _ k Hk Hio E).
Qed.

Lemma no_dash_mail_ok K l : no_dash l = true -> mail_ok K l.
Proof.
  intros Hl.
  assert (forall f r, re_match (Lit (String "-" f) +++ r) l = None) as H.
  { intros f r. apply re_match_lit_none. destruct l as [|c l]; [done |].
    cbn [no_dash strip_prefix] in *. rewrite (Ascii.eqb_sym "-" c).
    by destruct (Ascii.eqb c "-"). }
  unfold mail_ok, re_M, re_m, re_p, flag. by rewrite !H.
Qed.

(** X3.  [email], [message] and [priority] are looked for at the
    start of the line only: when no line of the text starts with a
    dash, whatever [Job.read] returns has no [email] and the default
    [message] and [priority], whatever [-M], [-m] and [-p] directives
    the text holds. *)
Theorem mail_fields_need_leading_flag fuel self0 text o :
  forallb no_dash (split_lines text) = true ->
  read fuel self0 text = Some (Returned o) ->
  o !! "email" = Some PNone /\
  o !! "message" = Some (PStr "a") /\
  o !! "priority" = Some (PStr "0").
Proof.
  intros Hl Hr.
  assert (forall k, Forall (mail_ok (λ k', k' ≠ k)) (split_lines text)) as Hok.
  { intros k. apply Forall_forall. intros l Hin. apply no_dash_mail_ok.
    apply (proj1 (forallb_forall _ _) Hl). by apply list_elem_of_In. }
  split; [| split].
  - rewrite (read_keeps _ _ _ _ "email" ltac:(by apply (bool_decide_unpack _)) (Hok _) Hr).
    unfold read_defaults. by simplify_map_eq.
  - rewrite (read_keeps _ _ _ _ "message" ltac:(by apply (bool_decide_unpack _)) (Hok _) Hr).
    unfold read_defaults. by simplify_map_eq.
  - rewrite (read_keeps _ _ _ _ "priority" ltac:(by apply (bool_decide_unpack _)) (Hok _) Hr).
    unfold read_defaults. by simplify_map_eq.
Qed.

Lemma mail_fields_need_leading_flag_witness :
  to_obj (reread job5) !! "email" = Some PNone /\
  to_obj (reread job5) !! "message" = Some (PStr "a") /\
  to_obj (reread job5) !! "priority" = Some (PStr "0").
Proof.
  apply (mail_fields_need_leading_flag 22 ∅ (script job5) (to_obj (reread job5)));
    [vm_compute; reflexivity | apply read_script; [reflexivity | lia]].
Defined.

Lemma field_names_main k : k ∉ field_names -> k ∉ keys_main.
Proof.
  intros Hk Hin. apply Hk. clear Hk. unfold keys_main in Hin.
  repeat (apply elem_of_cons in Hin as [->|Hin];
          [by apply (bool_decide_unpack _) |]).
  by apply elem_of_nil in Hin.
Qed.

Lemma field_names_mail_ok k l : k ∉ field_names -> mail_ok (λ k', k' ≠ k) l.
Proof.
  intros Hk. repeat split; intros _ <-; apply Hk; by apply (bool_decide_unpack _).
Qed.

Lemma to_obj_dom j k : to_obj j !! k = None -> k ∉ field_names.
Proof.
  intros H Hin. unfold field_names, field_classes in Hin. cbn [fmap list_fmap fst] in Hin.
  repeat (apply elem_of_cons in Hin as [->|Hin]; [by vm_compute in H |]).
  by apply elem_of_nil in Hin.
Qed.

(** X2.  An object built from a script has the thirteen fields of a
    job, with values of their types, and no other attribute: it has
    no [jobID], so reading [jobID] on it raises [AttributeError]. *)
Theorem script_object_fields fuel text o :
  init fuel (from_script text) = Some (Returned o) ->
  (exists j, o = to_obj j) /\
  o !! "jobID" = None /\
  getattr o "jobID" = Raised (AttributeError "jobID") [].
Proof.
  rewrite init_from_script. intros Hr.
  assert (forall k, k ∉ field_names -> o !! k = None) as Hother.
  { intros k Hk.
    rewrite (read_keeps _ _ _ _ k (field_names_main k Hk)
               ltac:(apply Forall_forall; intros; by apply field_names_mail_ok) Hr).
    unfold read_defaults. rewrite !lookup_insert_ne; [done | ..];
      intros <-; apply Hk; by apply (bool_decide_unpack _). }
  assert (o !! "jobID" = None) as Hid.
  { apply Hother. by apply (bool_decide_unpack _). }
  split; [| split; [done | unfold getattr; by rewrite Hid]].
  destruct (read_complete _ _ _ _ Hr) as [j Hj]. exists j.
  apply map_eq. intros k. destruct (to_obj j !! k) as [v|] eqn:E.
  - by apply (lookup_weaken _ _ _ _ E).
  - by apply Hother, (to_obj_dom j).
Qed.

Lemma script_object_fields_witness :
  (exists j, to_obj (reread job1) = to_obj j) /\
  to_obj (reread job1) !! "jobID" = None /\
  getattr (to_obj (reread job1)) "jobID" = Raised (AttributeError "jobID") [].
Proof.
  apply (script_object_fields 22 (script job1) (to_obj (reread job1))).
  rewrite init_from_script. apply read_script; [reflexivity | lia].
Defined.

(** ** The blanks a pattern needs *)

Lemma count_spaces_app a b : count_spaces (a ++ b) = (count_spaces a + count_spaces b)%nat.
Proof.
  induction a as [|c a IH]; simpl; [done |]. rewrite IH. by destruct (is_space c).
Qed.

Lemma strip_prefix_Some p s s' : strip_prefix p s = Some s' -> s = p ++ s'.
Proof.
  revert s. induction p as [|a p IH]; intros s H; simpl in *; [by injection H as -> |].
  destruct s as [|b s]; [done |]. destruct (Ascii.eqb_spec a b) as [->|]; [| done].
  by rewrite (IH _ H).
Qed.


(** Where a match goes on, it has used up the blanks that the pattern
    needs. *)
Lemma rmatch_spaces r : forall s g k m,
  rmatch r s g k = Some m ->
  exists s' g', k s' g' = Some m /\
    (spaces_needed r + count_spaces s' <= count_spaces s)%nat.
Proof.
  induction r as [p|C|r1 IH1 r2 IH2|r1 IH1 r2 IH2|r1 IH1|n r1 IH1]; intros s g k m H.
  - rewrite rmatch_lit in H. destruct (strip_prefix p s) as [s'|] eqn:E; [| done].
    apply strip_prefix_Some in E as ->. exists s', g. rewrite count_spaces_app.
    split; [done | simpl; lia].
  - rewrite rmatch_chr in H. destruct s as [|c s]; [done |].
    destruct (cls_mem C c) eqn:E; [| done]. exists s, g. split; [done |].
    simpl. destruct C; simpl in *; [destruct (is_space c); lia | rewrite E; lia |
      destruct (is_space c); lia].
  - rewrite rmatch_seq in H. apply IH1 in H as (s1 & g1 & H & H1).
    apply IH2 in H as (s2 & g2 & H & H2). exists s2, g2. split; [done | simpl; lia].
  - change (match rmatch r1 s g k with Some m' => Some m' | None => rmatch r2 s g k end
            = Some m) in H.
    destruct (rmatch r1 s g k) eqn:E.
    + injection H as ->. apply IH1 in E as (s1 & g1 & H & H1).
      exists s1, g1. split; [done | simpl; lia].
    + apply IH2 in H as (s2 & g2 & H & H2). exists s2, g2. split; [done | simpl; lia].
  - unfold rmatch in H. fold rmatch in H. revert H.
    generalize (String.length s) at 1. intros n. revert s g.
    induction n as [|n IHn]; intros s g H.
    + exists s, g. split; [done | simpl; lia].
    + match type of H with
      | match ?x with _ => _ end = _ => destruct x eqn:E
      end.
      * injection H as ->. apply IH1 in E as (s1 & g1 & H & H1).
        destruct (String.length s1 <? String.length s)%nat; [| done].
        apply IHn in H as (s2 & g2 & H & H2). exists s2, g2.
        split; [done | simpl in *; lia].
      * exists s, g. split; [done | simpl; lia].
  - rewrite rmatch_group in H. apply IH1 in H as (s1 & g1 & H & H1).
    eexists _, _. split; [exact H | simpl; lia].
Qed.

Lemma re_match_few_spaces r s :
  (count_spaces s < spaces_needed r)%nat -> re_match r s = None.
Proof.
  intros Hlt. unfold re_match. destruct (rmatch r s [] _) eqn:E; [| done].
  apply rmatch_spaces in E as (s' & g' & _ & H). lia.
Qed.

Lemma re_search_few_spaces r s :
  (count_spaces s < spaces_needed r)%nat -> re_search r s = None.
Proof.
  induction s as [|c s IH]; intros Hlt.
  - by rewrite re_search_nil, re_match_few_spaces.
  - rewrite re_search_next by (by apply re_match_few_spaces).
    apply IH. simpl in Hlt. destruct (is_space c); lia.
Qed.

(** X8.  Every pattern of a directive and the anchor need two
    blanks: a line with fewer than two (the newline counts) is not
    the anchor and sets nothing but [auto], and a line without any
    blank sets nothing at all. *)
Theorem few_blanks_line l st :
  (count_spaces l < 2)%nat ->
  is_anchor l = false /\
  read_line l st = read_auto l st /\
  (count_spaces l = 0%nat -> read_line l st = Returned st).
Proof.
  intros H.
  assert (forall r, spaces_needed r = 2%nat -> re_search r l = None) as Hs.
  { intros r Hr. apply re_search_few_spaces. lia. }
  assert (forall r, spaces_needed r = 2%nat -> re_match r l = None) as Hm.
  { intros r Hr. apply re_match_few_spaces. lia. }
  assert (read_directives l st = Returned st) as Hd.
  { unfold read_directives.
    rewrite (Hs re_N eq_refl), (Hs re_A eq_refl), (Hs re_a eq_refl),
      (Hs re_l eq_refl), (Hs re_q eq_refl), (Hm re_M eq_refl), (Hm re_m eq_refl),
      (Hm re_p eq_refl).
    by destruct (re_search re_PBS l). }
  split; [| split].
  - unfold is_anchor. by rewrite (Hs re_cd eq_refl).
  - unfold read_line. by rewrite Hd.
  - intros H0. unfold read_line. rewrite Hd. cbn [mbind outcome_bind].
    unfold read_auto. rewrite re_search_few_spaces; [done |]. rewrite H0. simpl. lia.
Qed.

Lemma few_blanks_line_witness :
  is_anchor "cd $PBS_O_WORKDIR" = false /\
  read_line "cd $PBS_O_WORKDIR" (PState ∅ ∅ ∅) =
    read_auto "cd $PBS_O_WORKDIR" (PState ∅ ∅ ∅) /\
  (count_spaces "cd $PBS_O_WORKDIR" = 0%nat ->
   read_line "cd $PBS_O_WORKDIR" (PState ∅ ∅ ∅) = Returned (PState ∅ ∅ ∅)).
Proof. apply (few_blanks_line "cd $PBS_O_WORKDIR" (PState ∅ ∅ ∅)). simpl. lia. Defined.













(** ** Where the anchor is found *)

Lemma re_search_app r pre s m :
  re_match r s = Some m -> exists m', re_search r (pre ++ s) = Some m'.
Proof.
  intros H. induction pre as [|c pre [m' IH]]; simpl.
  - exists m. by apply re_search_here.
  - destruct (re_match r (String c (pre ++ s))) as [m1|] eqn:E.
    + exists m1. by apply re_search_here.
    + exists m'. by rewrite re_search_next.
Qed.

Lemma rmatch_spaces_all s g :
  rmatch (Star (Chr Space)) s g (fun _ g' => Some g') = Some g.
Proof.
  induction s as [|c s IH]; [done |].
  rewrite rmatch_star_chr, IH. by destruct (cls_mem Space c).
Qed.

Lemma rmatch_plus_spaces w s g k m :
  string_forall is_space w = true -> w <> "" ->
  rmatch (Star (Chr Space)) s g k = Some m ->
  rmatch (Plus (Chr Space)) (w ++ s) g k = Some m.
Proof.
  intros Hw Hne Hk. destruct w as [|c w]; [done |]. simpl in Hw.
  apply andb_prop in Hw as [Hc Hw]. unfold Plus.
  rewrite rmatch_seq. cbn [String.append]. rewrite rmatch_chr. cbn [cls_mem].
  rewrite Hc. by apply rmatch_star_prefix.
Qed.

Lemma re_match_anchor w w' post :
  string_forall is_space w = true -> w <> "" ->
  string_forall is_space w' = true -> w' <> "" ->
  re_match re_cd ("cd" ++ w ++ "$PBS_O_WORKDIR" ++ w' ++ post) = Some [].
Proof.
  intros Hw Hne Hw' Hne'. unfold re_match, re_cd.
  rewrite rmatch_seq, rmatch_lit, strip_prefix_app, rmatch_seq.
  apply rmatch_plus_spaces; [done | done |].
  change ("$PBS_O_WORKDIR" ++ w' ++ post)
    with (String "$" ("PBS_O_WORKDIR" ++ w' ++ post)).
  rewrite rmatch_star_stop by done.
  rewrite rmatch_seq, rmatch_lit.
  change (String "$" ("PBS_O_WORKDIR" ++ w' ++ post))
    with ("$PBS_O_WORKDIR" ++ w' ++ post).
  rewrite strip_prefix_app.
  apply rmatch_plus_spaces; [done | done |]. apply rmatch_spaces_all.
Qed.

(** X7.  The anchor is searched for anywhere in a line: whatever
    comes before it, [cd], blanks, [$PBS_O_WORKDIR] and one blank at
    least (the newline will do) make the line the anchor line. *)
Theorem anchor_anywhere_in_line pre w w' post :
  string_forall is_space w = true -> w <> "" ->
  string_forall is_space w' = true -> w' <> "" ->
  is_anchor (pre ++ "cd" ++ w ++ "$PBS_O_WORKDIR" ++ w' ++ post) = true.
Proof.
  intros Hw Hne Hw' Hne'. unfold is_anchor.
  destruct (re_search_app re_cd pre _ _ (re_match_anchor w w' post Hw Hne Hw' Hne'))
    as [m ->].
  done.
Qed.

Lemma anchor_anywhere_in_line_witness :
  is_anchor ("# then " ++ "cd" ++ "  " ++ "$PBS_O_WORKDIR" ++ nl ++ "") = true.
Proof. apply (anchor_anywhere_in_line "# then " "  " nl ""); done. Defined.

(** ** The text of [qsub_string] *)

Lemma ends_with_nl_app a b :
  b <> "" -> ends_with_nl b = true -> ends_with_nl (a ++ b) = true.
Proof.
  intros Hne Hb. induction a as [|c a IH]; [done |].
  cbn [String.append]. simpl. destruct (a ++ b) eqn:E; [| done].
  destruct a; [| done]. simpl in E. by subst.
Qed.

Lemma Returned_inj {A} (a b : A) : Returned a = Returned b -> a = b.
Proof. by intros [= ->]. Qed.

Ltac bind_step := cbv beta iota zeta delta [mbind outcome_bind].

(** What [qsub_string] returns ends with the two diagnostic commands,
    the anchor line and the command. *)
Lemma qsub_string_shape o text :
  qsub_string o = Returned text ->
  exists front command,
    o !! "command" = Some command /\
    text = ((front ++ ("cat $PBS_NODEFILE" ++ nl ++ nl)) ++ anchor_line) ++
           (py_format command ++ nl).
Proof.
  unfold qsub_string, getattr. cbv zeta.
  repeat first
    [ match goal with
      | |- context [o !! ?k] =>
          lazymatch k with
          | "message" => fail
          | _ => destruct (o !! k) eqn:?; bind_step; [| done]
          end
      end
    | match goal with
      | |- context [bool_decide (?v ≠ PNone)] =>
          destruct (bool_decide (v ≠ PNone)); bind_step
      end
    | destruct (o !! "message"); bind_step; [| done] ].
  all: intros H; apply Returned_inj in H; subst text;
    eexists _, _; (split; [reflexivity |]); reflexivity.
Qed.

Lemma has_anchor_shape front tail :
  has_anchor (((front ++ ("cat $PBS_NODEFILE" ++ nl ++ nl)) ++ anchor_line) ++ tail) = true.
Proof.
  unfold has_anchor. rewrite (append_assoc _ anchor_line tail).
  rewrite split_lines_app by (by apply ends_with_nl_app).
  rewrite existsb_app. apply orb_true_intro. right.
  unfold anchor_line. rewrite append_assoc. by rewrite split_lines_line.
Qed.

Lemma read_with_anchor text fuel self0 :
  has_anchor text = true -> (length (split_lines text) < fuel)%nat ->
  read fuel self0 text <> None.
Proof.
  intros Ha Hfuel. unfold read. rewrite read_loop_scan by done.
  pose proof (scan_has_anchor (split_lines text)
    (PState (read_defaults self0) optional_init required_init) Ha) as Hs.
  by destruct (scan _ _).
Qed.

(** X9.  Whatever the attributes hold, the text that [qsub_string]
    returns has an anchor line, so [Job.read] comes to an end on it,
    within one iteration per line: it returns or it raises. *)
Theorem written_script_ends_parse o text :
  qsub_string o = Returned text ->
  has_anchor text = true /\
  forall fuel self0, (length (split_lines text) < fuel)%nat ->
    (exists o', read fuel self0 text = Some (Returned o')) \/
    (exists e out, read fuel self0 text = Some (Raised e out)).
Proof.
  intros (front & command & _ & ->)%qsub_string_shape.
  split; [apply has_anchor_shape |]. intros fuel self0 Hfuel.
  pose proof (read_with_anchor _ fuel self0 (has_anchor_shape front _) Hfuel) as H.
  destruct (read fuel self0 _) as [[o'|e out]|]; [by eauto | by eauto | done].
Qed.

Lemma written_script_ends_parse_witness :
  has_anchor (script job1) = true /\
  forall fuel self0, (length (split_lines (script job1)) < fuel)%nat ->
    (exists o', read fuel self0 (script job1) = Some (Returned o')) \/
    (exists e out, read fuel self0 (script job1) = Some (Raised e out)).
Proof.
  apply (written_script_ends_parse (to_obj job1) (script job1)).
  by apply qsub_string_script.
Defined.


Lemma qsub_string_fields o :
  (forall k, k ∈ field_names -> is_Some (o !! k)) ->
  exists text, qsub_string o = Returned text.
Proof.
  intros H. unfold qsub_string, getattr.
  repeat match goal with
    | |- context [o !! ?k] =>
        let v := fresh "v" in
        destruct (H k ltac:(by apply (bool_decide_unpack _))) as [v ->]
    end.
  cbn [mbind outcome_bind].
  repeat match goal with
    | |- context [bool_decide ?P] => destruct (bool_decide P)
    end;
    cbn [mbind outcome_bind]; eexists; reflexivity.
Qed.

(** X10.  [qsub_string] does not fail on an object that the
    constructor returned, be it from arguments or from a script. *)
Theorem qsub_string_total fuel a o :
  init fuel a = Some (Returned o) -> exists text, qsub_string o = Returned text.
Proof.
  unfold init. destruct (bool_decide (arg_qsubstr a ≠ PNone)).
  - intros Hr. destruct (read_complete _ _ _ _ Hr) as [j Hj].
    exists (script j). by apply qsub_string_script.
  - destruct (py_int (arg_nodes a)) as [n|]; [| done].
    destruct (py_int (arg_ppn a)) as [p|]; [| done].
    cbn [mbind outcome_bind]. intros [= <-]. apply qsub_string_fields.
    intros k Hk. unfold field_names, field_classes in Hk.
    cbn [fmap list_fmap fst] in Hk.
    repeat (apply elem_of_cons in Hk as [->|Hk]; [by simplify_map_eq |]).
    by apply elem_of_nil in Hk.
Qed.

Lemma qsub_string_total_witness :
  exists text, qsub_string (<["jobID" := PNone]> (to_obj job1)) = Returned text.
Proof. apply (qsub_string_total 0 (to_args job1)). apply init_to_args. Defined.

Lemma qsub_string_unset n p fuel :
  exists spec,
    init fuel (with_counts (PInt n) (PInt p)) = Some (Returned spec) /\
    spec !! "walltime" = Some PNone /\
    spec !! "queue" = Some PNone /\
    spec !! "command" = Some PNone /\
    qsub_string spec = Returned (script (job_unset n p)).
Proof.
  eexists. split; [reflexivity |].
  split; [reflexivity |]. split; [reflexivity |]. split; [reflexivity |].
  unfold qsub_string, getattr. simplify_map_eq. 
  unfold script, header, job_unset, anchor_line.
  cbn [j_name j_account j_nodes j_ppn j_walltime j_pmem j_queue j_exetime
       j_message j_email j_priority j_command j_auto opt_line app join py_format].
  bind_step. unfold py_format. f_equal. repeat (rewrite !append_assoc; simpl). reflexivity.
Qed.

(** X12.  [Job(nodes=n, ppn=p)] leaves [walltime], [queue] and
    [command] at [None]; [qsub_string] writes the word None for
    them, and the script is read back with that word as their value. *)
Theorem unset_fields_become_words n p fuel :
  (22 <= fuel)%nat ->
  exists spec text parsed,
    init fuel (with_counts (PInt n) (PInt p)) = Some (Returned spec) /\
    spec !! "walltime" = Some PNone /\
    spec !! "queue" = Some PNone /\
    spec !! "command" = Some PNone /\
    qsub_string spec = Returned text /\
    init fuel (from_script text) = Some (Returned parsed) /\
    parsed !! "walltime" = Some (PStr "None") /\
    parsed !! "queue" = Some (PStr "None") /\
    parsed !! "command" = Some (PStr ("None" ++ nl)).
Proof.
  intros Hfuel.
  destruct (qsub_string_unset n p fuel) as (spec & Hi & Hw & Hq & Hc & Ht).
  exists spec, (script (job_unset n p)), (to_obj (reread (job_unset n p))).
  split; [exact Hi |]. split; [exact Hw |]. split; [exact Hq |].
  split; [exact Hc |]. split; [exact Ht |].
  split; [rewrite init_from_script; by apply read_script |].
  split; [reflexivity |]. split; reflexivity.
Qed.

Lemma unset_fields_become_words_witness :
  exists spec text parsed,
    init 22 (with_counts (PInt 1) (PInt 8)) = Some (Returned spec) /\
    spec !! "walltime" = Some PNone /\
    spec !! "queue" = Some PNone /\
    spec !! "command" = Some PNone /\
    qsub_string spec = Returned text /\
    init 22 (from_script text) = Some (Returned parsed) /\
    parsed !! "walltime" = Some (PStr "None") /\
    parsed !! "queue" = Some (PStr "None") /\
    parsed !! "command" = Some (PStr ("None" ++ nl)).
Proof. apply (unset_fields_become_words 1 8 22). lia. Defined.

(** ** A directive that comes twice *)

Lemma directive_effect_sets d st k v :
  (k, v) ∈ directive_values d -> self (directive_effect d st) !! k = Some v.
Proof.
  destruct d; cbn [directive_values directive_effect]; intros Hin;
    repeat (apply elem_of_cons in Hin as [[= -> ->]|Hin];
            [unfold found_required, found_optional, set_required, set_optional, set_attr;
             cbn [self]; by simplify_map_eq |]);
    by apply elem_of_nil in Hin.
Qed.

Lemma directive_effect_keeps d d' st k v :
  directive_field d' <> directive_field d ->
  (k, v) ∈ directive_values d ->
  self (directive_effect d' st) !! k = self st !! k.
Proof.
  intros Hne Hin.
  destruct d, d'; try done; clear Hne; cbn [directive_values] in Hin;
    repeat (apply elem_of_cons in Hin as [[= -> ->]|Hin];
            [unfold directive_effect, found_required, found_optional, set_required,
               set_optional, set_attr; cbn [self]; by rewrite ?lookup_insert_ne |]);
    by apply elem_of_nil in Hin.
Qed.

Lemma items_effect_keeps d its st k v :
  Forall (fun it' => item_field it' <> directive_field d) its ->
  (k, v) ∈ directive_values d ->
  self (items_effect its st) !! k = self st !! k.
Proof.
  intros Hits Hin. revert st.
  induction Hits as [|it its Hit _ IH]; intros st; [done |].
  unfold items_effect in *. cbn [fold_left]. rewrite IH.
  exact (directive_effect_keeps d it.2 st k v Hit Hin).
Qed.

Lemma items_effect_app its its' st :
  items_effect (its ++ its') st = items_effect its' (items_effect its st).
Proof. unfold items_effect. by rewrite fold_left_app. Qed.

(** X4.  A directive that comes again overwrites: after the lines
    of directives in front of the anchor, a field holds the value of
    the last directive about it. *)
Theorem last_directive_wins its it its' st :
  forallb wf_item (its ++ it :: its') = true ->
  Forall (fun it' => item_field it' <> item_field it) its' ->
  exists st',
    scan (map item_line (its ++ it :: its')) st = ScanEnd st' /\
    forall k v, (k, v) ∈ directive_values it.2 -> self st' !! k = Some v.
Proof.
  intros Hwf Hlater. exists (items_effect (its ++ it :: its') st).
  split; [by apply scan_items |]. intros k v Hin.
  rewrite items_effect_app.
  change (it :: its') with ([it] ++ its')%list. rewrite items_effect_app.
  rewrite (items_effect_keeps it.2 its' _ k v Hlater Hin).
  by apply directive_effect_sets.
Qed.

Lemma last_directive_wins_witness :
  exists st',
    scan (map item_line ([(" ", " ", DName "first"); (" ", " ", DQueue "flux")] ++
            (" ", " ", DName "second") :: [(" ", " ", DWalltime "10:00:00")]))
      (PState ∅ ∅ ∅) = ScanEnd st' /\
    forall k v, (k, v) ∈ directive_values (DName "second") -> self st' !! k = Some v.
Proof.
  apply (last_directive_wins [(" ", " ", DName "first"); (" ", " ", DQueue "flux")]
           (" ", " ", DName "second") [(" ", " ", DWalltime "10:00:00")]).
  - reflexivity.
  - repeat constructor. discriminate.
Defined.

(** ** The report on the required fields *)

Lemma read_loop_returned fuel io st st' :
  read_loop fuel io st = Some (Returned st') ->
  exists io' st1, st' = read_command io' st1.
Proof.
  revert io st. induction fuel as [|fuel IH]; intros io st; [done |].
  cbn [read_loop]. destruct (readline io) as [l io'].
  destruct (read_line l st) as [st1|]; [| done].
  destruct (re_search re_cd l); [| apply IH]. intros [= <-]. by eauto.
Qed.

Lemma print_items_In (d : obj) k v :
  d !! k = Some v -> In (k ++ ": " ++ py_format v) (print_items d).
Proof.
  intros H. unfold print_items. apply list_elem_of_In, list_elem_of_fmap.
  exists (k, v). split; [done |]. by apply elem_of_map_to_list.
Qed.

Lemma check_required_raised_key st e out :
  check_required st = Raised e out ->
  exists k, required st !! k = Some not_found.
Proof.
  unfold check_required. destruct (existsb _ _) eqn:E; [| done]. intros _.
  apply existsb_exists in E as ([k v] & Hin & Heq).
  apply list_elem_of_In, elem_of_map_to_list in Hin.
  unfold py_eq in Heq. apply bool_decide_eq_true in Heq. simpl in Heq. subst.
  by exists k.
Qed.

(** X13.  The report on the required fields is printed after the
    loop only: whenever [Job.read] prints more than one line before
    it raises, the exception is the [NameError] of [sys.exit()], the
    report says that [cd $PBS_O_WORKDIR] was found and it names a
    field as not found. *)
Theorem report_after_anchor_only fuel self0 text e out :
  read fuel self0 text = Some (Raised e out) ->
  (2 <= length out)%nat ->
  e = NameError "sys" /\
  In "cd $PBS_O_WORKDIR: Found" out /\
  exists k, In (k ++ ": Not Found") out.
Proof.
  unfold read. destruct (read_loop _ _ _) as [[st|e1 out1]|] eqn:E; [| | done].
  - intros [= Hc] _. pose proof (check_required_raised_key _ _ _ Hc) as [k Hk].
    apply check_required_raised in Hc as [-> ->].
    apply read_loop_returned in E as (io' & st1 & ->).
    split; [done |]. unfold report. split.
    + rewrite !in_app_iff. right. right. right.
      apply (print_items_In _ "cd $PBS_O_WORKDIR" (PStr "Found")).
      unfold read_command, set_required, set_attr. cbn [required].
      by simplify_map_eq.
    + exists k. rewrite !in_app_iff. right. right. right.
      by apply (print_items_In _ k not_found).
  - intros [= <- <-] Hlen. apply read_loop_raised in E as (l & st' & H).
    apply read_line_raised in H as [[_ ->]|(s & _ & ->)]; simpl in Hlen; lia.
Qed.

Lemma report_after_anchor_only_witness :
  NameError "sys" = NameError "sys" /\
  In "cd $PBS_O_WORKDIR: Found"
    (report (read_command "" (PState (read_defaults ∅) optional_init required_init))) /\
  exists k, In (k ++ ": Not Found")
    (report (read_command "" (PState (read_defaults ∅) optional_init required_init))).
Proof.
  apply (report_after_anchor_only 5 ∅ ("cd $PBS_O_WORKDIR" ++ nl)).
  - vm_compute. reflexivity.
  - pose proof (report_length
      (read_command "" (PState (read_defaults ∅) optional_init required_init))).
    lia.
Defined.


(** X14.  The check after the loop takes the words Not Found for a
    missing field: a head that is read with some payload is refused
    when the payload is exactly Not Found, and the report says the
    command is missing. *)
Theorem not_found_payload_rejected head fuel self0 payload o :
  anchor_last head = true ->
  (length (split_lines head) < fuel)%nat ->
  read fuel self0 (head ++ payload) = Some (Returned o) ->
  exists st,
    read fuel self0 (head ++ "Not Found") = Some (Raised (NameError "sys") (report st)) /\
    In "command: Not Found" (report st) /\
    self st !! "command" = Some (PStr "Not Found").
Proof.
  intros Ha Hfuel Hr.
  destruct (read_head_payload head fuel self0 Ha Hfuel)
    as [(e & out & H)|(st & H)]; [by rewrite H in Hr |].
  exists (read_command "Not Found" st). rewrite H. split; [| split].
  - f_equal. apply (check_required_missing _ "command").
    unfold read_command, set_required. cbn [required]. by simplify_map_eq.
  - unfold report. rewrite !in_app_iff. right. right. right.
    apply (print_items_In _ "command" not_found).
    unfold read_command, set_required. cbn [required]. by simplify_map_eq.
  - unfold read_command, set_required, set_attr. cbn [self]. by simplify_map_eq.
Qed.

Lemma not_found_payload_rejected_witness :
  exists st,
    read 22 ∅ ((join (header job1) ++ anchor_line) ++ "Not Found") =
      Some (Raised (NameError "sys") (report st)) /\
    In "command: Not Found" (report st) /\
    self st !! "command" = Some (PStr "Not Found").
Proof.
  apply (not_found_payload_rejected (join (header job1) ++ anchor_line) 22 ∅
           ("echo hi" ++ nl) (to_obj (reread job1))).
  - vm_compute. reflexivity.
  - vm_compute. lia.
  - rewrite append_assoc. apply (read_script job1 22); [reflexivity | lia].
Defined.

(** ** Lines that are passed over *)

Lemma re_search_lit_contains p s :
  contains p s = false -> re_search (Lit p) s = None.
Proof.
  induction s as [|c s IH]; intros H.
  - rewrite re_search_nil. unfold re_match. rewrite rmatch_lit.
    simpl in H. by destruct (strip_prefix p "").
  - cbn [contains] in H. destruct (strip_prefix p (String c s)) eqn:E; [done |].
    rewrite re_search_next; [by apply IH |].
    unfold re_match. by rewrite rmatch_lit, E.
Qed.

Lemma re_search_seq_contains p r s :
  contains p s = false -> re_search (Lit p +++ r) s = None.
Proof.
  induction s as [|c s IH]; intros H.
  - rewrite re_search_nil. apply re_match_lit_none.
    simpl in H. by destruct (strip_prefix p "").
  - cbn [contains] in H. destruct (strip_prefix p (String c s)) eqn:E; [done |].
    rewrite re_search_next; [by apply IH |]. by apply re_match_lit_none.
Qed.

(** X15.  A line that contains neither [#PBS] nor [auto=] changes
    nothing. *)
Theorem plain_line_ignored l st :
  contains "#PBS" l = false -> contains "auto=" l = false ->
  read_line l st = Returned st.
Proof.
  intros HP Ha. unfold read_line, read_directives, read_auto, re_PBS.
  rewrite (re_search_lit_contains _ _ HP). cbn [mbind outcome_bind].
  unfold re_auto. by rewrite (re_search_seq_contains _ _ _ Ha).
Qed.

Lemma plain_line_ignored_witness :
  read_line ("module load gcc" ++ nl) (PState ∅ ∅ ∅) = Returned (PState ∅ ∅ ∅).
Proof. apply (plain_line_ignored ("module load gcc" ++ nl)); reflexivity. Defined.

Lemma re_match_lit2 a b p r x s :
  Ascii.eqb b x = false ->
  re_match (Lit (String a (String b p)) +++ r) (String a (String x s)) = None.
Proof.
  intros H. apply re_match_lit_none. cbn [strip_prefix].
  by rewrite Ascii.eqb_refl, H.
Qed.

Lemma re_match_lit_second a b p r x c s :
  Ascii.eqb b c = false ->
  re_match (Lit (String a (String b p)) +++ r) (String x (String c s)) = None.
Proof.
  intros H. apply re_match_lit_none. cbn [strip_prefix].
  rewrite H. by destruct (Ascii.eqb a x).
Qed.

Lemma re_match_chr_lit C a p r x c s :
  Ascii.eqb a c = false ->
  re_match (Chr C +++ Lit (String a p) +++ r) (String x (String c s)) = None.
Proof.
  intros H. unfold re_match. rewrite rmatch_seq, rmatch_chr.
  destruct (cls_mem C x); [| done]. rewrite rmatch_seq, rmatch_lit.
  cbn [strip_prefix]. by rewrite H.
Qed.

Lemma re_match_chr_lit2 C a b p r x s :
  cls_mem C " " = true -> Ascii.eqb b x = false ->
  re_match (Chr C +++ Lit (String a (String b p)) +++ r)
    (String " " (String a (String x s))) = None.
Proof.
  intros HC H. unfold re_match. rewrite rmatch_seq, rmatch_chr, HC.
  rewrite rmatch_seq, rmatch_lit. cbn [strip_prefix].
  by rewrite Ascii.eqb_refl, H.
Qed.

Ltac walk_flag :=
  simpl;
  repeat first
    [ rewrite re_search_next by reflexivity
    | rewrite re_search_next by (apply re_match_lit2; assumption)
    | rewrite re_search_next by (apply re_match_lit_second; reflexivity)
    | rewrite re_search_next by (apply re_match_chr_lit; reflexivity)
    | rewrite re_search_next by (apply re_match_chr_lit2; [reflexivity | assumption]) ].

Ltac search_none_flag :=
  unfold_patterns; unfold re_l; walk_flag;
  first
    [ reflexivity
    | apply re_search_two_blanks;
      [done | solve [auto with line] | solve [auto with line]]
    | apply (re_search_absent "="); [reflexivity | solve [auto with line]] ].

Ltac settle_searches_flag :=
  repeat match goal with
    | |- context [re_search ?r ?s] =>
        let H := fresh in
        first
          [ assert (re_search r s = None) as H by search_none_flag
          | eassert (re_search r s = Some _) as H
              by (unfold_patterns; walk; apply re_search_here; reflexivity) ];
        rewrite H; clear H
    | |- context [re_match ?r ?s] =>
        let H := fresh in
        assert (re_match r s = None) as H by match_none;
        rewrite H; clear H
    end.

(** X16.  A directive with a flag other than [-N], [-A], [-a], [-q]
    and [-l] (so [-M], [-m] and [-p] too), followed by a value
    without blanks and [=], changes nothing and is not the anchor. *)
Theorem unknown_flag_ignored x v st :
  string_mem x "NAaql" = false -> token v = true ->
  read_line ("#PBS -" ++ String x (" " ++ v ++ nl)) st = Returned st /\
  is_anchor ("#PBS -" ++ String x (" " ++ v ++ nl)) = false.
Proof.
  intros Hx Hv. cbn [string_mem] in Hx.
  repeat (apply orb_false_elim in Hx as [? Hx]). clear Hx.
  repeat match goal with
    | H : Ascii.eqb x ?c = false |- _ => rewrite Ascii.eqb_sym in H
    end.
  split; unfold is_anchor, read_line, read_directives, read_auto, read_resources;
    settle_searches_flag;
    repeat match goal with
      | |- context [re_search ?r ?s] => destruct (re_search r s)
      end;
    reflexivity.
Qed.

Lemma unknown_flag_ignored_witness :
  read_line ("#PBS -" ++ String "j" (" " ++ "oe" ++ nl)) (PState ∅ ∅ ∅) =
    Returned (PState ∅ ∅ ∅) /\
  is_anchor ("#PBS -" ++ String "j" (" " ++ "oe" ++ nl)) = false.
Proof. apply (unknown_flag_ignored "j" "oe"); reflexivity. Defined.

(** ** What the script depends on *)

(** X11.  The script depends on the thirteen fields only: two
    objects that agree on them are written to the same text, whatever
    [jobID] or other attributes they hold. *)
Theorem qsub_string_fields_only (o o' : obj) :
  (forall k, k ∈ field_names -> o !! k = o' !! k) ->
  qsub_string o = qsub_string o'.
Proof.
  intros H. unfold qsub_string, getattr.
  repeat match goal with
    | |- context [o !! ?k] =>
        rewrite (H k ltac:(by apply (bool_decide_unpack _)))
    end.
  reflexivity.
Qed.

Lemma qsub_string_fields_only_witness :
  qsub_string (to_obj job1) = qsub_string (<["jobID" := PStr "123.host"]> (to_obj job1)).
Proof.
  apply (qsub_string_fields_only (to_obj job1) (<["jobID" := PStr "123.host"]> (to_obj job1))).
  intros k Hk. rewrite lookup_insert_ne; [done |]. intros <-.
  revert Hk. by apply (bool_decide_unpack _).
Defined.

(** ** [Job.script] *)

(** X17.  [Job.script] writes the text of [qsub_string] to the file
    it is given, replaces what the file held and touches no other
    file; the content is read back by [Job(qsubstr=...)] as the
    job. *)
Theorem script_file_read_back j filename fs fuel :
  wf_job j = true -> (22 <= fuel)%nat ->
  exists text,
    qsub_string (to_obj j) = Returned text /\
    script_file (to_obj j) filename fs = (Returned tt, <[filename := text]> fs) /\
    (<[filename := text]> fs) !! filename = Some text /\
    (forall f, f <> filename -> (<[filename := text]> fs) !! f = fs !! f) /\
    init fuel (from_script text) = Some (Returned (to_obj (reread j))).
Proof.
  intros Hwf Hfuel. exists (script j).
  pose proof (qsub_string_script j (to_obj j)) as Hq.
  split; [by apply Hq |].
  unfold script_file. rewrite Hq by done.
  split; [by rewrite insert_insert_eq |]. split; [by rewrite lookup_insert_eq |].
  split; [intros f Hf; by rewrite lookup_insert_ne |].
  rewrite init_from_script. by apply read_script.
Qed.

Lemma script_file_read_back_witness :
  exists text,
    qsub_string (to_obj job1) = Returned text /\
    script_file (to_obj job1) default_filename (<[default_filename := "old"]> ∅) =
      (Returned tt, <[default_filename := text]> (<[default_filename := "old"]> ∅)) /\
    (<[default_filename := text]> (<[default_filename := "old"]> ∅ : files))
      !! default_filename = Some text /\
    (forall f, f <> default_filename ->
       (<[default_filename := text]> (<[default_filename := "old"]> ∅ : files)) !! f =
       (<[default_filename := "old"]> ∅ : files) !! f) /\
    init 22 (from_script text) = Some (Returned (to_obj (reread job1))).
Proof.
  apply (script_file_read_back job1 default_filename
           (<[default_filename := "old"]> ∅) 22); [reflexivity | lia].
Defined.

(** The file is opened for writing before the text is made:
    when [qsub_string] raises, the exception leaves [Job.script] and
    the file is left empty, whatever it held. *)
Theorem script_file_failure self filename fs e out :
  qsub_string self = Raised e out ->
  script_file self filename fs = (Raised e out, <[filename := ""]> fs).
Proof. intros H. unfold script_file. by rewrite H. Qed.

Lemma script_file_failure_witness :
  script_file ∅ default_filename (<[default_filename := "old"]> ∅) =
    (Raised (AttributeError "name") [],
     <[default_filename := ""]> (<[default_filename := "old"]> ∅)).
Proof. apply (script_file_failure ∅). reflexivity. Defined.


(** ** [Job.submit] *)

Section Submit.
Context {W D S : Type} (ext : externals W D S).

Lemma except_PBSError_name e : except_PBSError e = Own (NameError "PBSError").
Proof. reflexivity. Qed.

(** X18.  The module does not bind [PBSError], so the [except]
    clause of [submit] raises [NameError] for any exception of the
    [try] block, be it a missing attribute in [qsub_string] or a
    failure of [misc.submit] of any class; the object is left as it
    was and the database is not opened. *)
Theorem submit_failure_is_name_error add dbpath self w :
  (forall e out, qsub_string self = Raised e out ->
     submit ext add dbpath self w = (inr (Own (NameError "PBSError")), self, w)) /\
  (forall text e w', qsub_string self = Returned text ->
     misc_submit ext text w = (inr e, w') ->
     submit ext add dbpath self w = (inr (Own (NameError "PBSError")), self, w')).
Proof.
  split.
  - intros e out H. unfold submit, try_except_PBSError, mbind, call_bind, own.
    by rewrite H.
  - intros text e w' H Hs. unfold submit, try_except_PBSError, mbind, call_bind, own.
    by rewrite H, Hs.
Qed.

Lemma submit_accepted add dbpath self w text jobid w1 :
  qsub_string self = Returned text ->
  misc_submit ext text w = (inl jobid, w1) ->
  submit ext add dbpath self w =
    if add then
      let '(r, w') := add_status ext dbpath (<["jobID" := jobid]> self) w1 in
      (r, <["jobID" := jobid]> self, w')
    else (inl tt, <["jobID" := jobid]> self, w1).
Proof.
  intros H Hs. unfold submit, try_except_PBSError, mbind, call_bind, own.
  by rewrite H, Hs.
Qed.

(** X19.  When [misc.submit] accepts the job, [jobID] is set to what
    it returned.  Without [add] nothing else happens; with [add] the
    status record is made for that identifier, the status [?], the
    script that was submitted and [nodes * ppn] processors, then
    added to the database, which is closed. *)
Theorem submit_records_script j self dbpath w jobid w1 db w2 cwd w3 seconds w4 :
  to_obj j ⊆ self ->
  misc_submit ext (script j) w = (inl jobid, w1) ->
  jobdb_JobDB ext dbpath w1 = (inl db, w2) ->
  os_getcwd ext w2 = (inl cwd, w3) ->
  misc_seconds ext (PStr (j_walltime j)) w3 = (inl seconds, w4) ->
  submit ext false dbpath self w = (inl tt, <["jobID" := jobid]> self, w1) /\
  submit ext true dbpath self w =
    (let '(r, w') :=
       (status ← jobdb_job_status_dict ext
          (StatusArgs jobid (PStr (j_name j)) cwd (PStr "?") (PBool (j_auto j))
             (PStr (script j)) seconds (PInt (j_nodes j))
             (PInt (j_nodes j * j_ppn j)));
        _ ← db_add ext db status;
        db_close ext db) w4 in
     (r, <["jobID" := jobid]> self, w')).
Proof.
  intros Hj Hs Hdb Hcwd Hsec.
  assert (to_obj j ⊆ <["jobID" := jobid]> self) as Hj'.
  { apply map_subseteq_spec. intros k v Hk.
    rewrite lookup_insert_ne by (by intros <-). by apply (lookup_weaken _ _ _ _ Hk). }
  rewrite !(submit_accepted _ _ _ _ _ _ _ (qsub_string_script j self Hj) Hs).
  split; [reflexivity |].
  unfold add_status, mbind, call_bind, own, getattr.
  rewrite Hdb, lookup_insert_eq.
  rewrite (to_obj_lookup j _ "name" _ Hj' eq_refl), Hcwd.
  rewrite (to_obj_lookup j _ "auto" _ Hj' eq_refl).
  rewrite (qsub_string_script j _ Hj').
  rewrite (to_obj_lookup j _ "walltime" _ Hj' eq_refl), Hsec.
  rewrite (to_obj_lookup j _ "nodes" _ Hj' eq_refl).
  rewrite (to_obj_lookup j _ "ppn" _ Hj' eq_refl).
  reflexivity.
Qed.
End Submit.

Lemma submit_failure_is_name_error_witness :
  submit refusing true PNone (to_obj job1) 0%nat =
    (inr (Own (NameError "PBSError")), to_obj job1, 1%nat).
Proof.
  apply (proj2 (submit_failure_is_name_error refusing true PNone (to_obj job1) 0%nat)
           (script job1) (Foreign "PBSError") 1%nat).
  - by apply qsub_string_script.
  - reflexivity.
Defined.

Lemma submit_records_script_witness :
  submit accepting false PNone (to_obj job1) [] =
    (inl tt, <["jobID" := PStr "123.host"]> (to_obj job1), []) /\
  submit accepting true PNone (to_obj job1) [] =
    (inl tt, <["jobID" := PStr "123.host"]> (to_obj job1),
     [StatusArgs (PStr "123.host") (PStr "job1") (PStr "/home/jdoe") (PStr "?")
        (PBool false) (PStr (script job1)) (PInt 36000) (PInt 2) (PInt 32)]).
Proof.
  apply (submit_records_script accepting job1 (to_obj job1) PNone []
           (PStr "123.host") [] tt [] (PStr "/home/jdoe") [] (PInt 36000) []);
    reflexivity.
Defined.

(** ** The round trip, as texts *)

Lemma header_reread j : quiet j = true -> header (reread j) = header j.
Proof.
  unfold quiet. intros H. repeat (apply andb_prop in H as [H ?]).
  repeat match goal with
    | H : bool_decide _ = true |- _ => apply bool_decide_eq_true in H
    end.
  destruct j as [name account nodes ppn walltime pmem queue exetime
                 message email priority command auto].
  cbn [j_email j_message j_priority] in *. by subst.
Qed.

(** X20.  Each round trip adds a newline at the end of the text and
    changes nothing else: for a job with well-formed fields and no
    mail or priority setting, the script written for what was read
    from its script is that script followed by a newline. *)
Theorem roundtrip_text_grows j fuel :
  wf_job j = true -> quiet j = true -> (22 <= fuel)%nat ->
  exists text parsed,
    qsub_string (to_obj j) = Returned text /\
    init fuel (from_script text) = Some (Returned parsed) /\
    qsub_string parsed = Returned (text ++ nl).
Proof.
  intros Hwf Hq Hfuel. exists (script j), (to_obj (reread j)).
  split; [by apply qsub_string_script |].
  split; [rewrite init_from_script; by apply read_script |].
  rewrite (qsub_string_script (reread j) (to_obj (reread j))) by done.
  f_equal. unfold script. rewrite (header_reread j Hq).
  cbn [reread j_command]. by rewrite !append_assoc.
Qed.

Lemma roundtrip_text_grows_witness :
  exists text parsed,
    qsub_string (to_obj job3) = Returned text /\
    init 22 (from_script text) = Some (Returned parsed) /\
    qsub_string parsed = Returned (text ++ nl).
Proof. apply (roundtrip_text_grows job3 22); [reflexivity | reflexivity | lia]. Defined.

(** ** Which lines are [auto=] comments *)









